(** * bildir_az: the scraper and the chart aggregations, embedded in Rocq

    Source files: [scripts/scraper.py] and [scripts/generate_charts.py].

    A Python [str] is a sequence of Unicode code points, modelled as a list
    of [N].  Dictionaries indexed by computed keys are [gmap]s, the [seen]
    set of the deduplication loop is a [gset], insertion-ordered
    dictionaries that are iterated are association lists.  The effects of
    the scraper (HTTP requests, sleeps, log lines, rows written) are
    threaded through a state-and-exception monad over an explicit world. *)

From Stdlib Require Import ZArith NArith QArith DecimalString.
From stdpp Require Import gmap strings list fin_maps sorting.

Set Warnings "-register-all,-clear-no-such-hyp".

(** ** Python text *)

Abbreviation pystr := (list N).

(** An ASCII literal of the source, as code points. *)
Definition lit (s : string) : pystr :=
  Ascii.N_of_ascii <$> String.list_ascii_of_string s.

(** Length of the longest prefix whose characters satisfy [p]: what a greedy
    [+] or [*] over a character class consumes first. *)
Fixpoint span (p : N -> bool) (s : pystr) : nat :=
  match s with
  | c :: s' => if p c then S (span p s') else 0%nat
  | [] => 0%nat
  end.

(** ** Python floats

    A [float] is a binary64 value: a rational, an infinity or a NaN.
    Comparisons and truth values are exact on this carrier; the operations
    that round (parsing, [statistics.mean], [round], [sum]) belong to the
    interpreter and are taken from [PyRuntime] below. *)
Inductive pyfloat :=
  | Finite (q : Q)
  | PosInf
  | NegInf
  | NaN.

(** What the interpreter and its libraries supply and the repository does
    not define: the Unicode tables outside printable ASCII, case-insensitive
    regular-expression search, lower-casing, and float arithmetic. *)
Class PyRuntime := {
  (** decimal value of a non-ASCII code point of category Nd *)
  uni_decimal : N -> option N;
  (** non-ASCII code points for which [str.isdigit] holds although [int]
      rejects them (superscript digits and the like) *)
  uni_isdigit_only : N -> bool;
  (** white space outside printable ASCII *)
  uni_space : N -> bool;
  (** [re.search(pattern, text, re.IGNORECASE)]: its group 1, if it matches *)
  re_search_i : string -> pystr -> option pystr;
  (** [str.lower] *)
  str_lower : pystr -> pystr;
  (** [float(s)]; [None] is its [ValueError] *)
  py_float : pystr -> option pyfloat;
  (** [statistics.mean] of a non-empty sequence of floats *)
  py_mean : list pyfloat -> pyfloat;
  (** [round(x, ndigits)] *)
  py_round : pyfloat -> nat -> pyfloat;
  (** [sum] of a sequence of floats *)
  py_sum : list pyfloat -> pyfloat;
  (** [sys.get_int_max_str_digits()]: the most digits [int] converts from
      a string, 0 when the interpreter sets no limit; 4300 by default *)
  int_max_str_digits : nat
}.

(** A runtime to run the model on ASCII inputs: the tables are empty
    outside ASCII, [float] reads unsigned decimal literals, and float
    arithmetic is exact rational arithmetic. *)
Definition sample_float (s : pystr) : option pyfloat :=
  let isd (c : N) := ((48 <=? c) && (c <=? 57))%N in
  let value (ds : pystr) : Z :=
    foldl (fun acc c => 10 * acc + Z.of_N (c - 48))%Z 0%Z ds in
  let n := span isd s in
  match take n s, drop n s with
  | (_ :: _) as ip, [] => Some (Finite (inject_Z (value ip)))
  | (_ :: _) as ip, 46%N :: ((_ :: _) as fp) =>
      if forallb isd fp
      then Some (Finite (Qred (inject_Z (value ip)
                               + (value fp # Pos.pow 10 (Pos.of_nat (length fp))))%Q))
      else None
  | _, _ => None
  end.

Definition sample_sum (l : list pyfloat) : pyfloat :=
  foldl (fun acc x =>
           match acc, x with
           | Finite a, Finite b => Finite (Qred (a + b)%Q)
           | _, _ => NaN
           end) (Finite 0) l.

Definition sample_mean (l : list pyfloat) : pyfloat :=
  match sample_sum l with
  | Finite q => Finite (Qred (q / inject_Z (Z.of_nat (length l)))%Q)
  | x => x
  end.

Definition ascii_runtime : PyRuntime :=
  {| uni_decimal := fun _ => None;
     uni_isdigit_only := fun _ => false;
     uni_space := fun _ => false;
     re_search_i := fun _ _ => None;
     str_lower := fun s => s;
     py_float := sample_float;
     py_mean := sample_mean;
     py_round := fun x _ => x;
     py_sum := sample_sum;
     int_max_str_digits := 4300 |}.

Section Text.
Context {R : PyRuntime}.
Local Open Scope N_scope.

Definition is_ascii_digit (c : N) : bool := (48 <=? c) && (c <=? 57).

Definition printable_ascii (c : N) : bool := (32 <=? c) && (c <=? 126).

(** [\d] of a [str] pattern: a decimal digit of any script. *)
Definition is_digit (c : N) : bool :=
  is_ascii_digit c
  || (negb (printable_ascii c) && bool_decide (is_Some (uni_decimal c))).

(** [\s] of a [str] pattern, and the characters [str.strip] removes. *)
Definition is_space (c : N) : bool :=
  (c =? 32) || ((9 <=? c) && (c <=? 13))
  || (negb (printable_ascii c) && uni_space c).

(** One character of [str.isdigit]. *)
Definition isdigit_char (c : N) : bool :=
  is_digit c || (negb (printable_ascii c) && uni_isdigit_only c).

(** [s.replace(",", ".")] *)
Definition replace_comma (s : pystr) : pystr :=
  (fun c => if c =? 44 then 46 else c) <$> s.

(** [needle in s] *)
Fixpoint contains (needle s : pystr) : bool :=
  bool_decide (needle `prefix_of` s)
  || match s with
     | [] => false
     | _ :: s' => contains needle s'
     end.

(** *** The regular expressions matched without [re.IGNORECASE] *)

(** Backtracking of a greedy quantifier: try [lo + d] repetitions, then one
    fewer, down to [lo]. *)
Fixpoint try_down {A} (f : nat -> option A) (lo d : nat) : option A :=
  match f (lo + d)%nat with
  | Some a => Some a
  | None =>
      match d with
      | O => None
      | S d' => try_down f lo d'
      end
  end.

(** [re.search]: the match at the leftmost start position, the end of the
    text included. *)
Fixpoint re_search {A} (match_at : pystr -> option A) (s : pystr) : option A :=
  match match_at s with
  | Some g => Some g
  | None =>
      match s with
      | [] => None
      | _ :: s' => re_search match_at s'
      end
  end.

(** The class [[\d,\.]]. *)
Definition is_num_char (c : N) : bool :=
  is_digit c || (c =? 44) || (c =? 46).

(** [([\d,\.]+)\s*%] anchored at the head of [s]; the result is group 1. *)
Definition match_pct_at (s : pystr) : option pystr :=
  match span is_num_char s with
  | O => None
  | S n =>
      try_down
        (fun k =>
           let rest := drop k s in
           try_down
             (fun j =>
                match drop j rest with
                | 37 :: _ => Some (take k s)
                | _ => None
                end)
             0 (span is_space rest))
        1 n
  end.

(** [([\d,\.]+)] anchored at the head of [s]. *)
Definition match_num_at (s : pystr) : option pystr :=
  match span is_num_char s with
  | O => None
  | S n => Some (take (S n) s)
  end.

(** [_pct], scraper.py lines 202-210. *)
Definition _pct (text : pystr) : pystr :=
  match re_search match_pct_at text with
  | Some g => replace_comma g
  | None =>
      match re_search match_num_at text with
      | Some g => replace_comma g
      | None => []
      end
  end.

(** [t] starts with [run], a non-empty run of characters of the class
    [[\d,\.]], followed by optional white space and ["%"]: the pattern
    [([\d,\.]+)\s*%] matches at the head of [t] with group 1 equal to
    [run]. *)
Definition pct_run (t run : pystr) : Prop :=
  run <> []
  /\ Forall (fun c => is_num_char c = true) run
  /\ exists ws post,
       Forall (fun c => is_space c = true) ws /\ t = run ++ ws ++ 37 :: post.

End Text.

(** ** The parsed document, as the queries of the source see it

    A [Node] is a BeautifulSoup tag (the document itself is one): the texts
    [get_text] returns in the three ways the source calls it, the attributes,
    and, for each CSS selector, the tags [select] returns in document
    order. *)
Inductive Node := mkNode {
  (** [tag.get_text(strip=True)] *)
  get_text_strip : pystr;
  (** [tag.get_text(" ", strip=True)] *)
  get_text_sep : pystr;
  (** [tag.get_text()] *)
  get_text : pystr;
  (** [tag.get(name)] *)
  attr : string -> option pystr;
  (** [tag.select(css)] *)
  select : string -> list Node;
  (** [tag.find(string=re.compile(pattern, re.I)).parent] *)
  find_string_parent : string -> option Node;
  (** [tag.find_next_sibling()] *)
  find_next_sibling : option Node
}.

(** [tag.select_one(css)] *)
Definition select_one (n : Node) (css : string) : option Node :=
  head (select n css).

(** [tag.get(name, "")] *)
Definition attr_or_empty (n : Node) (name : string) : pystr :=
  default [] (attr n name).

(** A document on which every query comes back empty. *)
Definition empty_node : Node :=
  mkNode [] [] [] (fun _ => None) (fun _ => []) (fun _ => None) None.

(** Truth value of a [str]. *)
Definition truthy (s : pystr) : bool :=
  match s with
  | [] => false
  | _ :: _ => true
  end.

(** ** Effects *)

Inductive LogLevel := INFO | WARNING | ERROR.

(** The exceptions the modelled code can raise and does not catch:
    [ValueError] from [int] of a text that is no decimal number or of a
    NaN, [OverflowError] from [int] of an infinity, [StatisticsError] from
    [statistics.mean] of an empty sequence. *)
Inductive Exn := ValueError | OverflowError | StatisticsError.

(** The outcome of a call: a value, or an exception that propagates. *)
Inductive Res (A : Type) :=
  | Ok (a : A)
  | Raised (e : Exn).
Arguments Ok {A} a.
Arguments Raised {A} e.

(** What a run does to the outside: HTTP requests, sleeps, log lines (by
    their format string), and the writes to the output table. *)
Inductive Event :=
  | EvRequest (url : pystr)
  | EvSleep (seconds : Q)
  | EvLog (level : LogLevel) (format : string)
  | EvMakedirs
  | EvOpen
  | EvHeader (fields : list string)
  | EvRow (row : gmap string pystr)
  | EvFlush.

(** The world the scraper runs in.  [net k url] is what the site answers to
    the request number [k] of the run when it asks for [url]: a parsed
    document, or [None] when [session.get] or [raise_for_status] raises a
    [RequestException]. *)
Record World := mkWorld {
  net : nat -> pystr -> option Node;
  requests : nat;
  events : list Event
}.

(** Computations of the scraper: they change the world and return a value
    or raise. *)
Definition M (A : Type) : Type := World -> Res A * World.

#[global] Instance M_ret : MRet M := fun A a w => (Ok a, w).

#[global] Instance M_bind : MBind M := fun A B f m w =>
  match m w with
  | (Ok a, w') => f a w'
  | (Raised e, w') => (Raised e, w')
  end.

Definition raise {A} (e : Exn) : M A := fun w => (Raised e, w).

Definition emit (e : Event) : M unit := fun w =>
  (Ok tt, mkWorld (net w) (requests w) (events w ++ [e])).

(** [session.get(url, timeout=TIMEOUT)], [raise_for_status] and the
    [BeautifulSoup] constructor. *)
Definition session_get (url : pystr) : M (option Node) := fun w =>
  (Ok (net w (requests w) url),
   mkWorld (net w) (S (requests w)) (events w ++ [EvRequest url])).

Definition sleep (seconds : Q) : M unit := emit (EvSleep seconds).

Definition log (level : LogLevel) (format : string) : M unit :=
  emit (EvLog level format).

(** A [for] loop whose body has effects only. *)
Fixpoint for_each {A} (l : list A) (body : A -> M unit) : M unit :=
  match l with
  | [] => mret tt
  | x :: l' => body x ;; for_each l' body
  end.

(** ** The scraper, [scripts/scraper.py] *)

Section Scraper.
Context {R : PyRuntime}.

(** *** Config *)

Definition BASE_URL : pystr := lit "https://www.bildir.az".
Definition LIST_URL : pystr := BASE_URL ++ lit "/sirketler/".

Definition REQUEST_DELAY : Q := 1.
Definition MAX_RETRIES : nat := 3.

Definition CSV_FIELDS : list string :=
  [ "slug"; "name"; "category"; "founded"; "description"; "website";
    "facebook"; "instagram"; "linkedin"; "youtube"; "twitter";
    "overall_rating"; "total_reviews"; "response_rate_pct";
    "resolved_complaints_pct"; "customer_loyalty_pct";
    "star5_pct"; "star4_pct"; "star3_pct"; "star2_pct"; "star1_pct";
    "profile_url" ].

(** *** HTTP helper *)

(** The body of [for attempt in range(1, MAX_RETRIES + 1)] in [get], and
    what follows the loop once [attempts] is used up. *)
Fixpoint get_attempts (url : pystr) (attempts : list nat) : M (option Node) :=
  match attempts with
  | [] =>
      log ERROR "Giving up on %s" ;;
      mret None
  | attempt :: rest =>
      resp ← session_get url;
      match resp with
      | Some soup => mret (Some soup)
      | None =>
          log WARNING "Attempt %d/%d failed for %s: %s" ;;
          (if (attempt <? MAX_RETRIES)%nat
           then sleep (REQUEST_DELAY * inject_Z (Z.of_nat attempt))
           else mret tt) ;;
          get_attempts url rest
      end
  end.

(** [get], lines 79-91. *)
Definition get (url : pystr) : M (option Node) :=
  get_attempts url (seq 1 MAX_RETRIES).

(** *** Listing pages *)

(** Decimal value of a digit character. *)
Definition decimal_value (c : N) : option N :=
  if is_ascii_digit c then Some (c - 48)%N
  else if printable_ascii c then None
  else uni_decimal c.

(** Whether [s] has more digits than [int] converts: the interpreter has a
    limit and [s] is longer. *)
Definition exceeds_int_limit (s : pystr) : bool :=
  (0 <? int_max_str_digits)%nat && (int_max_str_digits <? length s)%nat.

(** [int(s)] for a non-empty [s] of digit characters; [None] is its
    [ValueError]: [s] has more digits than the interpreter converts, or a
    character of [s] is no decimal digit. *)
Definition int_of_digits (s : pystr) : option N :=
  if exceeds_int_limit s then None
  else
    foldl (fun acc c => n ← acc; d ← decimal_value c; Some (10 * n + d)%N)
          (Some 0%N) s.

(** The decimal digits of [n]. *)
Definition digits_of_N (n : N) : string :=
  DecimalString.NilZero.string_of_uint (N.to_uint n).

(** [str(n)] *)
Definition str_of_N (n : N) : pystr := lit (digits_of_N n).

(** [page=(\d+)] anchored at the head of [s]; the result is group 1. *)
Definition match_page_at (s : pystr) : option pystr :=
  if bool_decide (lit "page=" `prefix_of` s)
  then
    let rest := drop 5 s in
    match span is_digit rest with
    | O => None
    | S n => Some (take (S n) rest)
    end
  else None.

(** [get_total_pages], lines 97-112. *)
Definition get_total_pages (soup : Node) : Res N :=
  let pagination :=
    select soup "ul.pagination a, .pagination a, a[href*='page=']" in
  let step1 (acc : Res N) (tag : Node) : Res N :=
    match acc with
    | Raised e => Raised e
    | Ok max_page =>
        let href := attr_or_empty tag "href" in
        match re_search match_page_at href with
        | Some g =>
            match int_of_digits g with
            | Some n => Ok (N.max max_page n)
            | None => Raised ValueError
            end
        | None => Ok max_page
        end
    end in
  let step2 (acc : Res N) (tag : Node) : Res N :=
    match acc with
    | Raised e => Raised e
    | Ok max_page =>
        let txt := get_text_strip tag in
        if truthy txt && forallb isdigit_char txt
        then
          match int_of_digits txt with
          | Some n => Ok (N.max max_page n)
          | None => Raised ValueError
          end
        else Ok max_page
    end in
  foldl step2 (foldl step1 (Ok 1%N) pagination)
        (select soup "ul.pagination li, .pagination li").

(** A company stub: the dictionary literal of lines 155-161. *)
Record Stub := mkStub {
  stub_slug : pystr;
  stub_name : pystr;
  stub_category : pystr;
  stub_rating_listing : pystr;
  stub_review_count_listing : pystr
}.

(** [s.strip("/")] *)
Definition strip_slashes (s : pystr) : pystr :=
  let is_slash (c : N) := (c =? 47)%N in
  let s1 := drop (span is_slash s) s in
  reverse (drop (span is_slash (reverse s1)) (reverse s1)).

(** [s.split("/")[-1]] *)
Definition last_segment (s : pystr) : pystr :=
  let r := reverse s in
  reverse (take (span (fun c => negb (c =? 47)%N) r) r).

(** [re.match(r"^\d\.\d$", t)] *)
Definition is_rating_text (t : pystr) : bool :=
  match t with
  | [a; 46%N; b] => is_digit a && is_digit b
  | [a; 46%N; b; 10%N] => is_digit a && is_digit b
  | _ => false
  end.

(** The letters of [Rəy]. *)
Definition Rey : pystr := [82; 601; 121]%N.

(** The body of the loop of [parse_listing_page] for one anchor; [None] is
    its [continue]. *)
Definition parse_anchor (anchor : Node) : option Stub :=
  let href := attr_or_empty anchor "href" in
  let slug := if truthy href then last_segment (strip_slashes href) else [] in
  if negb (truthy slug) then None
  else
    let name :=
      match select_one anchor "h5" with
      | Some name_tag => get_text_strip name_tag
      | None => []
      end in
    let category :=
      default []
        (head (filter
                 (fun txt => truthy txt && negb (contains Rey txt)
                             && negb (contains (lit "www") txt) = true)
                 (get_text_strip <$> select anchor "p"))) in
    let rating :=
      match select_one anchor ".company-rating-number, .rating-number" with
      | Some rating_tag => replace_comma (get_text_strip rating_tag)
      | None =>
          default []
            (head (filter (fun t => is_rating_text t = true)
                     ((fun span => replace_comma (get_text_strip span))
                        <$> select anchor "span, div")))
      end in
    let full_text := get_text_sep anchor in
    let review_count :=
      default [] (re_search_i "Rəy\s*say[ıi]\s*:\s*(\d+)" full_text) in
    Some (mkStub slug name category rating review_count).

(** [parse_listing_page], lines 115-162. *)
Definition parse_listing_page (soup : Node) : list Stub :=
  omap parse_anchor (select soup "a.company-wrapper").

(** The page URL [f"{LIST_URL}?page={page}"]. *)
Definition page_url (page : N) : pystr :=
  LIST_URL ++ lit "?page=" ++ str_of_N page.

(** The body of [for page in range(2, total + 1)]: the stubs the page adds
    to [all_companies]. *)
Fixpoint collect_pages (pages : list nat) (all_companies : list Stub)
  : M (list Stub) :=
  match pages with
  | [] => mret all_companies
  | page :: rest =>
      log INFO "Listing page %d/%d …" ;;
      soup ← get (page_url (N.of_nat page));
      let all_companies :=
        match soup with
        | Some soup => all_companies ++ parse_listing_page soup
        | None => all_companies
        end in
      sleep REQUEST_DELAY ;;
      collect_pages rest all_companies
  end.

(** [collect_all_slugs], lines 165-188. *)
Definition collect_all_slugs : M (list Stub) :=
  log INFO "Fetching page 1 to detect total pages …" ;;
  soup ← get (page_url 1);
  match soup with
  | None =>
      log ERROR "Could not fetch listing page 1." ;;
      mret []
  | Some soup =>
      match get_total_pages soup with
      | Raised e => raise e
      | Ok total =>
          log INFO "Total pages detected: %d" ;;
          let all_companies := parse_listing_page soup in
          sleep REQUEST_DELAY ;;
          all_companies ← collect_pages (seq 2 (N.to_nat total - 1)) all_companies;
          log INFO "Collected %d company slugs." ;;
          mret all_companies
      end
  end.

(** *** Company detail page *)

(** [_text], lines 194-199. *)
Fixpoint _text (soup : Node) (selectors : list string) : pystr :=
  match selectors with
  | [] => []
  | sel :: rest =>
      match select_one soup sel with
      | Some tag => get_text_strip tag
      | None => _text soup rest
      end
  end.

(** [data[key]] on a record, every field of which is initialised. *)
Definition getitem (data : gmap string pystr) (key : string) : pystr :=
  data !!! key.

(** [{f: "" for f in CSV_FIELDS}] with the slug and the profile URL set:
    lines 217-219. *)
Definition initial_record (slug url : pystr) : gmap string pystr :=
  let data := list_to_map ((fun f => (f, [])) <$> CSV_FIELDS) in
  let data := <["slug" := slug]> data in
  <["profile_url" := url]> data.

(** The website fallback loop, lines 255-261: the [href] of the first
    outside link whose text names no social network. *)
Definition first_outside_link (soup : Node) : option pystr :=
  head
    (omap
       (fun a =>
          let href := attr_or_empty a "href" in
          if negb (contains BASE_URL href) && negb (contains (lit "bildir") href)
          then
            let txt := str_lower (get_text_strip a) in
            if negb (existsb (fun s => contains (lit s) txt)
                       ["facebook"; "instagram"; "linkedin"; "twitter"; "youtube"])
            then Some href
            else None
          else None)
       (select soup "a[href^='http']")).

(** Lines 224-230: name and category. *)
Definition extract_name (soup : Node) (data : gmap string pystr)
  : gmap string pystr :=
  let data := <["name" :=
    _text soup ["h1.company-name"; "h1"; ".company-title h1"; ".company-info h1"]]> data in
  <["category" :=
    _text soup [".company-category"; ".category-name"; ".company-type"]]> data.

(** Lines 232-245: founded and description. *)
Definition extract_founded (soup : Node) (data : gmap string pystr)
  : gmap string pystr :=
  let data :=
    match find_string_parent soup "Quruluş tarixi|Founded|Yaranma" with
    | Some parent =>
        match find_next_sibling parent with
        | Some sibling => <["founded" := get_text_strip sibling]> data
        | None => <["founded" := get_text_strip parent]> data
        end
    | None => data
    end in
  <["description" :=
    _text soup [".company-description p"; ".about-company p";
                ".company-about"; "#about p"; ".description"]]> data.

(** Lines 247-261: website. *)
Definition extract_website (soup : Node) (data : gmap string pystr)
  : gmap string pystr :=
  let data :=
    match select_one soup "a.website-url-btn, [data-href], .company-website a" with
    | Some website_tag =>
        <["website" :=
          match attr website_tag "data-href" with
          | Some (c :: v) => c :: v
          | _ => attr_or_empty website_tag "href"
          end]> data
    | None => data
    end in
  if negb (truthy (getitem data "website"))
  then
    match first_outside_link soup with
    | Some href => <["website" := href]> data
    | None => data
    end
  else data.

(** The body of the loop over [social_map], lines 272-274. *)
Definition social_step (soup : Node) (data : gmap string pystr)
    (platform : string) : gmap string pystr :=
  match select_one soup ("a[href*='" +:+ platform +:+ "']") with
  | Some tag => <[platform := attr_or_empty tag "href"]> data
  | None => data
  end.

(** Lines 263-274: social media. *)
Definition extract_social (soup : Node) (data : gmap string pystr)
  : gmap string pystr :=
  foldl (social_step soup) data
        ["facebook"; "instagram"; "linkedin"; "youtube"; "twitter"].

(** Lines 276-293: overall rating and total reviews. *)
Definition extract_rating (soup : Node) (data : gmap string pystr)
  : gmap string pystr :=
  let data :=
    match select_one soup
            (".overall-rating .rating-number, .company-rating span.number, "
             +:+ ".rating-score, .stars-number, .company-score") with
    | Some rating_tag =>
        <["overall_rating" := replace_comma (get_text_strip rating_tag)]> data
    | None => data
    end in
  match select_one soup ".total-reviews, .reviews-count, .review-count strong" with
  | Some reviews_tag =>
      <["total_reviews" :=
        filter (fun c => is_digit c = true) (get_text reviews_tag)]> data
  | None =>
      match re_search_i "(\d+)\s*rəy" (get_text soup) with
      | Some g => <["total_reviews" := g]> data
      | None => data
      end
  end.

(** The body of the loop over [patterns], lines 304-306. *)
Definition stat_step (full_text : pystr) (data : gmap string pystr)
    (entry : string * string) : gmap string pystr :=
  let '(key, pat) := entry in
  match re_search_i pat full_text with
  | Some g => <[key := replace_comma g]> data
  | None => data
  end.

(** Lines 295-306: response rate, resolved complaints, loyalty. *)
Definition extract_stats (soup : Node) (data : gmap string pystr)
  : gmap string pystr :=
  let full_text := get_text_sep soup in
  foldl (stat_step full_text) data
    [ ("response_rate_pct", "Cavab\s+nisbəti[^\d]*([\d,\.]+)\s*%");
      ("resolved_complaints_pct", "Həll\s+edilmiş[^\d]*([\d,\.]+)\s*%");
      ("customer_loyalty_pct", "Müştəri\s+loyallığı[^\d\-]*([\-\d,\.]+)\s*%") ].

(** Lines 224-306, in the order of the source. *)
Definition extract_fields (soup : Node) (data : gmap string pystr)
  : gmap string pystr :=
  extract_stats soup
    (extract_rating soup
       (extract_social soup
          (extract_website soup
             (extract_founded soup
                (extract_name soup data))))).

(** The keys lines 224-306 may store a value under. *)
Definition extract_keys : list string :=
  [ "name"; "category"; "founded"; "description"; "website";
    "facebook"; "instagram"; "linkedin"; "youtube"; "twitter";
    "overall_rating"; "total_reviews"; "response_rate_pct";
    "resolved_complaints_pct"; "customer_loyalty_pct" ].

(** The selector of the star rows, line 311. *)
Definition star_row_selector : string :=
  ".star-row, .rating-row, .review-bar, li.star-item".

(** [star_keys], line 310, in its insertion order. *)
Definition star_keys : list (N * string) :=
  [ (5, "star5_pct"); (4, "star4_pct"); (3, "star3_pct");
    (2, "star2_pct"); (1, "star1_pct") ]%N.

(** The body of the loop over the star rows, lines 312-318. *)
Definition star_row_step (data : gmap string pystr) (row : Node)
  : gmap string pystr :=
  let txt := get_text_sep row in
  match List.find (fun '(star_n, _) => contains (str_of_N star_n) txt) star_keys with
  | Some (_, col) =>
      let pct := _pct txt in
      if truthy pct && negb (truthy (getitem data col))
      then <[col := pct]> data
      else data
  | None => data
  end.

(** Lines 311-318. *)
Definition extract_star_rows (soup : Node) (data : gmap string pystr)
  : gmap string pystr :=
  foldl star_row_step data (select soup star_row_selector).

(** The body of the fallback loop, lines 322-328. *)
Definition star_fallback_step (full_text : pystr) (data : gmap string pystr)
    (key : N * string) : gmap string pystr :=
  let '(star_n, col) := key in
  if negb (truthy (getitem data col))
  then
    match re_search_i
            (digits_of_N star_n +:+ "\s*(?:ulduz|star)[^\d]*?([\d,\.]+)\s*%")
            full_text with
    | Some g => <[col := replace_comma g]> data
    | None => data
    end
  else data.

(** Lines 321-328. *)
Definition extract_star_fallback (soup : Node) (data : gmap string pystr)
  : gmap string pystr :=
  foldl (star_fallback_step (get_text_sep soup)) data star_keys.

(** The URL [f"{BASE_URL}/{slug}/"]. *)
Definition profile_url (slug : pystr) : pystr :=
  BASE_URL ++ lit "/" ++ slug ++ lit "/".

(** [parse_company_page], lines 213-330. *)
Definition parse_company_page (slug : pystr) : M (gmap string pystr) :=
  let url := profile_url slug in
  soup ← get url;
  let data := initial_record slug url in
  match soup with
  | None => mret data
  | Some soup =>
      mret (extract_star_fallback soup
              (extract_star_rows soup (extract_fields soup data)))
  end.

(** *** Main *)

(** The body of the deduplication loop, lines 348-351, on the pair of
    [seen] and [unique_stubs]. *)
Definition dedup_step (st : gset pystr * list Stub) (s : Stub)
  : gset pystr * list Stub :=
  let '(seen, unique_stubs) := st in
  if decide (stub_slug s ∈ seen) then (seen, unique_stubs)
  else ({[stub_slug s]} ∪ seen, unique_stubs ++ [s]).

(** Lines 346-351. *)
Definition dedup (stubs : list Stub) : list Stub :=
  (foldl dedup_step (∅, []) stubs).2.

(** Where the first stub with a given slug stands in the input, and which
    stub it is. *)
Definition first_seen (stubs : list Stub) (slug : pystr) : option (nat * Stub) :=
  list_find (fun t => stub_slug t = slug) stubs.

(** The backfill, lines 365-373. *)
Definition backfill (detail : gmap string pystr) (stub : Stub)
  : gmap string pystr :=
  let detail :=
    if negb (truthy (getitem detail "name"))
    then <["name" := stub_name stub]> detail else detail in
  let detail :=
    if negb (truthy (getitem detail "category"))
    then <["category" := stub_category stub]> detail else detail in
  let detail :=
    if negb (truthy (getitem detail "overall_rating"))
    then <["overall_rating" := stub_rating_listing stub]> detail else detail in
  if negb (truthy (getitem detail "total_reviews"))
  then <["total_reviews" := stub_review_count_listing stub]> detail else detail.

(** The body of the loop over [unique_stubs], lines 359-378. *)
Definition scrape_one (stub : Stub) : M unit :=
  let slug := stub_slug stub in
  log INFO "[%d/%d] Scraping %s …" ;;
  detail ← parse_company_page slug;
  let detail := backfill detail stub in
  emit (EvRow detail) ;;
  emit EvFlush ;;
  sleep REQUEST_DELAY.

(** [main], lines 336-380. *)
Definition main : M unit :=
  emit EvMakedirs ;;
  stubs ← collect_all_slugs;
  if bool_decide (stubs = [])
  then log ERROR "No companies found – aborting."
  else
    let unique_stubs := dedup stubs in
    log INFO "Unique companies after dedup: %d" ;;
    emit EvOpen ;;
    emit (EvHeader CSV_FIELDS) ;;
    for_each unique_stubs scrape_one ;;
    log INFO "Done! CSV saved to: %s".

(** The rows the run has written to the output table. *)
Definition rows_written (w : World) : list (gmap string pystr) :=
  omap (fun e => match e with EvRow r => Some r | _ => None end) (events w).

(** *** Vocabulary of the statements about runs *)

(** The world at the start of a run against a site. *)
Definition start (site : nat -> pystr -> option Node) : World :=
  mkWorld site 0 [].

(** The events of a run without its log lines. *)
Definition is_log (e : Event) : bool :=
  match e with
  | EvLog _ _ => true
  | _ => false
  end.

Definition io_events (evs : list Event) : list Event :=
  filter (fun e => is_log e = false) evs.

(** [k] requests for [url], with a sleep of the attempt number times
    [REQUEST_DELAY] between one attempt and the next. *)
Definition retry_trace (url : pystr) (k : nat) : list Event :=
  match k with
  | O => []
  | S k' =>
      EvRequest url
      :: flat_map
           (fun attempt =>
              [EvSleep (REQUEST_DELAY * inject_Z (Z.of_nat attempt));
               EvRequest url])
           (seq 1 k')
  end.

(** A record in which only the slug and the profile URL are filled in: it
    has the fields of [CSV_FIELDS] and no other, and each of them is empty
    but for these two. *)
Definition degraded_record (slug : pystr) (d : gmap string pystr) : Prop :=
  d !! "slug" = Some slug
  /\ d !! "profile_url" = Some (BASE_URL ++ lit "/" ++ slug ++ lit "/")
  /\ BASE_URL ++ lit "/" ++ slug ++ lit "/" <> []
  /\ (forall k, k ∈ CSV_FIELDS -> k <> "slug" -> k <> "profile_url" ->
               d !! k = Some [])
  /\ (forall k, k ∉ CSV_FIELDS -> d !! k = None).

(** Step 1 of [main]: what [collect_all_slugs] returns in a run of [main]
    from [w], and the world it leaves. *)
Definition listing_outcome (w : World) : Res (list Stub) * World :=
  collect_all_slugs (emit EvMakedirs w).2.

(** The next [MAX_RETRIES] requests for [url] all fail. *)
Definition fetch_fails (w : World) (url : pystr) : Prop :=
  forall j, (j < MAX_RETRIES)%nat -> net w (requests w + j)%nat url = None.

End Scraper.

(** ** The chart aggregations, [scripts/generate_charts.py] *)

(** Monadic bind of [Res], for the functions that may raise and have no
    other effect. *)
#[global] Instance Res_ret : MRet Res := fun A a => Ok a.

#[global] Instance Res_bind : MBind Res := fun A B f r =>
  match r with
  | Ok a => f a
  | Raised e => Raised e
  end.

(** Truth value of a float: zero is false, a NaN is true. *)
Definition float_truthy (x : pyfloat) : bool :=
  match x with
  | Finite q => negb (Qeq_bool q 0)
  | _ => true
  end.

(** [x >= n] for an [int] literal [n]. *)
Definition float_ge_int (x : pyfloat) (n : Z) : bool :=
  match x with
  | Finite q => Qle_bool (inject_Z n) q
  | PosInf => true
  | NegInf | NaN => false
  end.

(** [x <= y] *)
Definition float_le (x y : pyfloat) : bool :=
  match x, y with
  | NaN, _ | _, NaN => false
  | NegInf, _ | _, PosInf => true
  | Finite a, Finite b => Qle_bool a b
  | _, _ => false
  end.

(** [int(x)]: truncation towards zero; it raises on an infinity and on a
    NaN. *)
Definition int_of_float (x : pyfloat) : Res Z :=
  match x with
  | Finite q => Ok (Z.quot (Qnum q) (Z.pos (Qden q)))
  | PosInf | NegInf => Raised OverflowError
  | NaN => Raised ValueError
  end.

(** [sorted(l, key=..., reverse=...)] as a stable insertion sort:
    [before x y] says that [x], which stood before [y], stays before it.
    For a total preorder on the keys this is the list the built-in sort
    returns. *)
Fixpoint insert_sorted {A} (before : A -> A -> bool) (x : A) (l : list A)
  : list A :=
  match l with
  | [] => [x]
  | y :: l' =>
      if before x y then x :: y :: l' else y :: insert_sorted before x l'
  end.

Definition sorted {A} (before : A -> A -> bool) (l : list A) : list A :=
  foldr (insert_sorted before) [] l.

(** [d[k] = f(d[k])] on a [defaultdict] with default [dflt], as an
    association list in the insertion order of its keys. *)
Fixpoint dd_update {V} (dflt : V) (f : V -> V) (k : pystr)
    (d : list (pystr * V)) : list (pystr * V) :=
  match d with
  | [] => [(k, f dflt)]
  | (k', v) :: d' =>
      if decide (k' = k) then (k', f v) :: d'
      else (k', v) :: dd_update dflt f k d'
  end.

(** [d.get(k)] on such a dictionary. *)
Fixpoint dd_lookup {V} (k : pystr) (d : list (pystr * V)) : option V :=
  match d with
  | [] => None
  | (k', v) :: d' => if decide (k' = k) then Some v else dd_lookup k d'
  end.

Section Charts.
Context {R : PyRuntime}.

(** A row of [csv.DictReader] over the output table, for the columns the
    aggregations read.  A value is [None] where the line of the file is
    shorter than the header. *)
Record Row := mkRow {
  r_name : option pystr;
  r_category : option pystr;
  r_overall_rating : option pystr;
  r_total_reviews : option pystr;
  r_response_rate_pct : option pystr;
  r_resolved_complaints_pct : option pystr;
  r_customer_loyalty_pct : option pystr
}.

(** [s.strip()] *)
Definition strip (s : pystr) : pystr :=
  let s1 := drop (span is_space s) s in
  reverse (drop (span is_space (reverse s1)) (reverse s1)).

(** [flt], lines 60-64. *)
Definition flt (v : option pystr) : option pyfloat :=
  match v with
  | Some v => if truthy v && truthy (strip v) then py_float v else None
  | None => None
  end.

(** The substitute category [Digər]. *)
Definition Diger : pystr := [68; 105; 103; 601; 114]%N.

(** [r["category"] or "Digər"] *)
Definition category_key (r : Row) : pystr :=
  match r_category r with
  | Some (c :: s) => c :: s
  | _ => Diger
  end.

(** An element of the lists of [cats] in [build_cat_stats]. *)
Record Item := mkItem {
  rating : option pyfloat;
  reviews : pyfloat;
  loyalty : option pyfloat;
  response : option pyfloat;
  resolved : option pyfloat
}.

(** An element of [summary]. *)
Record Entry := mkEntry {
  e_category : pystr;
  e_count : nat;
  e_avg_rating : pyfloat;
  e_total_reviews : Z;
  e_avg_loyalty : pyfloat;
  e_avg_response : pyfloat;
  e_avg_resolved : pyfloat
}.

(** [x or 0] *)
Definition float_or_zero (x : option pyfloat) : pyfloat :=
  match x with
  | Some v => if float_truthy v then v else Finite 0
  | None => Finite 0
  end.

(** The item a row adds, lines 71-82. *)
Definition item_of_row (r : Row) : Item :=
  {| rating := flt (r_overall_rating r);
     reviews := float_or_zero (flt (r_total_reviews r));
     loyalty := flt (r_customer_loyalty_pct r);
     response := flt (r_response_rate_pct r);
     resolved := flt (r_resolved_complaints_pct r) |}.

(** The first loop of [build_cat_stats], lines 68-82. *)
Definition group_rows (rows : list Row) : list (pystr * list Item) :=
  foldl
    (fun cats r =>
       dd_update [] (fun items => items ++ [item_of_row r]) (category_key r) cats)
    [] rows.

(** [statistics.mean], which raises on an empty sequence. *)
Definition mean (l : list pyfloat) : Res pyfloat :=
  match l with
  | [] => Raised StatisticsError
  | _ :: _ => Ok (py_mean l)
  end.

(** [round(statistics.mean(...), 1) if any(...) else 0], lines 96-101. *)
Definition avg_or_zero (field : Item -> option pyfloat) (items : list Item)
  : Res pyfloat :=
  if existsb (fun i => bool_decide (is_Some (field i))) items
  then m ← mean (omap field items); mret (py_round m 1)
  else mret (Finite 0).

(** The body of the second loop, lines 86-102; [None] is its [continue]. *)
Definition summarise (min_companies : nat) (c : pystr) (items : list Item)
  : Res (option Entry) :=
  if (length items <? min_companies)%nat then mret None
  else
    let with_rating := filter (fun i => is_Some (rating i)) items in
    if bool_decide (with_rating = []) then mret None
    else
      m ← mean (omap rating with_rating);
      total ← int_of_float (py_sum (reviews <$> items));
      avg_loyalty ← avg_or_zero loyalty items;
      avg_response ← avg_or_zero response items;
      avg_resolved ← avg_or_zero resolved items;
      mret (Some {| e_category := c;
                    e_count := length items;
                    e_avg_rating := py_round m 2;
                    e_total_reviews := total;
                    e_avg_loyalty := avg_loyalty;
                    e_avg_response := avg_response;
                    e_avg_resolved := avg_resolved |}).

(** The second loop, lines 84-103. *)
Fixpoint summarise_all (min_companies : nat) (cats : list (pystr * list Item))
  : Res (list Entry) :=
  match cats with
  | [] => mret []
  | (c, items) :: rest =>
      e ← summarise min_companies c items;
      summary ← summarise_all min_companies rest;
      mret (match e with
            | Some e => e :: summary
            | None => summary
            end)
  end.

(** The rows of a table that fall in category [c]. *)
Definition rows_in (c : pystr) (rows : list Row) : list Row :=
  filter (fun r => category_key r = c) rows.

(** The rows of category [c] whose [overall_rating] parses. *)
Definition rated_rows_in (c : pystr) (rows : list Row) : list Row :=
  filter (fun r => is_Some (flt (r_overall_rating r))) (rows_in c rows).

(** [build_cat_stats], lines 67-103. *)
Definition build_cat_stats (rows : list Row) (min_companies : nat)
  : Res (list Entry) :=
  summarise_all min_companies (group_rows rows).

(** The counts of [chart_01_market_landscape], lines 117-119. *)
Definition chart_01_counts (rows : list Row) : list (pystr * nat) :=
  foldl (fun cats r => dd_update 0%nat S (category_key r) cats) [] rows.

(** The bars of [chart_01_market_landscape], line 120. *)
Definition chart_01_data (rows : list Row) : list (pystr * nat) :=
  take 15 (sorted (fun x y => (y.2 <=? x.2)%nat) (chart_01_counts rows)).

(** The triple a row contributes to [rated] in [chart_07_most_reviewed]. *)
Definition rated_entry (r : Row) : option pystr * pyfloat * option pyfloat :=
  (r_name r, float_or_zero (flt (r_total_reviews r)), flt (r_overall_rating r)).

(** The condition of the comprehension, line 291. *)
Definition most_reviewed_ok (r : Row) : bool :=
  match flt (r_total_reviews r) with
  | Some v => float_truthy v && float_ge_int v 10
  | None => false
  end.

(** [rated], lines 289-292. *)
Definition chart_07_rated (rows : list Row)
  : list (option pystr * pyfloat * option pyfloat) :=
  rated_entry <$> filter (fun r => most_reviewed_ok r = true) rows.

(** [top], line 293. *)
Definition chart_07_top (rows : list Row)
  : list (option pystr * pyfloat * option pyfloat) :=
  take 15 (sorted (fun x y => float_le y.1.2 x.1.2) (chart_07_rated rows)).

End Charts.

(** ** More of the chart generator *)

Section ChartsMore.
Context {R : PyRuntime}.

(** The bars of [chart_03_review_volume], line 172. *)
Definition chart_03_data (summary : list Entry) : list Entry :=
  take 12
    (sorted (fun x y => (e_total_reviews y <=? e_total_reviews x)%Z) summary).

(** The bars of [chart_04_response_vs_resolution], line 194: the key is
    the negated review total. *)
Definition chart_04_data (summary : list Entry) : list Entry :=
  take 12
    (sorted (fun x y => (- e_total_reviews x <=? - e_total_reviews y)%Z) summary).

(** The keys of [buckets] in [chart_06_rating_distribution], line 251, in
    their insertion order. *)
Definition bucket_labels : list string :=
  [ "No Rating"; "0–1"; "1–2"; "2–3"; "3–4"; "4–5" ].

(** The bucket a row is counted in, lines 253-265. *)
Definition bucket_of (r : Row) : string :=
  match flt (r_overall_rating r) with
  | None => "No Rating"
  | Some v =>
      if float_le v (Finite 1) then "0–1"
      else if float_le v (Finite 2) then "1–2"
      else if float_le v (Finite 3) then "2–3"
      else if float_le v (Finite 4) then "3–4"
      else "4–5"
  end.

(** [buckets] after the loop, lines 251-265. *)
Definition chart_06_buckets (rows : list Row) : gmap string nat :=
  foldl (fun buckets r =>
           <[bucket_of r := S (buckets !!! bucket_of r)]> buckets)
        (list_to_map ((fun k => (k, 0%nat)) <$> bucket_labels)) rows.

(** [values], line 268. *)
Definition chart_06_values (rows : list Row) : list nat :=
  (fun k => chart_06_buckets rows !!! k) <$> bucket_labels.

(** The condition of the comprehension of [chart_08_best_vs_worst],
    line 330. *)
Definition best_worst_ok (r : Row) : bool :=
  match flt (r_overall_rating r) with
  | Some rt =>
      float_truthy rt
      && match flt (r_total_reviews r) with
         | Some v => float_truthy v && float_ge_int v 10
         | None => false
         end
  | None => false
  end.

(** [rated] of [chart_08_best_vs_worst], lines 327-331. *)
Definition chart_08_rated (rows : list Row)
  : list (option pystr * option pyfloat * option pyfloat) :=
  (fun r => (r_name r, flt (r_overall_rating r), flt (r_total_reviews r)))
    <$> filter (fun r => best_worst_ok r = true) rows.

(** A row of the table, for the columns [chart_09_social_presence] reads. *)
Record SocialRow := mkSocialRow {
  s_category : option pystr;
  s_facebook : option pystr;
  s_instagram : option pystr;
  s_linkedin : option pystr
}.

(** [r["category"] or "Digər"], line 375. *)
Definition social_key (r : SocialRow) : pystr :=
  match s_category r with
  | Some (c :: s) => c :: s
  | _ => Diger
  end.

(** [r[k] and "bildir" not in r[k]], lines 377-381. *)
Definition has_profile (v : option pystr) : bool :=
  match v with
  | Some (c :: s) => negb (contains (lit "bildir") (c :: s))
  | _ => false
  end.

(** The four counters of [chart_09_social_presence]. *)
Record SocialCounts := mkSocialCounts {
  cats_all : list (pystr * nat);
  cats_facebook : list (pystr * nat);
  cats_instagram : list (pystr * nat);
  cats_linkedin : list (pystr * nat)
}.

(** The body of the loop, lines 375-382. *)
Definition social_count_step (n : SocialCounts) (r : SocialRow) : SocialCounts :=
  let c := social_key r in
  let bump (on : bool) (d : list (pystr * nat)) :=
    if on then dd_update 0%nat S c d else d in
  {| cats_all := dd_update 0%nat S c (cats_all n);
     cats_facebook := bump (has_profile (s_facebook r)) (cats_facebook n);
     cats_instagram := bump (has_profile (s_instagram r)) (cats_instagram n);
     cats_linkedin := bump (has_profile (s_linkedin r)) (cats_linkedin n) |}.

(** Lines 369-382. *)
Definition social_counts (rows : list SocialRow) : SocialCounts :=
  foldl social_count_step (mkSocialCounts [] [] [] []) rows.

(** [top_cats], line 385. *)
Definition chart_09_top_cats (rows : list SocialRow) : list pystr :=
  (take 12
     (sorted (fun x y => (- Z.of_nat x.2 <=? - Z.of_nat y.2)%Z)
        (cats_all (social_counts rows)))).*1.

(** [100 * a / b]: the exact quotient, which the float result rounds;
    [None] is the [ZeroDivisionError]. *)
Definition percent (a b : nat) : option Q :=
  match b with
  | O => None
  | S _ => Some (inject_Z (100 * Z.of_nat a) / inject_Z (Z.of_nat b))%Q
  end.

(** One of the lists [fb_pct], [ig_pct], [li_pct], lines 387-389; reading
    a missing key of a [defaultdict] gives 0. *)
Definition chart_09_pct (counts : list (pystr * nat)) (rows : list SocialRow)
  : list (option Q) :=
  (fun c =>
     percent (default 0%nat (dd_lookup c counts))
             (default 0%nat (dd_lookup c (cats_all (social_counts rows)))))
    <$> chart_09_top_cats rows.

(** The percentages of the bar labels of [chart_06_rating_distribution],
    lines 272-275: [100*val/total] for each value, with
    [total = sum(values)]. *)
Definition chart_06_percents (rows : list Row) : list (option Q) :=
  let values := chart_06_values rows in
  (fun val => percent val (sum_list values)) <$> values.

(** The share, in percent, of the rows of category [c] whose column
    [field] holds a profile. *)
Definition profile_share (field : SocialRow -> option pystr) (c : pystr)
    (rows : list SocialRow) : Q :=
  (inject_Z
     (100 * Z.of_nat
        (length (filter (fun r => social_key r = c
                                  /\ has_profile (field r) = true) rows)))
   / inject_Z
       (Z.of_nat (length (filter (fun r => social_key r = c) rows))))%Q.

End ChartsMore.

(** ** Vocabulary of the statements about pacing *)

(** Reading the events of a run from the start: [Some ready] when no
    request so far came without a sleep of at least [REQUEST_DELAY] since
    the request before it, [ready] telling whether such a sleep has
    happened since the last request; [None] once two requests came
    without one. *)
Definition pace_step (st : option bool) (e : Event) : option bool :=
  match st with
  | None => None
  | Some ready =>
      match e with
      | EvRequest _ => if ready then Some false else None
      | EvSleep q => Some (ready || Qle_bool REQUEST_DELAY q)
      | _ => Some ready
      end
  end.

Definition pace (evs : list Event) : option bool :=
  foldl pace_step (Some true) evs.

(** A site that answers every request, with a page that depends on the
    URL only. *)
Definition always_answers (w : World) (pages : pystr -> Node) : Prop :=
  forall k url, net w k url = Some (pages url).

(** ** Vocabulary of the statements about the output table *)

(** The fields of a record that hold a decimal number. *)
Definition decimal_fields : list string :=
  [ "overall_rating"; "response_rate_pct"; "resolved_complaints_pct";
    "customer_loyalty_pct";
    "star5_pct"; "star4_pct"; "star3_pct"; "star2_pct"; "star1_pct" ].

(** No decimal field of the record holds a comma. *)
Definition comma_free (d : gmap string pystr) : Prop :=
  forall k, k ∈ decimal_fields -> 44%N ∉ getitem d k.

(** ** Vocabulary of the statements about pagination *)

Section PaginationVocabulary.
Context {R : PyRuntime}.

(** What a pagination link adds in the first loop of [get_total_pages]: a
    page number, nothing, or the [ValueError] of [int]. *)
Definition link_page (tag : Node) : Res (option N) :=
  match re_search match_page_at (attr_or_empty tag "href") with
  | Some g =>
      match int_of_digits g with
      | Some n => Ok (Some n)
      | None => Raised ValueError
      end
  | None => Ok None
  end.

(** What a pagination item adds in the second loop. *)
Definition item_page (tag : Node) : Res (option N) :=
  let txt := get_text_strip tag in
  if truthy txt && forallb isdigit_char txt
  then
    match int_of_digits txt with
    | Some n => Ok (Some n)
    | None => Raised ValueError
    end
  else Ok None.

(** One iteration of either loop of [get_total_pages], given what the tag
    adds. *)
Definition max_page_step (page : Node -> Res (option N)) (acc : Res N)
    (tag : Node) : Res N :=
  match acc with
  | Raised e => Raised e
  | Ok max_page =>
      match page tag with
      | Ok (Some n) => Ok (N.max max_page n)
      | Ok None => Ok max_page
      | Raised e => Raised e
      end
  end.

(** The tags the two loops run over. *)
Definition pagination_links (soup : Node) : list Node :=
  select soup "ul.pagination a, .pagination a, a[href*='page=']".

Definition pagination_items (soup : Node) : list Node :=
  select soup "ul.pagination li, .pagination li".

End PaginationVocabulary.

(** ** Sample inputs

    Concrete runtimes, documents and tables on which the statements below
    are run. *)

(** A runtime whose case-insensitive search always finds ["99,9"]: with it
    the full-text fallback of the star fields always has a value to offer. *)
Definition eager_runtime : PyRuntime :=
  {| uni_decimal := fun _ => None;
     uni_isdigit_only := fun _ => false;
     uni_space := fun _ => false;
     re_search_i := fun _ _ => Some (lit "99,9");
     str_lower := fun s => s;
     py_float := sample_float;
     py_mean := sample_mean;
     py_round := fun x _ => x;
     py_sum := sample_sum;
     int_max_str_digits := 4300 |}.

(** A listing page with one company, [/acme/], and no pagination. *)
Definition sample_anchor : Node :=
  mkNode [] (lit "Acme") []
         (fun name => if String.eqb name "href" then Some (lit "/acme/") else None)
         (fun css =>
            if String.eqb css "h5"
            then [mkNode (lit "Acme") (lit "Acme") (lit "Acme") (fun _ => None)
                         (fun _ => []) (fun _ => None) None]
            else [])
         (fun _ => None) None.

Definition sample_listing_page : Node :=
  mkNode [] [] [] (fun _ => None)
         (fun css => if String.eqb css "a.company-wrapper" then [sample_anchor] else [])
         (fun _ => None) None.

(** A detail page with one star row, [5 ulduz 54,5%]. *)
Definition sample_star_row : Node :=
  mkNode [] (lit "5 ulduz 54,5%") [] (fun _ => None) (fun _ => [])
         (fun _ => None) None.

Definition sample_star_page : Node :=
  mkNode [] (lit "5 ulduz 54,5% 4 ulduz 22,7%") [] (fun _ => None)
         (fun css =>
            if String.eqb css star_row_selector then [sample_star_row] else [])
         (fun _ => None) None.

(** A row of the table with a name, a category, a rating and a review
    count, the other columns empty. *)
Definition sample_row (category rating reviews : pystr) : Row :=
  mkRow (Some (lit "Co")) (Some category) (Some rating) (Some reviews)
        (Some []) (Some []) (Some []).

(** Five companies of category [A], none of them rated. *)
Definition unrated_table : list Row :=
  replicate 5 (sample_row (lit "A") [] []).

(** Five companies of category [A], one of them rated. *)
Definition one_rated_table : list Row :=
  sample_row (lit "A") (lit "4") [] :: replicate 4 (sample_row (lit "A") [] []).

(** Six companies of category [A], three of category [B]. *)
Definition sample_table : list Row :=
  replicate 3 (sample_row (lit "A") (lit "4") (lit "10"))
  ++ replicate 3 (sample_row (lit "B") (lit "3") (lit "9"))
  ++ replicate 3 (sample_row (lit "A") (lit "5") (lit "120")).

(** Five rated companies without a category. *)
Definition uncategorised_table : list Row :=
  replicate 5 (sample_row [] (lit "4.5") (lit "10")).

(** A runtime in which the superscript two, U+00B2, passes [str.isdigit]
    and is no decimal digit. *)
Definition superscript_runtime : PyRuntime :=
  {| uni_decimal := fun _ => None;
     uni_isdigit_only := fun c => (c =? 178)%N;
     uni_space := fun _ => false;
     re_search_i := fun _ _ => None;
     str_lower := fun s => s;
     py_float := sample_float;
     py_mean := sample_mean;
     py_round := fun x _ => x;
     py_sum := sample_sum;
     int_max_str_digits := 4300 |}.

(** A tag with a text and an [href]. *)
Definition sample_tag (text href : pystr) : Node :=
  mkNode text text text
         (fun name => if String.eqb name "href" then Some href else None)
         (fun _ => []) (fun _ => None) None.

(** A listing page whose pagination links to pages 2 and 106 and shows the
    items [3] and [Next]. *)
Definition sample_paged_listing : Node :=
  mkNode [] [] [] (fun _ => None)
         (fun css =>
            if String.eqb css "ul.pagination a, .pagination a, a[href*='page=']"
            then [sample_tag (lit "2") (lit "/sirketler/?page=2");
                  sample_tag (lit "Son") (lit "/sirketler/?page=106")]
            else if String.eqb css "ul.pagination li, .pagination li"
            then [sample_tag (lit "3") []; sample_tag (lit "Next") []]
            else [])
         (fun _ => None) None.

(** The pages of a site of three listing pages: each page links to page 3
    and shows one company, whose slug is [p] followed by the digits of the
    URL of the page. *)
Definition sample_site_page (url : pystr) : Node :=
  mkNode [] [] [] (fun _ => None)
         (fun css =>
            if String.eqb css "ul.pagination a, .pagination a, a[href*='page=']"
            then [sample_tag (lit "Son") (lit "/sirketler/?page=3")]
            else if String.eqb css "a.company-wrapper"
            then [sample_tag (lit "Co")
                    (lit "/p" ++ filter (fun c => is_ascii_digit c = true) url
                     ++ lit "/")]
            else [])
         (fun _ => None) None.

(** A listing page whose pagination links to a page number of [n] digits. *)
Definition sample_long_link_listing (n : nat) : Node :=
  mkNode [] [] [] (fun _ => None)
         (fun css =>
            if String.eqb css "ul.pagination a, .pagination a, a[href*='page=']"
            then [sample_tag (lit "Son")
                    (lit "/sirketler/?page=" ++ replicate n 49%N)]
            else [])
         (fun _ => None) None.

(** A listing page whose pagination shows the item [²]. *)
Definition sample_superscript_listing : Node :=
  mkNode [] [] [] (fun _ => None)
         (fun css =>
            if String.eqb css "ul.pagination li, .pagination li"
            then [sample_tag [178%N] []]
            else [])
         (fun _ => None) None.

(** * Properties *)

(** ** Text and [_pct] *)

Section TextProps.
Context {R : PyRuntime}.

Lemma span_take_Forall p s k :
  (k <= span p s)%nat -> Forall (fun c => p c = true) (take k s).
Proof.
  revert k. induction s as [|c s IH]; intros k Hk; simpl in *.
  - rewrite take_nil. constructor.
  - destruct k as [|k]; [constructor|].
    destruct (p c) eqn:Hc; [|lia].
    simpl. constructor; [done|]. apply IH. lia.
Qed.

Lemma span_app_stop p l1 l2 :
  Forall (fun c => p c = true) l1 ->
  span p l2 = 0%nat ->
  span p (l1 ++ l2) = length l1.
Proof.
  intros H1 H2. induction H1 as [|c l1 Hc _ IH]; simpl; [done|].
  by rewrite Hc, IH.
Qed.

Lemma try_down_Some {A} (f : nat -> option A) lo d a :
  try_down f lo d = Some a ->
  exists k, (lo <= k <= lo + d)%nat /\ f k = Some a.
Proof.
  induction d as [|d IH]; simpl.
  - destruct (f (lo + 0)%nat) eqn:E; [|done].
    intros [= ->]. exists (lo + 0)%nat. split; [lia|done].
  - destruct (f (lo + S d)%nat) eqn:E.
    + intros [= ->]. exists (lo + S d)%nat. split; [lia|done].
    + intros H. destruct (IH H) as (k & Hk & Hf). exists k. split; [lia|done].
Qed.

Lemma try_down_first {A} (f : nat -> option A) lo d a :
  f (lo + d)%nat = Some a -> try_down f lo d = Some a.
Proof. intros H. destruct d; simpl; by rewrite H. Qed.

Lemma re_search_Some {A} (m : pystr -> option A) s g :
  re_search m s = Some g -> exists s', s' `suffix_of` s /\ m s' = Some g.
Proof.
  induction s as [|c s IH]; simpl.
  - destruct (m []) eqn:E; [|done]. intros [= ->]. by exists [].
  - destruct (m (c :: s)) eqn:E.
    + intros [= ->]. by exists (c :: s).
    + intros H. destruct (IH H) as (s' & Hs & Hm).
      exists s'. split; [by apply suffix_cons_r|done].
Qed.

Lemma match_num_at_Some s g :
  match_num_at s = Some g ->
  g <> [] /\ Forall (fun c => is_num_char c = true) g.
Proof.
  unfold match_num_at. destruct (span is_num_char s) as [|n] eqn:E; [done|].
  intros [= <-]. split.
  - destruct s; [done|]. done.
  - apply span_take_Forall. lia.
Qed.

Lemma match_pct_at_Some s g :
  match_pct_at s = Some g ->
  g <> [] /\ Forall (fun c => is_num_char c = true) g /\ (37%N ∈ s).
Proof.
  unfold match_pct_at. destruct (span is_num_char s) as [|n] eqn:E; [done|].
  intros H. apply try_down_Some in H as (k & Hk & H).
  apply try_down_Some in H as (j & _ & H).
  destruct (drop j (drop k s)) as [|c rest] eqn:Ed; [done|].
  assert (c = 37%N) as ->.
  { destruct c as [|p]; [done|]. do 6 (destruct p as [p|p|]; try done). }
  injection H as <-.
  assert (37%N ∈ s) as Hin.
  { rewrite drop_drop in Ed.
    rewrite <- (take_drop (k + j) s), Ed.
    apply elem_of_app. right. by left. }
  split; [|split; [|done]].
  - destruct s; [inversion Hin|]. destruct k; [lia|done].
  - apply span_take_Forall. lia.
Qed.

Lemma match_at_none_head (s : pystr) :
  span is_num_char s = 0%nat ->
  match_pct_at s = None /\ match_num_at s = None.
Proof. intros H. unfold match_pct_at, match_num_at. by rewrite H. Qed.

Lemma re_search_skip_non_num {A} (m : pystr -> option A) pre s :
  (forall s', span is_num_char s' = 0%nat -> m s' = None) ->
  Forall (fun c => is_num_char c = false) pre ->
  re_search m (pre ++ s) = re_search m s.
Proof.
  intros Hm Hpre. induction Hpre as [|c pre Hc _ IH]; [done|].
  simpl. rewrite Hm; [done|]. simpl. by rewrite Hc.
Qed.

Lemma re_search_no_num {A} (m : pystr -> option A) s :
  (forall s', span is_num_char s' = 0%nat -> m s' = None) ->
  Forall (fun c => is_num_char c = false) s ->
  re_search m s = None.
Proof.
  intros Hm Hs.
  rewrite <- (app_nil_r s), (re_search_skip_non_num m s []); [|done..].
  simpl. by rewrite Hm.
Qed.

Lemma replace_comma_nil g : replace_comma g = [] -> g = [].
Proof. by destruct g. Qed.

Lemma replace_comma_chars g :
  Forall (fun c => is_num_char c = true) g ->
  Forall (fun c => is_digit c = true \/ c = 46%N) (replace_comma g).
Proof.
  intros H. unfold replace_comma. apply Forall_fmap.
  eapply Forall_impl; [exact H|]. intros c Hc. simpl.
  destruct (N.eqb_spec c 44) as [->|Hne]; [by right|].
  unfold is_num_char in Hc.
  destruct (is_digit c); [by left|].
  destruct (N.eqb_spec c 44); [done|].
  destruct (N.eqb_spec c 46); [by right|done].
Qed.

Lemma pct_search_none_no_num s :
  re_search match_num_at s = None ->
  Forall (fun c => is_num_char c = false) s.
Proof.
  induction s as [|c s IH]; [constructor|].
  simpl. destruct (match_num_at (c :: s)) eqn:E; [done|].
  intros H. constructor; [|by apply IH].
  unfold match_num_at in E. simpl in E.
  by destruct (is_num_char c).
Qed.

Lemma pct_first_search_none s :
  37%N ∉ s -> re_search match_pct_at s = None.
Proof.
  intros H37. destruct (re_search match_pct_at s) as [g|] eqn:E; [|done].
  apply re_search_Some in E as (s' & [pre ->] & Hm).
  apply match_pct_at_Some in Hm as (_ & _ & Hin).
  exfalso. apply H37, elem_of_app. by right.
Qed.

Lemma pct_empty_iff s :
  _pct s = [] <-> Forall (fun c => is_num_char c = false) s.
Proof.
  unfold _pct. split.
  - destruct (re_search match_pct_at s) as [g|] eqn:E1.
    { intros Hg%replace_comma_nil. subst g.
      apply re_search_Some in E1 as (s' & _ & Hm).
      by apply match_pct_at_Some in Hm as [? _]. }
    destruct (re_search match_num_at s) as [g|] eqn:E2.
    { intros Hg%replace_comma_nil. subst g.
      apply re_search_Some in E2 as (s' & _ & Hm).
      by apply match_num_at_Some in Hm as [? _]. }
    intros _. by apply pct_search_none_no_num.
  - intros H.
    rewrite !re_search_no_num; [done| |done| |done];
      intros s' Hs'; by apply match_at_none_head.
Qed.

Lemma pct_chars s :
  Forall (fun c => is_digit c = true \/ c = 46%N) (_pct s).
Proof.
  unfold _pct.
  destruct (re_search match_pct_at s) as [g|] eqn:E1.
  { apply re_search_Some in E1 as (s' & _ & Hm).
    apply match_pct_at_Some in Hm as (_ & Hg & _).
    by apply replace_comma_chars. }
  destruct (re_search match_num_at s) as [g|] eqn:E2; [|constructor].
  apply re_search_Some in E2 as (s' & _ & Hm).
  apply match_num_at_Some in Hm as [_ Hg].
  by apply replace_comma_chars.
Qed.

Lemma pct_with_percent pre run ws post :
  Forall (fun c => is_num_char c = false) pre ->
  run <> [] ->
  Forall (fun c => is_num_char c = true) run ->
  Forall (fun c => is_space c = true) ws ->
  Forall (fun c => is_num_char c = false) ws ->
  _pct (pre ++ run ++ ws ++ 37%N :: post) = replace_comma run.
Proof.
  intros Hpre Hne Hrun Hws Hwsn. unfold _pct.
  rewrite re_search_skip_non_num;
    [|intros s' Hs'; by apply match_at_none_head|done].
  assert (span is_num_char (run ++ ws ++ 37%N :: post) = length run) as Hspan.
  { apply span_app_stop; [done|].
    destruct Hwsn as [|c ws' Hc _]; simpl; [done|]. by rewrite Hc. }
  assert (match_pct_at (run ++ ws ++ 37%N :: post) = Some run) as Hm.
  { unfold match_pct_at. rewrite Hspan.
    destruct run as [|c run']; [done|]. simpl length.
    apply try_down_first. cbv beta zeta.
    replace (1 + length run')%nat with (length (c :: run')) by (simpl; lia).
    rewrite drop_app_length.
    rewrite (span_app_stop is_space ws (37%N :: post)); [|done|done].
    apply try_down_first.
    rewrite Nat.add_0_l, drop_app_length.
    by rewrite take_app_length. }
  destruct run as [|c run']; [done|]. simpl app in *. simpl. by rewrite Hm.
Qed.

Lemma pct_without_percent pre run rest :
  37%N ∉ pre ++ run ++ rest ->
  Forall (fun c => is_num_char c = false) pre ->
  run <> [] ->
  Forall (fun c => is_num_char c = true) run ->
  span is_num_char rest = 0%nat ->
  _pct (pre ++ run ++ rest) = replace_comma run.
Proof.
  intros H37 Hpre Hne Hrun Hrest. unfold _pct.
  rewrite pct_first_search_none by done.
  rewrite re_search_skip_non_num;
    [|intros s' Hs'; by apply match_at_none_head|done].
  assert (match_num_at (run ++ rest) = Some run) as Hm.
  { unfold match_num_at. rewrite span_app_stop by done.
    destruct run as [|c run']; [done|].
    change (length (c :: run')) with (S (length run')). cbv iota.
    change (S (length run')) with (length (c :: run')).
    by rewrite take_app_length. }
  destruct run as [|c run']; [done|]. simpl app in *. simpl. by rewrite Hm.
Qed.

Lemma match_pct_at_run s g : match_pct_at s = Some g -> pct_run s g.
Proof.
  intros Hm. destruct (match_pct_at_Some s g Hm) as (Hne & Hg & _).
  split; [done|]. split; [done|].
  unfold match_pct_at in Hm.
  destruct (span is_num_char s) as [|n] eqn:E; [done|].
  apply try_down_Some in Hm as (k & Hk & H).
  apply try_down_Some in H as (j & Hj & H).
  destruct (drop j (drop k s)) as [|c rest] eqn:Ed; [done|].
  assert (c = 37%N) as ->.
  { destruct c as [|p]; [done|]. do 6 (destruct p as [p|p|]; try done). }
  injection H as <-.
  exists (take j (drop k s)), rest. split.
  - apply span_take_Forall. lia.
  - by rewrite <- Ed, take_drop, take_drop.
Qed.

Lemma match_pct_at_maximal run ws post :
  run <> [] ->
  Forall (fun c => is_num_char c = true) run ->
  Forall (fun c => is_space c = true) ws ->
  span is_num_char ws = 0%nat ->
  match_pct_at (run ++ ws ++ 37%N :: post) = Some run.
Proof.
  intros Hne Hrun Hws Hstop.
  assert (span is_num_char (run ++ ws ++ 37%N :: post) = length run) as Hspan.
  { apply span_app_stop; [done|].
    destruct ws as [|c ws']; [reflexivity|].
    simpl in *. by destruct (is_num_char c). }
  unfold match_pct_at. rewrite Hspan.
  destruct run as [|c run']; [done|]. simpl length.
  apply try_down_first. cbv beta zeta.
  replace (1 + length run')%nat with (length (c :: run')) by (simpl; lia).
  rewrite drop_app_length.
  rewrite (span_app_stop is_space ws (37%N :: post)); [|done|done].
  apply try_down_first.
  rewrite Nat.add_0_l, drop_app_length.
  by rewrite take_app_length.
Qed.

Lemma re_search_head {A} (m : pystr -> option A) s g :
  m s = Some g -> re_search m s = Some g.
Proof. intros H. destruct s; simpl; by rewrite H. Qed.

Lemma re_search_first {A} (m : pystr -> option A) pre s :
  (forall i, (i < length pre)%nat -> m (drop i (pre ++ s)) = None) ->
  re_search m (pre ++ s) = re_search m s.
Proof.
  induction pre as [|c pre IH]; intros H; [done|].
  pose proof (H 0%nat ltac:(simpl; lia)) as H0. simpl in H0.
  simpl. rewrite H0.
  apply IH. intros i Hi. apply (H (S i)). simpl. lia.
Qed.

Lemma re_search_None {A} (m : pystr -> option A) s :
  (forall i, m (drop i s) = None) -> re_search m s = None.
Proof.
  intros H. destruct (re_search m s) as [g|] eqn:E; [|done].
  apply re_search_Some in E as (s' & [k ->] & Hm).
  specialize (H (length k)). rewrite drop_app_length in H. congruence.
Qed.

(** The run the first pattern finds: the first run of the text that is
    followed by optional white space and ["%"], whatever comes before. *)
Lemma pct_first_run pre run ws post :
  run <> [] ->
  Forall (fun c => is_num_char c = true) run ->
  Forall (fun c => is_space c = true) ws ->
  span is_num_char ws = 0%nat ->
  (forall i run',
     (i < length pre)%nat ->
     ~ pct_run (drop i (pre ++ run ++ ws ++ 37%N :: post)) run') ->
  _pct (pre ++ run ++ ws ++ 37%N :: post) = replace_comma run.
Proof.
  intros Hne Hrun Hws Hstop Hfirst. unfold _pct.
  rewrite re_search_first.
  - by rewrite (re_search_head _ _ run)
      by by apply match_pct_at_maximal.
  - intros i Hi.
    destruct (match_pct_at (drop i _)) as [g|] eqn:E; [|done].
    apply match_pct_at_run in E. by destruct (Hfirst i g Hi).
Qed.

(** The fall-back: when no run of the text is followed by optional white
    space and ["%"], the first run of the text. *)
Lemma pct_fallback pre run rest :
  (forall i run', ~ pct_run (drop i (pre ++ run ++ rest)) run') ->
  Forall (fun c => is_num_char c = false) pre ->
  run <> [] ->
  Forall (fun c => is_num_char c = true) run ->
  span is_num_char rest = 0%nat ->
  _pct (pre ++ run ++ rest) = replace_comma run.
Proof.
  intros Hnone Hpre Hne Hrun Hrest. unfold _pct.
  rewrite re_search_None.
  2:{ intros i. destruct (match_pct_at (drop i _)) as [g|] eqn:E; [|done].
      apply match_pct_at_run in E. by destruct (Hnone i g). }
  rewrite re_search_skip_non_num;
    [|intros s' Hs'; by apply match_at_none_head|done].
  assert (match_num_at (run ++ rest) = Some run) as Hm.
  { unfold match_num_at. rewrite span_app_stop by done.
    destruct run as [|c run']; [done|].
    change (length (c :: run')) with (S (length run')). cbv iota.
    change (S (length run')) with (length (c :: run')).
    by rewrite take_app_length. }
  by rewrite (re_search_head _ _ run).
Qed.

End TextProps.

(** C8 (refuted as stated): the claim that [_pct] returns the empty string
    whenever the input has no digit fails under every runtime: the text
    [","] has no digit, and [_pct] returns ["."] on it. *)
Lemma pct_no_digit_counterexample :
  ~ exists R : PyRuntime,
      forall s : pystr,
        Forall (fun c => is_digit c = false) s -> _pct s = [].
Proof.
  intros [R H]. specialize (H (lit ",")).
  assert (Forall (fun c => is_digit c = false) (lit ",")) as Hd.
  { repeat constructor. }
  specialize (H Hd). vm_compute in H. discriminate H.
Qed.

(** C8 (amended): under every runtime, [_pct] maps ["54,5%"] to ["54.5"],
    ["5 ulduz 54,5%"] to ["54.5"] and ["12 34%"] to ["34"]; its result holds
    digits and dots only (no comma remains).  The matched number is the
    first run of digits, commas and dots of the text that is followed by
    optional white space and ["%"], whatever comes before it, numbers
    included; when the ["%"] suffix is absent, that is when no run of the
    text is followed by optional white space and ["%"], it is the first
    run of the text; in both cases the result is the run with its commas
    replaced by dots.  The result is empty exactly when the text has no
    digit, no comma and no dot. *)
Theorem pct_spec (R : PyRuntime) :
  _pct (lit "54,5%") = lit "54.5"
  /\ _pct (lit "5 ulduz 54,5%") = lit "54.5"
  /\ _pct (lit "12 34%") = lit "34"
  /\ (forall s, Forall (fun c => is_digit c = true \/ c = 46%N) (_pct s))
  /\ (forall pre run ws post,
        run <> [] ->
        Forall (fun c => is_num_char c = true) run ->
        Forall (fun c => is_space c = true) ws ->
        span is_num_char ws = 0%nat ->
        (forall i run',
           (i < length pre)%nat ->
           ~ pct_run (drop i (pre ++ run ++ ws ++ 37%N :: post)) run') ->
        _pct (pre ++ run ++ ws ++ 37%N :: post) = replace_comma run)
  /\ (forall pre run ws post,
        Forall (fun c => is_num_char c = false) pre ->
        run <> [] ->
        Forall (fun c => is_num_char c = true) run ->
        Forall (fun c => is_space c = true) ws ->
        Forall (fun c => is_num_char c = false) ws ->
        _pct (pre ++ run ++ ws ++ 37%N :: post) = replace_comma run)
  /\ (forall pre run rest,
        (forall i run', ~ pct_run (drop i (pre ++ run ++ rest)) run') ->
        Forall (fun c => is_num_char c = false) pre ->
        run <> [] ->
        Forall (fun c => is_num_char c = true) run ->
        span is_num_char rest = 0%nat ->
        _pct (pre ++ run ++ rest) = replace_comma run)
  /\ (forall pre run rest,
        37%N ∉ pre ++ run ++ rest ->
        Forall (fun c => is_num_char c = false) pre ->
        run <> [] ->
        Forall (fun c => is_num_char c = true) run ->
        span is_num_char rest = 0%nat ->
        _pct (pre ++ run ++ rest) = replace_comma run)
  /\ (forall s, _pct s = [] <-> Forall (fun c => is_num_char c = false) s).
Proof.
  split; [by vm_compute|].
  split; [by vm_compute|].
  split; [by vm_compute|].
  split; [apply pct_chars|].
  split; [apply pct_first_run|].
  split; [apply pct_with_percent|].
  split; [apply pct_fallback|].
  split; [apply pct_without_percent|apply pct_empty_iff].
Qed.

(** ** The deduplication of [main] *)

Section DedupProps.

Lemma dedup_seen (stubs : list Stub) (x : pystr) :
  x ∈ (foldl dedup_step (∅, []) stubs).1 <-> x ∈ stub_slug <$> stubs.
Proof.
  induction stubs as [|s stubs IH] using rev_ind.
  - simpl. set_solver.
  - rewrite foldl_snoc, fmap_app, elem_of_app. simpl.
    destruct (foldl dedup_step (∅, []) stubs) as [seen unique_stubs].
    simpl in *. destruct (decide (stub_slug s ∈ seen)); simpl; set_solver.
Qed.

Lemma dedup_snoc (stubs : list Stub) (s : Stub) :
  dedup (stubs ++ [s]) =
  if decide (stub_slug s ∈ stub_slug <$> stubs) then dedup stubs
  else dedup stubs ++ [s].
Proof.
  unfold dedup. rewrite foldl_snoc.
  pose proof (dedup_seen stubs (stub_slug s)) as Hseen.
  destruct (foldl dedup_step (∅, []) stubs) as [seen unique_stubs].
  simpl in *.
  destruct (decide (stub_slug s ∈ seen)), (decide (stub_slug s ∈ stub_slug <$> stubs));
    simpl; tauto.
Qed.

Lemma dedup_slugs (stubs : list Stub) (x : pystr) :
  x ∈ stub_slug <$> dedup stubs <-> x ∈ stub_slug <$> stubs.
Proof.
  induction stubs as [|s stubs IH] using rev_ind; [done|].
  rewrite dedup_snoc. case_decide as Hin.
  - rewrite IH, fmap_app, elem_of_app. set_solver.
  - rewrite !fmap_app, !elem_of_app, IH. done.
Qed.

Lemma dedup_NoDup (stubs : list Stub) : NoDup (stub_slug <$> dedup stubs).
Proof.
  induction stubs as [|s stubs IH] using rev_ind; [constructor|].
  rewrite dedup_snoc. case_decide as Hin; [done|].
  rewrite fmap_app. apply NoDup_app. split; [done|]. split.
  - intros x Hx Hs. apply (proj1 (dedup_slugs _ _)) in Hx.
    apply list_elem_of_singleton in Hs as ->. done.
  - apply NoDup_singleton.
Qed.

Lemma dedup_first_seen (stubs : list Stub) (s : Stub) :
  s ∈ dedup stubs ->
  exists i, first_seen stubs (stub_slug s) = Some (i, s).
Proof.
  unfold first_seen.
  induction stubs as [|x stubs IH] using rev_ind; [by intros ?%elem_of_nil|].
  rewrite dedup_snoc. case_decide as Hin.
  - intros [i Hi]%IH. exists i. by apply list_find_app_l.
  - intros [Hs|Hs]%elem_of_app.
    + destruct (IH Hs) as [i Hi]. exists i. by apply list_find_app_l.
    + apply list_elem_of_singleton in Hs as ->.
      exists (length stubs). rewrite list_find_app_r.
      * simpl. rewrite decide_True by done. done.
      * apply list_find_None, Forall_forall. intros t Ht Heq.
        apply Hin. rewrite <- Heq. by apply list_elem_of_fmap_2.
Qed.

Lemma first_seen_lt (stubs : list Stub) slug i s :
  first_seen stubs slug = Some (i, s) -> (i < length stubs)%nat.
Proof.
  intros (Hl & _)%list_find_Some. by eapply lookup_lt_Some.
Qed.

Lemma dedup_order (stubs : list Stub) (i j : nat) (s t : Stub) :
  dedup stubs !! i = Some s ->
  dedup stubs !! j = Some t ->
  (i < j)%nat ->
  exists a b,
    first_seen stubs (stub_slug s) = Some (a, s)
    /\ first_seen stubs (stub_slug t) = Some (b, t)
    /\ (a < b)%nat.
Proof.
  revert i j s t.
  induction stubs as [|x stubs IH] using rev_ind; [done|].
  intros i j s t. rewrite dedup_snoc. case_decide as Hin.
  - intros Hi Hj Hlt. destruct (IH _ _ _ _ Hi Hj Hlt) as (a & b & Ha & Hb & Hab).
    exists a, b. split_and!; [by apply list_find_app_l..|done].
  - intros Hi Hj Hlt.
    apply lookup_app_Some in Hj as [Hj|[Hge Hj]].
    + rewrite lookup_app_l in Hi by (apply lookup_lt_Some in Hj; lia).
      destruct (IH _ _ _ _ Hi Hj Hlt) as (a & b & Ha & Hb & Hab).
      exists a, b. split_and!; [by apply list_find_app_l..|done].
    + apply list_lookup_singleton_Some in Hj as [Hj ->].
      rewrite lookup_app_l in Hi by lia.
      apply list_elem_of_lookup_2 in Hi.
      destruct (dedup_first_seen stubs s Hi) as [a Ha].
      assert (t ∈ dedup (stubs ++ [t])) as Ht.
      { rewrite dedup_snoc, decide_False by done. set_solver. }
      destruct (dedup_first_seen _ t Ht) as [b Hb].
      exists a, b. split_and!; [by apply list_find_app_l|done|].
      pose proof (first_seen_lt _ _ _ _ Ha).
      unfold first_seen in Hb.
      apply list_find_app_Some in Hb as [Hb|(? & _ & _)]; [|lia].
      apply list_find_Some in Hb as (Hb%list_elem_of_lookup_2 & _).
      exfalso. apply Hin. by apply list_elem_of_fmap_2.
Qed.

(** C1: the deduplication keeps each slug of the input exactly once, each
    kept stub is the first stub of the input with its slug, and the kept
    stubs stand in the order in which their slugs first appear. *)
Theorem dedup_spec (stubs : list Stub) :
  NoDup (stub_slug <$> dedup stubs)
  /\ (forall x, x ∈ stub_slug <$> stubs <-> x ∈ stub_slug <$> dedup stubs)
  /\ (forall s, s ∈ dedup stubs ->
        exists i, first_seen stubs (stub_slug s) = Some (i, s))
  /\ (forall i j s t,
        dedup stubs !! i = Some s ->
        dedup stubs !! j = Some t ->
        (i < j)%nat ->
        exists a b,
          first_seen stubs (stub_slug s) = Some (a, s)
          /\ first_seen stubs (stub_slug t) = Some (b, t)
          /\ (a < b)%nat).
Proof.
  split; [apply dedup_NoDup|].
  split; [intros x; symmetry; apply dedup_slugs|].
  split; [apply dedup_first_seen|apply dedup_order].
Qed.

End DedupProps.

(** ** The backfill of [main] *)

Section BackfillProps.

Lemma getitem_insert_ne (data : gmap string pystr) k k' v :
  k <> k' -> getitem (<[k := v]> data) k' = getitem data k'.
Proof. intros H. unfold getitem. by rewrite lookup_total_insert_ne. Qed.

Ltac backfill_case d k :=
  let E := fresh "E" in
  destruct (truthy (getitem d k)) eqn:E; simpl;
  rewrite ?getitem_insert_ne by done.

Ltac backfill_cases d :=
  unfold backfill;
  backfill_case d "name"; backfill_case d "category";
  backfill_case d "overall_rating"; backfill_case d "total_reviews".

Lemma backfill_other (detail : gmap string pystr) (stub : Stub) (k : string) :
  k ∉ ["name"; "category"; "overall_rating"; "total_reviews"] ->
  backfill detail stub !! k = detail !! k.
Proof.
  intros Hk.
  assert (k <> "name" /\ k <> "category" /\ k <> "overall_rating"
          /\ k <> "total_reviews") as (? & ? & ? & ?).
  { split_and!; intros ->; apply Hk; set_solver. }
  backfill_cases detail; by rewrite ?lookup_insert_ne by done.
Qed.

Lemma backfill_kept (detail : gmap string pystr) (stub : Stub) (k : string) :
  getitem detail k <> [] ->
  backfill detail stub !! k = detail !! k.
Proof.
  intros Hk.
  assert (forall k', truthy (getitem detail k') = false -> k' <> k) as Hne.
  { intros k' H' ->. by destruct (getitem detail k). }
  backfill_cases detail;
    repeat match goal with
           | E : truthy (getitem detail _) = false |- _ => apply Hne in E
           end;
    by rewrite ?lookup_insert_ne by done.
Qed.

(** The listing value that stands in for an empty field. *)
Lemma backfill_filled (detail : gmap string pystr) (stub : Stub) :
  (getitem detail "name" = [] ->
   backfill detail stub !! "name" = Some (stub_name stub))
  /\ (getitem detail "category" = [] ->
      backfill detail stub !! "category" = Some (stub_category stub))
  /\ (getitem detail "overall_rating" = [] ->
      backfill detail stub !! "overall_rating" = Some (stub_rating_listing stub))
  /\ (getitem detail "total_reviews" = [] ->
      backfill detail stub !! "total_reviews"
      = Some (stub_review_count_listing stub)).
Proof.
  split_and!; intros H; apply (f_equal truthy) in H; simpl in H;
    backfill_cases detail; try congruence;
    rewrite ?lookup_insert_ne by done; by rewrite ?lookup_insert_eq.
Qed.

(** C3: the backfill leaves every field other than [name], [category],
    [overall_rating] and [total_reviews] as it is; it leaves each of these
    four as it is when the value from the detail page is not empty; and
    when that value is empty it stores the value of the listing stub. *)
Theorem backfill_spec (detail : gmap string pystr) (stub : Stub) :
  (forall k,
     k ∉ ["name"; "category"; "overall_rating"; "total_reviews"] ->
     backfill detail stub !! k = detail !! k)
  /\ (forall k,
        getitem detail k <> [] -> backfill detail stub !! k = detail !! k)
  /\ (getitem detail "name" = [] ->
      backfill detail stub !! "name" = Some (stub_name stub))
  /\ (getitem detail "category" = [] ->
      backfill detail stub !! "category" = Some (stub_category stub))
  /\ (getitem detail "overall_rating" = [] ->
      backfill detail stub !! "overall_rating" = Some (stub_rating_listing stub))
  /\ (getitem detail "total_reviews" = [] ->
      backfill detail stub !! "total_reviews"
      = Some (stub_review_count_listing stub)).
Proof.
  split; [apply backfill_other|].
  split; [apply backfill_kept|apply backfill_filled].
Qed.

End BackfillProps.

(** ** The fetcher [get] *)

Section GetProps.

Lemma get_cases (url : pystr) (w : World) :
  let n0 := net w (requests w) url in
  let n1 := net w (S (requests w)) url in
  let n2 := net w (S (S (requests w))) url in
  let rq := EvRequest url in
  let warn := EvLog WARNING "Attempt %d/%d failed for %s: %s" in
  let sl (a : nat) := EvSleep (REQUEST_DELAY * inject_Z (Z.of_nat a)) in
  get url w =
  match n0, n1, n2 with
  | Some soup, _, _ =>
      (Ok (Some soup), mkWorld (net w) (S (requests w)) (events w ++ [rq]))
  | None, Some soup, _ =>
      (Ok (Some soup),
       mkWorld (net w) (S (S (requests w)))
         ((((events w ++ [rq]) ++ [warn]) ++ [sl 1%nat]) ++ [rq]))
  | None, None, Some soup =>
      (Ok (Some soup),
       mkWorld (net w) (S (S (S (requests w))))
         (((((((events w ++ [rq]) ++ [warn]) ++ [sl 1%nat]) ++ [rq])
             ++ [warn]) ++ [sl 2%nat]) ++ [rq]))
  | None, None, None =>
      (Ok None,
       mkWorld (net w) (S (S (S (requests w))))
         (((((((((events w ++ [rq]) ++ [warn]) ++ [sl 1%nat]) ++ [rq])
               ++ [warn]) ++ [sl 2%nat]) ++ [rq]) ++ [warn])
          ++ [EvLog ERROR "Giving up on %s"]))
  end.
Proof.
  destruct w as [site req evs]. simpl.
  unfold get, MAX_RETRIES. simpl seq. simpl get_attempts.
  unfold mbind, M_bind, session_get, mret, M_ret, log, sleep, emit. simpl.
  destruct (site req url); [done|]. simpl.
  destruct (site (S req) url); [done|]. simpl.
  destruct (site (S (S req)) url); done.
Qed.

Lemma net_at_offsets (w : World) (url : pystr) :
  net w (requests w + 0)%nat url = net w (requests w) url
  /\ net w (requests w + 1)%nat url = net w (S (requests w)) url
  /\ net w (requests w + 2)%nat url = net w (S (S (requests w))) url.
Proof.
  rewrite Nat.add_0_r.
  replace (requests w + 1)%nat with (S (requests w)) by lia.
  by replace (requests w + 2)%nat with (S (S (requests w))) by lia.
Qed.

(** C4: [get] never raises and makes [k] requests, with [1 <= k <= 3]; the
    requests and sleeps it performs are [k] requests with a sleep of the
    attempt number times [REQUEST_DELAY] between consecutive attempts and
    none after the last one; the attempts before the last one all failed;
    the result is the answer to the last attempt; and the result is [None]
    only when all three attempts were made. *)
Theorem get_spec (url : pystr) (w : World) :
  exists r w' k new,
    get url w = (Ok r, w')
    /\ (1 <= k <= MAX_RETRIES)%nat
    /\ requests w' = (requests w + k)%nat
    /\ net w' = net w
    /\ events w' = events w ++ new
    /\ io_events new = retry_trace url k
    /\ (forall j, (j < k - 1)%nat -> net w (requests w + j)%nat url = None)
    /\ r = net w (requests w + (k - 1))%nat url
    /\ (r = None -> k = MAX_RETRIES).
Proof.
  pose proof (net_at_offsets w url) as (H0 & H1 & H2).
  rewrite (get_cases url w). cbv zeta.
  destruct (net w (requests w) url) as [soup0|] eqn:E0;
    [exists (Some soup0); eexists _, 1%nat, _|
     destruct (net w (S (requests w)) url) as [soup1|] eqn:E1;
     [exists (Some soup1); eexists _, 2%nat, _|
      destruct (net w (S (S (requests w))) url) as [soup2|] eqn:E2;
      [exists (Some soup2)|exists None]; eexists _, 3%nat, _]];
    (split; [reflexivity|]); simpl;
    (split; [unfold MAX_RETRIES; lia|]);
    (split; [lia|]);
    (split; [done|]);
    (split; [by rewrite <- ?app_assoc|]);
    (split; [reflexivity|]);
    (split; [intros j Hj;
             first [lia
                   |assert (j = 0)%nat as -> by lia; congruence
                   |assert (j = 0 \/ j = 1)%nat as [-> | ->] by lia; congruence]|]);
    (split; [congruence|]);
    done.
Qed.

Lemma get_all_fail (url : pystr) (w : World) :
  fetch_fails w url ->
  exists w',
    get url w = (Ok None, w')
    /\ net w' = net w
    /\ requests w' = (requests w + MAX_RETRIES)%nat
    /\ rows_written w' = rows_written w.
Proof.
  intros Hf. pose proof (net_at_offsets w url) as (H0 & H1 & H2).
  rewrite (get_cases url w). cbv zeta.
  rewrite <- H0, <- H1, <- H2, !Hf by (unfold MAX_RETRIES; lia).
  eexists. split; [reflexivity|]. simpl. split_and!; try done.
  - unfold MAX_RETRIES. lia.
  - unfold rows_written. simpl. rewrite !omap_app. simpl.
    by rewrite !app_nil_r.
Qed.

Lemma get_total (url : pystr) (w : World) :
  exists r w',
    get url w = (Ok r, w')
    /\ net w' = net w
    /\ rows_written w' = rows_written w.
Proof.
  rewrite (get_cases url w). cbv zeta.
  destruct (net w (requests w) url);
    [|destruct (net w (S (requests w)) url);
      [|destruct (net w (S (S (requests w))) url)]];
    eexists _, _; (split; [reflexivity|]); simpl; (split; [done|]);
    unfold rows_written; simpl; rewrite !omap_app; simpl;
    by rewrite !app_nil_r.
Qed.

End GetProps.

(** ** The detail page *)

(** Splits [k ∉ [k1; ...; kn]] into the facts [k <> ki]. *)
Ltac split_not_in H :=
  repeat (apply not_elem_of_cons in H as [? H]).

(** Proves that a literal key is not in a list of other literal keys. *)
Ltac literal_not_in :=
  let H := fresh "H" in
  intros H;
  repeat (apply elem_of_cons in H as [H|H]; [discriminate H|]);
  by apply elem_of_nil in H.

Section DetailProps.
Context {R : PyRuntime}.

Lemma initial_record_degraded (slug : pystr) :
  degraded_record slug (initial_record slug (profile_url slug)).
Proof.
  unfold degraded_record, initial_record, profile_url. split_and!.
  - by rewrite lookup_insert_ne, lookup_insert_eq.
  - by rewrite lookup_insert_eq.
  - done.
  - intros k Hk Hs Hp. rewrite !lookup_insert_ne by done.
    unfold CSV_FIELDS in *.
    repeat (apply elem_of_cons in Hk as [->|Hk]; [by vm_compute|]).
    by apply elem_of_nil in Hk.
  - intros k Hk.
    rewrite !lookup_insert_ne by (intros <-; apply Hk; unfold CSV_FIELDS; set_solver).
    apply not_elem_of_list_to_map_1.
    by rewrite <- list_fmap_compose, list_fmap_id.
Qed.

(** C2: when the three attempts to fetch the detail page of a slug all
    fail, [parse_company_page] returns normally, and what it returns is the
    record with the slug, the profile URL [BASE_URL/slug/] (which is not
    empty) and every other field empty. *)
Theorem parse_company_page_fetch_failure (slug : pystr) (w : World) :
  fetch_fails w (profile_url slug) ->
  exists d w',
    parse_company_page slug w = (Ok d, w') /\ degraded_record slug d.
Proof.
  intros Hf. destruct (get_all_fail _ _ Hf) as (w' & Hget & _).
  exists (initial_record slug (profile_url slug)), w'. split.
  - unfold parse_company_page, mbind, M_bind. by rewrite Hget.
  - apply initial_record_degraded.
Qed.

(** *** What the extraction writes

    The steps of lines 224-306 store values under the keys of
    [extract_keys] only, the star-row loop under the star fields only, and
    no step removes a key. *)

Lemma social_step_other soup (d : gmap string pystr) platform k :
  platform <> k -> social_step soup d platform !! k = d !! k.
Proof.
  intros H. unfold social_step.
  destruct (select_one soup _); [|done]. by rewrite lookup_insert_ne.
Qed.

Lemma stat_step_other ft (d : gmap string pystr) entry k :
  entry.1 <> k -> stat_step ft d entry !! k = d !! k.
Proof.
  intros H. destruct entry as [key pat]. unfold stat_step.
  destruct (re_search_i pat ft); [|done]. by rewrite lookup_insert_ne.
Qed.

Lemma extract_fields_other soup (d : gmap string pystr) (k : string) :
  k ∉ extract_keys -> extract_fields soup d !! k = d !! k.
Proof.
  intros Hk. unfold extract_keys in Hk. split_not_in Hk.
  unfold extract_fields.
  assert (forall d, extract_name soup d !! k = d !! k) as K1.
  { intros d'. unfold extract_name. by rewrite !lookup_insert_ne. }
  assert (forall d, extract_founded soup d !! k = d !! k) as K2.
  { intros d'. unfold extract_founded. rewrite lookup_insert_ne by done.
    repeat case_match; by rewrite ?lookup_insert_ne. }
  assert (forall d, extract_website soup d !! k = d !! k) as K3.
  { intros d'. unfold extract_website.
    repeat case_match; by rewrite ?lookup_insert_ne. }
  assert (forall d, extract_social soup d !! k = d !! k) as K4.
  { intros d'. unfold extract_social. cbn [foldl].
    by rewrite !social_step_other. }
  assert (forall d, extract_rating soup d !! k = d !! k) as K5.
  { intros d'. unfold extract_rating.
    repeat case_match; by rewrite ?lookup_insert_ne. }
  assert (forall d, extract_stats soup d !! k = d !! k) as K6.
  { intros d'. unfold extract_stats. cbn [foldl].
    by rewrite !stat_step_other. }
  by rewrite K6, K5, K4, K3, K2, K1.
Qed.

Lemma star_row_step_other (d : gmap string pystr) row (k : string) :
  k ∉ star_keys.*2 -> star_row_step d row !! k = d !! k.
Proof.
  intros Hk. unfold star_row_step.
  destruct (List.find _ star_keys) as [[star_n col]|] eqn:E; [|done].
  destruct (truthy (_pct _) && _); [|done].
  apply lookup_insert_ne. intros ->. apply Hk.
  apply List.find_some in E as [Hin _].
  apply (list_elem_of_fmap_2 snd _ (star_n, k)). by apply list_elem_of_In.
Qed.

Lemma extract_star_rows_other soup (d : gmap string pystr) (k : string) :
  k ∉ star_keys.*2 -> extract_star_rows soup d !! k = d !! k.
Proof.
  intros Hk. unfold extract_star_rows.
  generalize (select soup star_row_selector). intros rows. revert d.
  induction rows as [|row rows IH]; intros d; [done|].
  simpl. by rewrite IH, star_row_step_other.
Qed.

Lemma insert_keeps (d : gmap string pystr) (k k' : string) (v : pystr) :
  is_Some (d !! k) -> is_Some (<[k' := v]> d !! k).
Proof. intros H. apply lookup_insert_is_Some'. by right. Qed.

Lemma foldl_keeps {A} (step : gmap string pystr -> A -> gmap string pystr)
    (l : list A) (d : gmap string pystr) (k : string) :
  (forall d x, is_Some (d !! k) -> is_Some (step d x !! k)) ->
  is_Some (d !! k) -> is_Some (foldl step d l !! k).
Proof.
  intros Hstep. revert d. induction l as [|x l IH]; intros d Hd; [done|].
  simpl. by apply IH, Hstep.
Qed.

Ltac keeps := repeat first [done | apply insert_keeps | case_match].

Lemma extract_fields_keeps soup (d : gmap string pystr) (k : string) :
  is_Some (d !! k) -> is_Some (extract_fields soup d !! k).
Proof.
  intros Hd. unfold extract_fields.
  assert (is_Some (extract_name soup d !! k)) as H1.
  { unfold extract_name. keeps. }
  assert (is_Some (extract_founded soup (extract_name soup d) !! k)) as H2.
  { unfold extract_founded. keeps. }
  assert (is_Some (extract_website soup
            (extract_founded soup (extract_name soup d)) !! k)) as H3.
  { unfold extract_website. keeps. }
  revert H3. generalize (extract_website soup
    (extract_founded soup (extract_name soup d))). clear. intros d H3.
  assert (is_Some (extract_social soup d !! k)) as H4.
  { unfold extract_social. apply foldl_keeps; [|done].
    intros d' x Hd'. unfold social_step. keeps. }
  assert (is_Some (extract_rating soup (extract_social soup d) !! k)) as H5.
  { unfold extract_rating. keeps. }
  unfold extract_stats. apply foldl_keeps; [|done].
  intros d' [key pat] Hd'. unfold stat_step. keeps.
Qed.

Lemma extract_star_rows_keeps soup (d : gmap string pystr) (k : string) :
  is_Some (d !! k) -> is_Some (extract_star_rows soup d !! k).
Proof.
  intros Hd. unfold extract_star_rows. apply foldl_keeps; [|done].
  intros d' row Hd'. unfold star_row_step. keeps.
Qed.

Lemma extract_star_fallback_keeps soup (d : gmap string pystr) (k : string) :
  is_Some (d !! k) -> is_Some (extract_star_fallback soup d !! k).
Proof.
  intros Hd. unfold extract_star_fallback. apply foldl_keeps; [|done].
  intros d' [star_n col] Hd'. unfold star_fallback_step. keeps.
Qed.

Lemma initial_record_fields (slug url : pystr) (k : string) :
  k ∈ CSV_FIELDS -> is_Some (initial_record slug url !! k).
Proof.
  intros Hk. unfold initial_record. do 2 apply insert_keeps.
  destruct (list_to_map _ !! k) as [v|] eqn:E; [done|].
  apply not_elem_of_list_to_map_2 in E.
  by rewrite <- list_fmap_compose, list_fmap_id in E.
Qed.

(** The record [parse_company_page] returns has every field of
    [CSV_FIELDS]: [getitem] never falls outside the record. *)
Lemma parse_company_page_fields (slug : pystr) (w w' : World)
    (d : gmap string pystr) (k : string) :
  parse_company_page slug w = (Ok d, w') ->
  k ∈ CSV_FIELDS -> is_Some (d !! k).
Proof.
  unfold parse_company_page, mbind, M_bind.
  destruct (get (profile_url slug) w) as [[[soup|]|e] w1]; [| |done].
  - intros [= <- _] Hk.
    by apply extract_star_fallback_keeps, extract_star_rows_keeps,
      extract_fields_keeps, initial_record_fields.
  - intros [= <- _] Hk. by apply initial_record_fields.
Qed.

Lemma getitem_some (d : gmap string pystr) (k : string) :
  is_Some (d !! k) -> d !! k = Some (getitem d k).
Proof. intros [v Hv]. unfold getitem. by rewrite lookup_total_alt, Hv. Qed.

Lemma getitem_eq (d1 d2 : gmap string pystr) (k : string) :
  d1 !! k = d2 !! k -> getitem d1 k = getitem d2 k.
Proof. intros H. unfold getitem. by rewrite !lookup_total_alt, H. Qed.

Lemma truthy_false (s : pystr) : truthy s = false <-> s = [].
Proof. by destruct s. Qed.

Lemma star_fallback_step_keep ft (d : gmap string pystr) key col :
  getitem d col <> [] -> star_fallback_step ft d key !! col = d !! col.
Proof.
  intros Hcol. destruct key as [star_n c]. unfold star_fallback_step.
  destruct (truthy (getitem d c)) eqn:E; simpl; [done|].
  apply truthy_false in E.
  destruct (re_search_i _ ft); [|done].
  apply lookup_insert_ne. by intros ->.
Qed.

Lemma star_fallback_step_other ft (d : gmap string pystr) key col :
  col <> key.2 -> star_fallback_step ft d key !! col = d !! col.
Proof.
  intros Hcol. destruct key as [star_n c]. unfold star_fallback_step.
  destruct (truthy (getitem d c)); simpl; [done|].
  destruct (re_search_i _ ft); [|done].
  by apply lookup_insert_ne.
Qed.

Lemma star_fallback_keep ft keys (d : gmap string pystr) col :
  getitem d col <> [] ->
  foldl (star_fallback_step ft) d keys !! col = d !! col.
Proof.
  revert d. induction keys as [|key keys IH]; intros d Hcol; [done|].
  simpl. rewrite IH.
  - by apply star_fallback_step_keep.
  - rewrite (getitem_eq _ d); [done|]. by apply star_fallback_step_keep.
Qed.

Lemma star_fallback_other ft keys (d : gmap string pystr) col :
  col ∉ keys.*2 ->
  foldl (star_fallback_step ft) d keys !! col = d !! col.
Proof.
  revert d. induction keys as [|key keys IH]; intros d Hcol; [done|].
  simpl. rewrite IH by set_solver.
  apply star_fallback_step_other. set_solver.
Qed.

(** *** What the star-row loop stores *)

Lemma star_row_step_value (d : gmap string pystr) (row : Node) (col : string) :
  getitem (star_row_step d row) col = getitem d col
  \/ (getitem d col = []
      /\ getitem (star_row_step d row) col = _pct (get_text_sep row)
      /\ _pct (get_text_sep row) <> []).
Proof.
  unfold star_row_step.
  destruct (List.find _ star_keys) as [[star_n c]|]; [|by left].
  destruct (truthy (_pct (get_text_sep row))) eqn:Ep; simpl; [|by left].
  destruct (truthy (getitem d c)) eqn:Ed; simpl; [by left|].
  apply truthy_false in Ed.
  destruct (decide (c = col)) as [->|Hne].
  - right. split; [done|]. split.
    + unfold getitem. by rewrite lookup_total_insert_eq.
    + by destruct (_pct (get_text_sep row)).
  - left. by apply getitem_insert_ne.
Qed.

Lemma star_rows_value (rows : list Node) (d : gmap string pystr) (col : string) :
  getitem (foldl star_row_step d rows) col = getitem d col
  \/ (getitem d col = []
      /\ exists row,
           row ∈ rows
           /\ getitem (foldl star_row_step d rows) col = _pct (get_text_sep row)).
Proof.
  revert d. induction rows as [|row rows IH]; intros d; [by left|].
  simpl.
  destruct (IH (star_row_step d row)) as [Hsame|(Hempty & row' & Hin & Hval)];
    destruct (star_row_step_value d row col) as [Hstep|(Hd & Hstep & Hne)].
  - left. congruence.
  - right. split; [done|]. exists row. split; [by left|]. congruence.
  - right. split; [congruence|]. exists row'. split; [by right|done].
  - congruence.
Qed.

Lemma star_fields_initially_empty soup (slug url : pystr) (col : string) :
  col ∈ star_keys.*2 ->
  getitem (extract_fields soup (initial_record slug url)) col = [].
Proof.
  intros Hcol. unfold getitem. rewrite lookup_total_alt.
  rewrite extract_fields_other.
  - unfold initial_record, star_keys in *. simpl in Hcol.
    repeat (apply elem_of_cons in Hcol as [->|Hcol]; [vm_compute; reflexivity|]).
    by apply elem_of_nil in Hcol.
  - unfold star_keys in Hcol. simpl in Hcol.
    repeat (apply elem_of_cons in Hcol as [->|Hcol];
            [unfold extract_keys; literal_not_in|]).
    by apply elem_of_nil in Hcol.
Qed.

(** C7: in [parse_company_page] on a fetched page, a field that is not
    empty after the loop over the star rows has the same value in the
    returned record; for a star field this value is what [_pct] extracts
    from one of the star rows; and the fallback changes a field only if it
    is one of the five star fields and was still empty after that loop. *)
Theorem star_rows_take_precedence (slug : pystr) (w w' : World) (soup : Node) :
  get (profile_url slug) w = (Ok (Some soup), w') ->
  exists d,
    parse_company_page slug w = (Ok d, w')
    /\ let rows_phase :=
         extract_star_rows soup
           (extract_fields soup (initial_record slug (profile_url slug))) in
       (forall col, getitem rows_phase col <> [] -> d !! col = rows_phase !! col)
       /\ (forall col,
             col ∈ star_keys.*2 ->
             getitem rows_phase col <> [] ->
             exists row,
               row ∈ select soup star_row_selector
               /\ d !! col = Some (_pct (get_text_sep row)))
       /\ (forall col, d !! col <> rows_phase !! col ->
                       col ∈ star_keys.*2 /\ getitem rows_phase col = []).
Proof.
  intros Hget. eexists. split.
  { unfold parse_company_page, mbind, M_bind. rewrite Hget. reflexivity. }
  cbv zeta. split_and!.
  - intros col Hcol. by apply star_fallback_keep.
  - intros col Hstar Hcol.
    pose proof (star_fields_initially_empty soup slug (profile_url slug) col Hstar)
      as Hinit.
    unfold extract_star_rows in *.
    destruct (star_rows_value (select soup star_row_selector)
                (extract_fields soup (initial_record slug (profile_url slug))) col)
      as [Hsame|(_ & row & Hin & Hval)]; [congruence|].
    exists row. split; [done|].
    unfold extract_star_fallback. rewrite star_fallback_keep by done.
    rewrite <- Hval. apply getitem_some.
    apply (extract_star_rows_keeps soup), extract_fields_keeps,
      initial_record_fields.
    unfold star_keys in Hstar. simpl in Hstar. unfold CSV_FIELDS.
    repeat (apply elem_of_cons in Hstar as [->|Hstar]; [set_solver|]).
    by apply elem_of_nil in Hstar.
  - intros col Hne. split.
    + destruct (decide (col ∈ star_keys.*2)) as [|Hnot]; [done|].
      exfalso. apply Hne. by apply star_fallback_other.
    + destruct (decide (getitem
        (extract_star_rows soup
           (extract_fields soup (initial_record slug (profile_url slug)))) col = []))
        as [|Hnot]; [done|].
      exfalso. apply Hne. by apply star_fallback_keep.
Qed.

End DetailProps.

(** ** The run of [main] *)

Section MainProps.
Context {R : PyRuntime}.

Lemma bind_run {A B} (m : M A) (f : A -> M B) (w w' : World) (a : A) :
  m w = (Ok a, w') -> (m ≫= f) w = f a w'.
Proof. intros H. unfold mbind, M_bind. by rewrite H. Qed.

Lemma bind_raise {A B} (m : M A) (f : A -> M B) (w w' : World) (e : Exn) :
  m w = (Raised e, w') -> (m ≫= f) w = (Raised e, w').
Proof. intros H. unfold mbind, M_bind. by rewrite H. Qed.

Lemma emit_run (e : Event) (w : World) :
  emit e w = (Ok tt, mkWorld (net w) (requests w) (events w ++ [e])).
Proof. done. Qed.

Lemma log_run (level : LogLevel) (format : string) (w : World) :
  log level format w
  = (Ok tt, mkWorld (net w) (requests w) (events w ++ [EvLog level format])).
Proof. done. Qed.

Lemma sleep_run (seconds : Q) (w : World) :
  sleep seconds w
  = (Ok tt, mkWorld (net w) (requests w) (events w ++ [EvSleep seconds])).
Proof. done. Qed.

(** One step of a run: the next action is an [emit], a [log] or a [sleep]. *)
Ltac run_step :=
  first [ rewrite (bind_run _ _ _ _ _ (emit_run _ _))
        | rewrite (bind_run _ _ _ _ _ (log_run _ _ _))
        | rewrite (bind_run _ _ _ _ _ (sleep_run _ _)) ].

Lemma rows_written_snoc site rq evs e :
  rows_written (mkWorld site rq (evs ++ [e]))
  = rows_written (mkWorld site rq evs)
    ++ match e with EvRow r => [r] | _ => [] end.
Proof. unfold rows_written. simpl. rewrite omap_app. by destruct e. Qed.





(** *** The listing traversal *)

Lemma collect_pages_total (pages : list nat) (acc : list Stub) (w : World) :
  exists stubs w',
    collect_pages pages acc w = (Ok stubs, w')
    /\ rows_written w' = rows_written w
    /\ acc `prefix_of` stubs.
Proof.
  revert acc w. induction pages as [|page pages IH]; intros acc w.
  - by exists acc, w.
  - simpl. run_step.
    set (w1 := mkWorld _ _ _).
    destruct (get_total (page_url (N.of_nat page)) w1) as (r & w2 & Hg & _ & Hr).
    rewrite (bind_run _ _ _ _ _ Hg).
    run_step.
    set (w3 := mkWorld _ _ _).
    assert (rows_written w3 = rows_written w) as Hr3.
    { subst w3. rewrite rows_written_snoc, app_nil_r.
      destruct w2 as [n2 r2 e2]. simpl in *.
      change (rows_written (mkWorld n2 r2 e2) = rows_written w).
      rewrite Hr. subst w1. by rewrite rows_written_snoc, app_nil_r. }
    destruct r as [soup|].
    + destruct (IH (acc ++ parse_listing_page soup) w3) as (stubs & w' & H & Hr' & Hp).
      exists stubs, w'. split; [done|]. split; [congruence|].
      etrans; [|exact Hp]. by apply prefix_app_r.
    + destruct (IH acc w3) as (stubs & w' & H & Hr' & Hp).
      exists stubs, w'. split; [done|]. split; [congruence|done].
Qed.

Lemma collect_all_slugs_spec (w : World) :
  exists res w',
    collect_all_slugs w = (res, w')
    /\ rows_written w' = rows_written w
    /\ (fetch_fails w (page_url 1) -> res = Ok [])
    /\ (forall soup,
          net w (requests w) (page_url 1) = Some soup ->
          match res with
          | Ok stubs => parse_listing_page soup `prefix_of` stubs
          | Raised e => get_total_pages soup = Raised e
          end).
Proof.
  unfold collect_all_slugs.
  run_step.
  set (w1 := mkWorld _ _ _).
  assert (rows_written w1 = rows_written w) as Hr1.
  { subst w1. destruct w. by rewrite rows_written_snoc, app_nil_r. }
  destruct (net w (requests w) (page_url 1)) as [soup1|] eqn:E0.
  - (* page 1 arrives at the first attempt *)
    assert (get (page_url 1) w1
            = (Ok (Some soup1),
               mkWorld (net w) (S (requests w)) (events w1 ++ [EvRequest (page_url 1)])))
      as Hg.
    { rewrite (get_cases _ w1). subst w1. simpl. by rewrite E0. }
    rewrite (bind_run _ _ _ _ _ Hg).
    set (w2 := mkWorld _ _ _).
    assert (rows_written w2 = rows_written w) as Hr2.
    { subst w2. by rewrite rows_written_snoc, app_nil_r. }
    destruct (get_total_pages soup1) as [total|e] eqn:Et.
    + run_step.
      run_step.
      set (w3 := mkWorld _ _ _).
      assert (rows_written w3 = rows_written w) as Hr3.
      { subst w3. simpl. by rewrite !rows_written_snoc, !app_nil_r. }
      destruct (collect_pages_total (seq 2 (N.to_nat total - 1))
                  (parse_listing_page soup1) w3) as (stubs & w4 & Hc & Hr4 & Hp).
      rewrite (bind_run _ _ _ _ _ Hc).
      run_step.
      eexists _, _. split; [reflexivity|]. split_and!.
      * destruct w4. simpl. rewrite rows_written_snoc, app_nil_r. simpl in *.
        congruence.
      * intros Hf. specialize (Hf 0%nat). rewrite Nat.add_0_r in Hf.
        rewrite Hf in E0 by (unfold MAX_RETRIES; lia). done.
      * intros soup [= <-]. done.
    + eexists _, _. split; [reflexivity|]. split_and!; [done| |].
      * intros Hf. specialize (Hf 0%nat). rewrite Nat.add_0_r in Hf.
        rewrite Hf in E0 by (unfold MAX_RETRIES; lia). done.
      * intros soup [= <-]. done.
  - (* the first attempt fails *)
    destruct (get_total (page_url 1) w1) as (r & w2 & Hg & Hn2 & Hr2).
    rewrite (bind_run _ _ _ _ _ Hg).
    destruct r as [soup|].
    + destruct (get_total_pages soup) as [total|e] eqn:Et.
      * run_step.
        run_step.
        set (w3 := mkWorld _ _ _).
        assert (rows_written w3 = rows_written w) as Hr3.
        { subst w3. simpl. rewrite !rows_written_snoc, !app_nil_r.
          destruct w2. simpl in *. congruence. }
        destruct (collect_pages_total (seq 2 (N.to_nat total - 1))
                    (parse_listing_page soup) w3) as (stubs & w4 & Hc & Hr4 & Hp).
        rewrite (bind_run _ _ _ _ _ Hc).
        run_step.
        eexists _, _. split; [reflexivity|]. split_and!; [| |done].
        -- destruct w4. simpl. rewrite rows_written_snoc, app_nil_r. simpl in *.
           congruence.
        -- intros Hf.
           assert (fetch_fails w1 (page_url 1)) as Hf1 by exact Hf.
           destruct (get_all_fail _ _ Hf1) as (w2' & Hg' & _).
           rewrite Hg in Hg'. discriminate Hg'.
      * eexists _, _. split; [reflexivity|]. split_and!; [congruence| |done].
        intros Hf.
        assert (fetch_fails w1 (page_url 1)) as Hf1 by exact Hf.
        destruct (get_all_fail _ _ Hf1) as (w2' & Hg' & _).
        rewrite Hg in Hg'. discriminate Hg'.
    + run_step.
      eexists _, _. split; [reflexivity|]. split_and!; [|done|done].
      destruct w2. simpl. rewrite rows_written_snoc, app_nil_r. simpl in *.
      congruence.
Qed.



End MainProps.

(** ** The chart aggregations *)

Section ChartProps.
Context {R : PyRuntime}.

Lemma dd_lookup_update {V} (dflt : V) (f : V -> V) (k k' : pystr)
    (d : list (pystr * V)) :
  dd_lookup k' (dd_update dflt f k d)
  = if decide (k = k') then Some (f (default dflt (dd_lookup k d)))
    else dd_lookup k' d.
Proof.
  induction d as [|[k0 v] d IH]; simpl.
  - repeat case_decide; congruence.
  - destruct (decide (k0 = k)) as [->|Hne]; simpl.
    + repeat case_decide; congruence.
    + rewrite IH. repeat case_decide; congruence.
Qed.

Lemma dd_update_keys {V} (dflt : V) (f : V -> V) (k : pystr)
    (d : list (pystr * V)) :
  (dd_update dflt f k d).*1 = if decide (k ∈ d.*1) then d.*1 else d.*1 ++ [k].
Proof.
  induction d as [|[k0 v] d IH].
  - case_decide as H; [by apply elem_of_nil in H|done].
  - cbn [dd_update]. rewrite fmap_cons. cbn [fst].
    destruct (decide (k0 = k)) as [->|Hne].
    + rewrite fmap_cons. cbn [fst]. clear IH.
      case_decide as H; [done|]. exfalso. apply H. by left.
    + rewrite fmap_cons, IH. cbn [fst]. clear IH.
      destruct (decide (k ∈ d.*1)) as [Hin|Hnin].
      * case_decide as H; [done|]. exfalso. apply H. by right.
      * case_decide as H; [|done].
        apply elem_of_cons in H as [?|?]; congruence.
Qed.

Lemma dd_update_NoDup {V} (dflt : V) (f : V -> V) (k : pystr)
    (d : list (pystr * V)) :
  NoDup d.*1 -> NoDup (dd_update dflt f k d).*1.
Proof.
  intros Hd. rewrite dd_update_keys. case_decide as Hin; [done|].
  apply NoDup_app. split; [done|]. split; [|apply NoDup_singleton].
  intros x Hx ->%list_elem_of_singleton. done.
Qed.

Lemma dd_lookup_elem {V} (k : pystr) (v : V) (d : list (pystr * V)) :
  NoDup d.*1 -> (k, v) ∈ d -> dd_lookup k d = Some v.
Proof.
  induction d as [|[k0 v0] d IH]; simpl; [by intros _ ?%elem_of_nil|].
  intros [Hk0 Hd]%NoDup_cons [Heq|Hin]%elem_of_cons.
  - injection Heq as <- <-. by rewrite decide_True.
  - destruct (decide (k0 = k)) as [->|Hne]; [|by apply IH].
    exfalso. apply Hk0. by apply (list_elem_of_fmap_2 fst _ (k, v)).
Qed.

Lemma dd_lookup_Some {V} (k : pystr) (v : V) (d : list (pystr * V)) :
  dd_lookup k d = Some v -> (k, v) ∈ d.
Proof.
  induction d as [|[k0 v0] d IH]; simpl; [done|].
  destruct (decide (k0 = k)) as [->|Hne].
  - intros [= ->]. by left.
  - intros H. right. by apply IH.
Qed.

(** *** The grouping of [build_cat_stats] *)

Lemma group_rows_snoc (rows : list Row) (r : Row) :
  group_rows (rows ++ [r])
  = dd_update [] (fun items => items ++ [item_of_row r]) (category_key r)
              (group_rows rows).
Proof. unfold group_rows. by rewrite foldl_snoc. Qed.

Lemma group_rows_NoDup (rows : list Row) : NoDup (group_rows rows).*1.
Proof.
  induction rows as [|r rows IH] using rev_ind; [constructor|].
  rewrite group_rows_snoc. by apply dd_update_NoDup.
Qed.

Lemma group_rows_items (rows : list Row) (c : pystr) :
  default [] (dd_lookup c (group_rows rows)) = item_of_row <$> rows_in c rows.
Proof.
  unfold rows_in.
  induction rows as [|r rows IH] using rev_ind; [done|].
  rewrite group_rows_snoc, dd_lookup_update, filter_app, fmap_app.
  destruct (decide (category_key r = c)) as [Heq|Hne].
  - rewrite (filter_cons_True _ r []) by done. simpl. rewrite <- IH.
    by rewrite Heq.
  - rewrite (filter_cons_False _ r []) by done. simpl. by rewrite app_nil_r.
Qed.

Lemma group_rows_present (rows : list Row) (r : Row) :
  r ∈ rows -> is_Some (dd_lookup (category_key r) (group_rows rows)).
Proof.
  induction rows as [|r' rows IH] using rev_ind; [by intros ?%elem_of_nil|].
  rewrite group_rows_snoc, dd_lookup_update.
  intros [Hin|Hin]%elem_of_app.
  - case_decide; [done|]. by apply IH.
  - apply list_elem_of_singleton in Hin as ->. by rewrite decide_True.
Qed.

Lemma group_rows_elem (rows : list Row) (c : pystr) (items : list Item) :
  (c, items) ∈ group_rows rows <-> dd_lookup c (group_rows rows) = Some items.
Proof.
  split; [apply dd_lookup_elem, group_rows_NoDup|apply dd_lookup_Some].
Qed.

Lemma group_rows_elem_items (rows : list Row) (c : pystr) (items : list Item) :
  (c, items) ∈ group_rows rows -> items = item_of_row <$> rows_in c rows.
Proof.
  intros H%group_rows_elem. by rewrite <- group_rows_items, H.
Qed.

(** *** The summary *)

Lemma mean_nonempty (l : list pyfloat) : l <> [] -> mean l = Ok (py_mean l).
Proof. by destruct l. Qed.

Lemma avg_or_zero_ok (field : Item -> option pyfloat) (items : list Item) :
  exists x, avg_or_zero field items = Ok x.
Proof.
  unfold avg_or_zero.
  destruct (existsb _ items) eqn:E; [|by eexists].
  apply existsb_exists in E as (i & Hi & Hf).
  apply bool_decide_eq_true in Hf as [x Hx].
  rewrite mean_nonempty; [by eexists|].
  intros Hnil.
  assert (x ∈ omap field items) as Hin.
  { apply list_elem_of_omap. exists i. split; [by apply list_elem_of_In|done]. }
  rewrite Hnil in Hin. by apply elem_of_nil in Hin.
Qed.

Lemma rated_nonempty (items : list Item) :
  filter (fun i => is_Some (rating i)) items <> [] ->
  omap rating (filter (fun i => is_Some (rating i)) items) <> [].
Proof.
  destruct (filter _ items) as [|i l] eqn:E; [done|]. intros _.
  assert (i ∈ filter (fun i => is_Some (rating i)) items) as Hi.
  { rewrite E. by left. }
  apply list_elem_of_filter in Hi as [[x Hx] _].
  simpl. by rewrite Hx.
Qed.

(** What the body of the second loop does with one category. *)
Lemma summarise_cases (min_companies : nat) (c : pystr) (items : list Item) :
  let rated := filter (fun i => is_Some (rating i)) items in
  if decide (length items < min_companies)%nat
  then summarise min_companies c items = Ok None
  else if decide (rated = [])
  then summarise min_companies c items = Ok None
  else
    match int_of_float (py_sum (reviews <$> items)) with
    | Ok total =>
        exists e,
          summarise min_companies c items = Ok (Some e)
          /\ e_category e = c
          /\ e_count e = length items
          /\ e_avg_rating e = py_round (py_mean (omap rating rated)) 2
          /\ e_total_reviews e = total
    | Raised err =>
        summarise min_companies c items = Raised err /\ err <> StatisticsError
    end.
Proof.
  cbv zeta. unfold summarise.
  destruct (decide (length items < min_companies)%nat) as [Hlt|Hge].
  { apply Nat.ltb_lt in Hlt. by rewrite Hlt. }
  apply Nat.ltb_nlt in Hge. rewrite Hge.
  destruct (decide (filter (fun i => is_Some (rating i)) items = [])) as [Hnil|Hne].
  { rewrite Hnil. done. }
  rewrite bool_decide_eq_false_2 by done.
  rewrite mean_nonempty by by apply rated_nonempty.
  unfold mbind at 1, Res_bind at 1.
  destruct (py_sum (reviews <$> items)) as [q| | |]; simpl;
    try (split; [done|done]).
  destruct (avg_or_zero_ok loyalty items) as [x1 ->].
  destruct (avg_or_zero_ok response items) as [x2 ->].
  destruct (avg_or_zero_ok resolved items) as [x3 ->].
  simpl. eexists. split; [reflexivity|]. done.
Qed.

Lemma summarise_Some (min_companies : nat) (c : pystr) (items : list Item)
    (e : Entry) :
  summarise min_companies c items = Ok (Some e) ->
  e_category e = c
  /\ e_count e = length items
  /\ (min_companies <= length items)%nat
  /\ (exists i, i ∈ items /\ is_Some (rating i))
  /\ exists ratings,
       ratings <> [] /\ e_avg_rating e = py_round (py_mean ratings) 2.
Proof.
  intros H. pose proof (summarise_cases min_companies c items) as Hc.
  cbv zeta in Hc.
  destruct (decide (length items < min_companies)%nat); [congruence|].
  destruct (decide (filter (fun i => is_Some (rating i)) items = []))
    as [|Hne]; [congruence|].
  destruct (int_of_float _) as [total|err].
  - destruct Hc as (e' & He' & Hcat & Hcount & Havg & _).
    assert (e' = e) as -> by congruence.
    split_and!; [done|done|lia| |].
    + destruct (filter (fun i => is_Some (rating i)) items) as [|i l] eqn:E; [done|].
      assert (i ∈ filter (fun i => is_Some (rating i)) items) as Hi.
      { rewrite E. by left. }
      apply list_elem_of_filter in Hi as [? ?]. by exists i.
    + eexists. split; [|exact Havg]. by apply rated_nonempty.
  - destruct Hc as [Hc _]. congruence.
Qed.

Lemma summarise_kept (min_companies : nat) (c : pystr) (items : list Item)
    (o : option Entry) :
  summarise min_companies c items = Ok o ->
  (min_companies <= length items)%nat ->
  (exists i, i ∈ items /\ is_Some (rating i)) ->
  exists e, o = Some e /\ e_category e = c /\ e_count e = length items.
Proof.
  intros H Hlen (i & Hi & Hr).
  pose proof (summarise_cases min_companies c items) as Hc. cbv zeta in Hc.
  destruct (decide (length items < min_companies)%nat); [lia|].
  destruct (decide (filter (fun i => is_Some (rating i)) items = []))
    as [Hnil|Hne].
  { exfalso. eapply (filter_nil_not_elem_of _ _ i); [exact Hnil|done|done]. }
  destruct (int_of_float _) as [total|err].
  - destruct Hc as (e & He & Hcat & Hcount & _).
    exists e. split; [congruence|done].
  - destruct Hc as [Hc _]. congruence.
Qed.

Lemma summarise_no_statistics_error (min_companies : nat) (c : pystr)
    (items : list Item) :
  summarise min_companies c items <> Raised StatisticsError.
Proof.
  pose proof (summarise_cases min_companies c items) as Hc. cbv zeta in Hc.
  destruct (decide (length items < min_companies)%nat); [congruence|].
  destruct (decide (filter (fun i => is_Some (rating i)) items = []));
    [congruence|].
  destruct (int_of_float _) as [total|err].
  - destruct Hc as (e & He & _). congruence.
  - destruct Hc as [Hc Hne]. congruence.
Qed.

Lemma summarise_all_elem (min_companies : nat) (cats : list (pystr * list Item))
    (summary : list Entry) (e : Entry) :
  summarise_all min_companies cats = Ok summary ->
  e ∈ summary ->
  exists c items,
    (c, items) ∈ cats /\ summarise min_companies c items = Ok (Some e).
Proof.
  revert summary. induction cats as [|[c items] cats IH]; intros summary; simpl.
  - intros [= <-] ?%elem_of_nil. done.
  - unfold mbind, Res_bind.
    destruct (summarise min_companies c items) as [o|] eqn:Es; [|done].
    destruct (summarise_all min_companies cats) as [rest|] eqn:Er; [|done].
    intros [= <-] He.
    assert (e ∈ rest -> exists c0 items0,
              (c0, items0) ∈ (c, items) :: cats
              /\ summarise min_companies c0 items0 = Ok (Some e)) as Hrest.
    { intros Hin. destruct (IH rest eq_refl Hin) as (c0 & i0 & H0 & H1).
      exists c0, i0. split; [by right|done]. }
    destruct o as [e0|]; [|by apply Hrest].
    apply elem_of_cons in He as [->|He]; [|by apply Hrest].
    exists c, items. split; [by left|done].
Qed.

Lemma summarise_all_kept (min_companies : nat) (cats : list (pystr * list Item))
    (summary : list Entry) (c : pystr) (items : list Item) :
  summarise_all min_companies cats = Ok summary ->
  (c, items) ∈ cats ->
  (min_companies <= length items)%nat ->
  (exists i, i ∈ items /\ is_Some (rating i)) ->
  exists e, e ∈ summary /\ e_category e = c /\ e_count e = length items.
Proof.
  revert summary. induction cats as [|[c0 items0] cats IH]; intros summary; simpl.
  - intros _ ?%elem_of_nil. done.
  - unfold mbind, Res_bind.
    destruct (summarise min_companies c0 items0) as [o|] eqn:Es; [|done].
    destruct (summarise_all min_companies cats) as [rest|] eqn:Er; [|done].
    intros [= <-] [Heq|Hin]%elem_of_cons Hlen Hr.
    + injection Heq as <- <-.
      destruct (summarise_kept _ _ _ _ Es Hlen Hr) as (e & -> & Hc & Hn).
      exists e. split; [by left|done].
    + destruct (IH rest eq_refl Hin Hlen Hr) as (e & He & Hc & Hn).
      exists e. split; [|done]. destruct o; [by right|done].
Qed.

Lemma summarise_all_no_statistics_error (min_companies : nat)
    (cats : list (pystr * list Item)) :
  summarise_all min_companies cats <> Raised StatisticsError.
Proof.
  induction cats as [|[c items] cats IH]; simpl; [done|].
  unfold mbind, Res_bind.
  pose proof (summarise_no_statistics_error min_companies c items) as Hs.
  destruct (summarise min_companies c items) as [o|err]; [|congruence].
  destruct (summarise_all min_companies cats) as [rest|err]; [done|congruence].
Qed.

(** *** Sorting and the counts of chart 1 *)

Lemma insert_sorted_elem {A} (before : A -> A -> bool) (x y : A) (l : list A) :
  x ∈ insert_sorted before y l <-> x = y \/ x ∈ l.
Proof.
  induction l as [|z l IH]; simpl.
  - rewrite list_elem_of_singleton, elem_of_nil. tauto.
  - destruct (before y z).
    + by rewrite elem_of_cons.
    + rewrite !elem_of_cons, IH. tauto.
Qed.

Lemma sorted_elem {A} (before : A -> A -> bool) (x : A) (l : list A) :
  x ∈ sorted before l <-> x ∈ l.
Proof.
  induction l as [|y l IH]; simpl; [done|].
  by rewrite insert_sorted_elem, elem_of_cons, IH.
Qed.

Lemma insert_sorted_length {A} (before : A -> A -> bool) (y : A) (l : list A) :
  length (insert_sorted before y l) = S (length l).
Proof.
  induction l as [|z l IH]; simpl; [done|].
  destruct (before y z); simpl; [done|]. by rewrite IH.
Qed.

Lemma sorted_length {A} (before : A -> A -> bool) (l : list A) :
  length (sorted before l) = length l.
Proof.
  induction l as [|y l IH]; simpl; [done|].
  by rewrite insert_sorted_length, IH.
Qed.

Lemma chart_01_counts_snoc (rows : list Row) (r : Row) :
  chart_01_counts (rows ++ [r])
  = dd_update 0%nat S (category_key r) (chart_01_counts rows).
Proof. unfold chart_01_counts. by rewrite foldl_snoc. Qed.

Lemma chart_01_counts_NoDup (rows : list Row) : NoDup (chart_01_counts rows).*1.
Proof.
  induction rows as [|r rows IH] using rev_ind; [constructor|].
  rewrite chart_01_counts_snoc. by apply dd_update_NoDup.
Qed.

Lemma chart_01_counts_count (rows : list Row) (c : pystr) :
  default 0%nat (dd_lookup c (chart_01_counts rows)) = length (rows_in c rows).
Proof.
  unfold rows_in.
  induction rows as [|r rows IH] using rev_ind; [done|].
  rewrite chart_01_counts_snoc, dd_lookup_update, filter_app, length_app.
  destruct (decide (category_key r = c)) as [Heq|Hne].
  - rewrite (filter_cons_True _ r []) by done. simpl. rewrite <- IH, Heq. lia.
  - rewrite (filter_cons_False _ r []) by done. simpl. lia.
Qed.

Lemma chart_01_counts_present (rows : list Row) (r : Row) :
  r ∈ rows ->
  (category_key r, length (rows_in (category_key r) rows)) ∈ chart_01_counts rows.
Proof.
  intros Hr. apply dd_lookup_Some.
  assert (is_Some (dd_lookup (category_key r) (chart_01_counts rows))) as [n Hn].
  { clear -Hr. induction rows as [|r' rows IH] using rev_ind;
      [by apply elem_of_nil in Hr|].
    rewrite chart_01_counts_snoc, dd_lookup_update.
    apply elem_of_app in Hr as [Hin|Hin].
    - case_decide; [done|]. by apply IH.
    - apply list_elem_of_singleton in Hin as ->. by rewrite decide_True. }
  rewrite <- chart_01_counts_count, Hn. done.
Qed.

(** *** The thresholds *)

Lemma most_reviewed_ok_finite (r : Row) (q : Q) :
  flt (r_total_reviews r) = Some (Finite q) ->
  most_reviewed_ok r = true <-> (10 <= q)%Q.
Proof.
  intros H. unfold most_reviewed_ok. rewrite H. simpl.
  rewrite andb_true_iff, negb_true_iff, Qle_bool_iff. split; [tauto|].
  intros Hq. split; [|done].
  destruct (Qeq_bool q 0) eqn:E; [|done].
  apply Qeq_bool_iff in E. rewrite E in Hq. by apply Qle_bool_iff in Hq.
Qed.

Lemma build_cat_stats_excluded (rows : list Row) (min_companies : nat)
    (summary : list Entry) (c : pystr) :
  build_cat_stats rows min_companies = Ok summary ->
  (length (rows_in c rows) < min_companies)%nat ->
  c ∉ e_category <$> summary.
Proof.
  intros Hb Hlt (e & -> & He)%list_elem_of_fmap.
  destruct (summarise_all_elem _ _ _ _ Hb He) as (c0 & items & Hin & Hs).
  apply summarise_Some in Hs as (Hc & _ & Hlen & _).
  apply group_rows_elem_items in Hin. subst items c0.
  rewrite length_fmap in Hlen. lia.
Qed.

Lemma build_cat_stats_included (rows : list Row) (min_companies : nat)
    (summary : list Entry) (c : pystr) :
  build_cat_stats rows min_companies = Ok summary ->
  (min_companies <= length (rows_in c rows))%nat ->
  (exists r, r ∈ rows_in c rows /\ is_Some (flt (r_overall_rating r))) ->
  exists e,
    e ∈ summary /\ e_category e = c /\ e_count e = length (rows_in c rows).
Proof.
  intros Hb Hlen (r & Hr & Hrated).
  assert (r ∈ rows /\ category_key r = c) as [Hin Hkey].
  { unfold rows_in in Hr. apply list_elem_of_filter in Hr. tauto. }
  destruct (group_rows_present rows r Hin) as [items Hitems].
  rewrite Hkey in Hitems.
  pose proof (group_rows_items rows c) as Hi. rewrite Hitems in Hi. simpl in Hi.
  destruct (summarise_all_kept min_companies (group_rows rows) summary c items)
    as (e & He & Hc & Hn).
  - exact Hb.
  - by apply dd_lookup_Some.
  - by rewrite Hi, length_fmap.
  - exists (item_of_row r). split; [|done].
    rewrite Hi. by apply list_elem_of_fmap_2.
  - exists e. by rewrite Hn, Hi, length_fmap.
Qed.

Lemma build_cat_stats_rated (rows : list Row) (min_companies : nat)
    (summary : list Entry) (e : Entry) :
  build_cat_stats rows min_companies = Ok summary ->
  e ∈ summary ->
  (exists r, r ∈ rows /\ category_key r = e_category e
             /\ is_Some (flt (r_overall_rating r)))
  /\ (exists ratings,
        ratings <> [] /\ e_avg_rating e = py_round (py_mean ratings) 2).
Proof.
  intros Hb He.
  destruct (summarise_all_elem _ _ _ _ Hb He) as (c & items & Hin & Hs).
  apply summarise_Some in Hs as (Hc & _ & _ & (i & Hi & Hr) & Havg).
  split; [|done].
  apply group_rows_elem_items in Hin. subst items.
  apply list_elem_of_fmap in Hi as (r & -> & Hrin).
  unfold rows_in in Hrin. apply list_elem_of_filter in Hrin as [Hkey Hrows].
  exists r. by rewrite Hc.
Qed.

(** C6 (amended): the summary built with minimum 5 has no entry for a
    category with fewer than 5 rows, and has an entry, with the count of
    its rows, for every category with 5 rows or more of which at least
    one has an [overall_rating] that parses.  In the most-reviewed
    selection a row whose [total_reviews] parses to a finite number [q] is
    left out when [q < 10] and is taken when [10 <= q]; every triple of
    [rated] comes from a row whose review count parses and is at least 10;
    and [top] takes its triples from [rated]. *)
Theorem threshold_spec (rows : list Row) :
  (forall summary c,
     build_cat_stats rows 5 = Ok summary ->
     ((length (rows_in c rows) < 5)%nat -> c ∉ e_category <$> summary)
     /\ ((5 <= length (rows_in c rows))%nat ->
         (exists r, r ∈ rows_in c rows /\ is_Some (flt (r_overall_rating r))) ->
         exists e,
           e ∈ summary /\ e_category e = c
           /\ e_count e = length (rows_in c rows)))
  /\ (forall r q,
        r ∈ rows ->
        flt (r_total_reviews r) = Some (Finite q) ->
        ((q < 10)%Q -> r ∉ filter (fun r => most_reviewed_ok r = true) rows)
        /\ ((10 <= q)%Q -> rated_entry r ∈ chart_07_rated rows))
  /\ (forall x,
        x ∈ chart_07_rated rows ->
        exists r v,
          r ∈ rows /\ x = rated_entry r
          /\ flt (r_total_reviews r) = Some v /\ float_ge_int v 10 = true)
  /\ (forall x, x ∈ chart_07_top rows -> x ∈ chart_07_rated rows).
Proof.
  split_and!.
  - intros summary c Hb. split.
    + by apply build_cat_stats_excluded.
    + by apply build_cat_stats_included.
  - intros r q Hr Hq. split.
    + intros Hlt [Hok _]%list_elem_of_filter.
      apply (most_reviewed_ok_finite r q Hq) in Hok. by apply Qlt_not_le in Hlt.
    + intros Hle. unfold chart_07_rated. apply list_elem_of_fmap_2.
      apply list_elem_of_filter. split; [|done].
      by apply (most_reviewed_ok_finite r q Hq).
  - intros x (r & -> & [Hok Hr]%list_elem_of_filter)%list_elem_of_fmap.
    unfold most_reviewed_ok in Hok.
    destruct (flt (r_total_reviews r)) as [v|] eqn:E; [|done].
    apply andb_true_iff in Hok as [_ Hge]. by exists r, v.
  - intros x Hx. unfold chart_07_top in Hx.
    apply elem_of_take in Hx as (i & Hx & _).
    apply list_elem_of_lookup_2 in Hx. by apply sorted_elem in Hx.
Qed.

(** C9: [build_cat_stats] never raises [StatisticsError]; and when it
    returns a summary, every entry of it is for a category with a row
    whose [overall_rating] parses, its [avg_rating] is the rounded mean of
    a non-empty sequence, and a category none of whose rows has a rating
    that parses has no entry, however many rows it has. *)
Theorem rated_categories_only (rows : list Row) (min_companies : nat) :
  build_cat_stats rows min_companies <> Raised StatisticsError
  /\ forall summary,
       build_cat_stats rows min_companies = Ok summary ->
       (forall e,
          e ∈ summary ->
          (exists r, r ∈ rows /\ category_key r = e_category e
                     /\ is_Some (flt (r_overall_rating r)))
          /\ (exists ratings,
                ratings <> []
                /\ e_avg_rating e = py_round (py_mean ratings) 2))
       /\ (forall c,
             (forall r, r ∈ rows -> category_key r = c ->
                        flt (r_overall_rating r) = None) ->
             c ∉ e_category <$> summary).
Proof.
  split; [apply summarise_all_no_statistics_error|].
  intros summary Hb. split.
  - intros e He. by eapply build_cat_stats_rated.
  - intros c Hnone (e & -> & He)%list_elem_of_fmap.
    destruct (build_cat_stats_rated _ _ _ _ Hb He) as [(r & Hr & Hk & [x Hx]) _].
    rewrite (Hnone r Hr Hk) in Hx. done.
Qed.

(** C10: a row whose category is empty or missing is filed under [Digər];
    in the grouping of [build_cat_stats] the list of a category holds one
    item for each row of it, and in the counts of chart 1 a category
    counts each row of it, so no such row is dropped; [Digər] has an entry
    in the summary when it has 5 rows or more, one of them with a rating
    that parses; and when the table has at most 15 categories, the bars of
    chart 1 hold the category of every row, with its count. *)
Theorem empty_category_grouped (rows : list Row) :
  (forall r,
     r_category r = None \/ r_category r = Some [] -> category_key r = Diger)
  /\ (forall c,
        default [] (dd_lookup c (group_rows rows)) = item_of_row <$> rows_in c rows)
  /\ (forall c,
        default 0%nat (dd_lookup c (chart_01_counts rows))
        = length (rows_in c rows))
  /\ (forall summary,
        build_cat_stats rows 5 = Ok summary ->
        (5 <= length (rows_in Diger rows))%nat ->
        (exists r, r ∈ rows_in Diger rows /\ is_Some (flt (r_overall_rating r))) ->
        exists e,
          e ∈ summary /\ e_category e = Diger
          /\ e_count e = length (rows_in Diger rows))
  /\ ((length (chart_01_counts rows) <= 15)%nat ->
      forall r,
        r ∈ rows ->
        (category_key r, length (rows_in (category_key r) rows))
        ∈ chart_01_data rows).
Proof.
  split_and!.
  - intros r [H|H]; unfold category_key; by rewrite H.
  - apply group_rows_items.
  - apply chart_01_counts_count.
  - intros summary Hb. by apply build_cat_stats_included.
  - intros Hlen r Hr. unfold chart_01_data.
    rewrite take_ge by (rewrite sorted_length; lia).
    apply sorted_elem. by apply chart_01_counts_present.
Qed.

End ChartProps.

Lemma parse_company_page_fetch_failure_witness :
  exists d w',
    @parse_company_page ascii_runtime (lit "acme") (start (fun _ _ => None))
    = (Ok d, w')
    /\ degraded_record (lit "acme") d.
Proof.
  apply (@parse_company_page_fetch_failure ascii_runtime).
  intros j _. reflexivity.
Defined.

(** On the sample page the row gives [star5_pct] the value [54.5]; the
    fallback, which offers [99.9] for every star field, leaves it alone. *)
Lemma star_rows_take_precedence_witness :
  exists d w',
    @parse_company_page eager_runtime (lit "acme")
      (start (fun _ _ => Some sample_star_page)) = (Ok d, w')
    /\ d !! "star5_pct" = Some (lit "54.5").
Proof.
  destruct (@star_rows_take_precedence eager_runtime (lit "acme")
              (start (fun _ _ => Some sample_star_page))
              (mkWorld (fun _ _ => Some sample_star_page) 1
                 [EvRequest (@profile_url (lit "acme"))])
              sample_star_page eq_refl) as (d & Hd & Hkeep & _).
  exists d, (mkWorld (fun _ _ => Some sample_star_page) 1
               [EvRequest (@profile_url (lit "acme"))]).
  split; [exact Hd|].
  rewrite (Hkeep "star5_pct"); [by vm_compute|by vm_compute].
Defined.

(** The same run, computed: the fallback fills the four other fields. *)
Example sample_star_page_run :
  match @parse_company_page eager_runtime (lit "acme")
          (start (fun _ _ => Some sample_star_page)) with
  | (Ok d, _) =>
      d !! "star5_pct" = Some (lit "54.5")
      /\ d !! "star4_pct" = Some (lit "99.9")
      /\ d !! "star1_pct" = Some (lit "99.9")
  | _ => False
  end.
Proof. vm_compute. done. Qed.


(** A run in which nothing but listing page 1 can be fetched still writes a
    row for the company found on that page. *)
Example main_detail_failure_run :
  let site (k : nat) (url : pystr) :=
    if (k =? 0)%nat then Some sample_listing_page else None in
  match @main ascii_runtime (start site) with
  | (Ok tt, w') =>
      match rows_written w' with
      | [row] =>
          row !! "slug" = Some (lit "acme")
          /\ row !! "name" = Some (lit "Acme")
          /\ row !! "founded" = Some []
      | _ => False
      end
  | _ => False
  end.
Proof. vm_compute. done. Qed.

(** C6 (refuted as stated), for both readings of "qualifying".  Counting
    all the companies of a category: under every runtime, the five
    companies of [unrated_table] are all of category [A] and the summary
    built with minimum 5 is empty, so a category with exactly 5 companies
    is not always included.  Counting the companies with a rating that
    parses: in [one_rated_table] category [A] has one of them, fewer than
    5, and the summary has an entry for [A]. *)
Lemma threshold_counterexample :
  (~ exists R : PyRuntime,
       forall (rows : list Row) (summary : list Entry) (c : pystr),
         build_cat_stats rows 5 = Ok summary ->
         length (rows_in c rows) = 5%nat ->
         c ∈ e_category <$> summary)
  /\ (~ forall (rows : list Row) (summary : list Entry) (c : pystr),
          @build_cat_stats ascii_runtime rows 5 = Ok summary ->
          (length (@rated_rows_in ascii_runtime c rows) < 5)%nat ->
          c ∉ e_category <$> summary).
Proof.
  split.
  - intros [R H].
    specialize (H unrated_table [] (lit "A") eq_refl eq_refl).
    by apply elem_of_nil in H.
  - intros H.
    destruct (@build_cat_stats ascii_runtime one_rated_table 5)
      as [summary|] eqn:E; [|by vm_compute in E].
    apply (H one_rated_table summary (lit "A") E).
    + vm_compute. lia.
    + vm_compute in E. injection E as <-. vm_compute. by left.
Qed.

(** The table of six [A] and three [B]: [B] is left out of the summary, and
    [A] has its six companies, their mean rating and their reviews. *)
Example build_cat_stats_sample :
  match @build_cat_stats ascii_runtime sample_table 5 with
  | Ok [e] =>
      e_category e = lit "A" /\ e_count e = 6%nat
      /\ e_avg_rating e = Finite (9 # 2) /\ e_total_reviews e = 390%Z
  | _ => False
  end.
Proof. vm_compute. done. Qed.

(** Companies with exactly 10 reviews are in the most-reviewed selection,
    companies with 9 are not. *)
Example chart_07_sample :
  (@chart_07_rated ascii_runtime sample_table).*1.*2
  = [Finite 10; Finite 10; Finite 10; Finite 120; Finite 120; Finite 120]
  /\ (@chart_07_top ascii_runtime sample_table).*1.*2
     = [Finite 120; Finite 120; Finite 120; Finite 10; Finite 10; Finite 10].
Proof. by vm_compute. Qed.

(** Companies without a category appear as [Digər] in the summary and in
    chart 1. *)
Example uncategorised_sample :
  match @build_cat_stats ascii_runtime uncategorised_table 5 with
  | Ok [e] => e_category e = Diger /\ e_count e = 5%nat
  | _ => False
  end
  /\ @chart_01_data uncategorised_table = [(Diger, 5%nat)].
Proof. by vm_compute. Qed.

(** The deduplication on a listing in which [a] comes twice: the first
    stub of [a] is kept, in its place. *)
Example dedup_sample :
  dedup [ mkStub (lit "a") (lit "first") [] [] [];
          mkStub (lit "b") [] [] [] [];
          mkStub (lit "a") (lit "second") [] [] [] ]
  = [ mkStub (lit "a") (lit "first") [] [] [];
      mkStub (lit "b") [] [] [] [] ].
Proof. by vm_compute. Qed.

(** The backfill on a record with a name and no category: the name of the
    detail page stays, the category comes from the listing. *)
Example backfill_sample :
  let detail := <["name" := lit "Acme LLC"]> (initial_record (lit "acme") []) in
  let stub := mkStub (lit "acme") (lit "Acme") (lit "Banks") (lit "4.5") (lit "12") in
  backfill detail stub !! "name" = Some (lit "Acme LLC")
  /\ backfill detail stub !! "category" = Some (lit "Banks")
  /\ backfill detail stub !! "total_reviews" = Some (lit "12")
  /\ backfill detail stub !! "founded" = Some [].
Proof. by vm_compute. Qed.

(** Three failed attempts: two sleeps, of one and of two seconds, and none
    after the third attempt; one failed attempt and a success: one sleep. *)
Example get_sample :
  let u := lit "https://www.bildir.az/acme/" in
  get u (start (fun _ _ => None))
  = (Ok None,
     mkWorld (fun _ _ => None) 3
       [ EvRequest u; EvLog WARNING "Attempt %d/%d failed for %s: %s";
         EvSleep (REQUEST_DELAY * 1);
         EvRequest u; EvLog WARNING "Attempt %d/%d failed for %s: %s";
         EvSleep (REQUEST_DELAY * 2);
         EvRequest u; EvLog WARNING "Attempt %d/%d failed for %s: %s";
         EvLog ERROR "Giving up on %s" ])
  /\ io_events
       (events (get u (start (fun k _ =>
                                if (k =? 0)%nat then None else Some empty_node))).2)
     = [EvRequest u; EvSleep (REQUEST_DELAY * 1); EvRequest u].
Proof. split; reflexivity. Qed.

(** [_pct] on the texts of star rows, with and without the percent sign. *)
Example pct_samples :
  @_pct ascii_runtime (lit "5 ulduz 54,5%") = lit "54.5"
  /\ @_pct ascii_runtime (lit "22,7 %") = lit "22.7"
  /\ @_pct ascii_runtime (lit "4 ulduz") = lit "4"
  /\ @_pct ascii_runtime (lit "ulduz") = [].
Proof. by vm_compute. Qed.

(** * Further properties *)

(** ** Pagination *)

Section PaginationProps.
Context {R : PyRuntime}.

Lemma decimal_value_digit (c : N) :
  is_digit c = true <-> is_Some (decimal_value c).
Proof.
  unfold is_digit, decimal_value.
  destruct (is_ascii_digit c); [done|]. simpl.
  destruct (printable_ascii c); simpl.
  - split; [done|]. by intros [? ?].
  - apply bool_decide_eq_true.
Qed.

Lemma int_fold_None (s : pystr) :
  foldl (fun acc c => n ← acc; d ← decimal_value c; Some (10 * n + d)%N) None s
  = None.
Proof. by induction s. Qed.

Lemma int_fold_Some (s : pystr) (acc : N) :
  is_Some (foldl (fun acc c => n ← acc; d ← decimal_value c;
                              Some (10 * n + d)%N) (Some acc) s)
  <-> Forall (fun c => is_digit c = true) s.
Proof.
  revert acc. induction s as [|c s IH]; intros acc; simpl.
  - split; [constructor|done].
  - rewrite Forall_cons, decimal_value_digit.
    destruct (decimal_value c) as [d|]; simpl.
    + rewrite IH. split; [done|tauto].
    + rewrite int_fold_None. split; [by intros [? ?]|by intros [[? ?] _]].
Qed.

(** [int] accepts exactly the texts of decimal digits within the limit. *)
Lemma int_of_digits_Some (s : pystr) :
  is_Some (int_of_digits s)
  <-> exceeds_int_limit s = false /\ Forall (fun c => is_digit c = true) s.
Proof.
  unfold int_of_digits. destruct (exceeds_int_limit s).
  - split; [by intros [? ?]|by intros [? _]].
  - rewrite int_fold_Some. tauto.
Qed.

Lemma int_of_digits_None (s : pystr) :
  int_of_digits s = None
  <-> exceeds_int_limit s = true \/ ~ Forall (fun c => is_digit c = true) s.
Proof.
  pose proof (int_of_digits_Some s) as H.
  destruct (int_of_digits s) as [n|].
  - assert (is_Some (Some n)) as Hn by done. apply H in Hn as [-> Hd].
    split; [done|]. by intros [?|?].
  - split; [|done]. intros _.
    destruct (exceeds_int_limit s); [by left|]. right.
    intros Hd. by destruct (proj2 H (conj eq_refl Hd)).
Qed.

Lemma match_page_at_digits (s g : pystr) :
  match_page_at s = Some g -> Forall (fun c => is_digit c = true) g.
Proof.
  unfold match_page_at. case_bool_decide; [|done].
  destruct (span is_digit (drop 5 s)) as [|n] eqn:E; [done|].
  intros [= <-]. apply span_take_Forall. lia.
Qed.

(** A pagination link raises exactly when its page number has more digits
    than [int] converts. *)
Lemma link_page_raised (tag : Node) (e : Exn) :
  link_page tag = Raised e
  <-> e = ValueError
      /\ exists g,
           re_search match_page_at (attr_or_empty tag "href") = Some g
           /\ exceeds_int_limit g = true.
Proof.
  unfold link_page.
  destruct (re_search match_page_at _) as [g|] eqn:E.
  - pose proof E as (s' & _ & Hm%match_page_at_digits)%re_search_Some.
    pose proof (int_of_digits_None g) as Hn.
    destruct (int_of_digits g) as [n|].
    + split; [done|]. intros (_ & g' & [= <-] & Hg).
      by pose proof (proj2 Hn (or_introl Hg)).
    + destruct (proj1 Hn eq_refl) as [Hg|Hg]; [|done].
      split.
      * intros [= <-]. split; [done|]. by exists g.
      * by intros [-> _].
  - split; [done|]. by intros (_ & g & ? & _).
Qed.

(** A pagination item raises exactly when its text passes [str.isdigit]
    and [int] rejects it. *)
Lemma item_page_raised (tag : Node) (e : Exn) :
  item_page tag = Raised e
  <-> e = ValueError
      /\ get_text_strip tag <> []
      /\ forallb isdigit_char (get_text_strip tag) = true
      /\ (exceeds_int_limit (get_text_strip tag) = true
          \/ ~ Forall (fun c => is_digit c = true) (get_text_strip tag)).
Proof.
  unfold item_page. cbv zeta.
  pose proof (int_of_digits_None (get_text_strip tag)) as Hn.
  destruct (get_text_strip tag) as [|c txt] eqn:Et.
  { simpl. split; [done|]. by intros (_ & ? & _). }
  change (truthy (c :: txt)) with true. rewrite andb_true_l.
  destruct (forallb isdigit_char (c :: txt)) eqn:Ef.
  - destruct (int_of_digits (c :: txt)) as [n|].
    + split; [done|]. intros (_ & _ & _ & H). by apply Hn in H.
    + split.
      * intros [= <-]. split_and!; [done..|]. by apply Hn.
      * by intros [-> _].
  - split; [done|]. by intros (_ & _ & ? & _).
Qed.

Lemma max_page_step_raised (page : Node -> Res (option N)) (tags : list Node)
    (e : Exn) :
  foldl (max_page_step page) (Raised e) tags = Raised e.
Proof. by induction tags. Qed.

(** What the two loops compute, over an arbitrary [page]. *)
Lemma max_fold_spec (page : Node -> Res (option N)) (tags : list Node) (m : N) :
  match foldl (max_page_step page) (Ok m) tags with
  | Ok n =>
      (m <= n)%N
      /\ (forall tag p, tag ∈ tags -> page tag = Ok (Some p) -> (p <= n)%N)
      /\ (n = m \/ exists tag, tag ∈ tags /\ page tag = Ok (Some n))
      /\ (forall tag, tag ∈ tags -> exists o, page tag = Ok o)
  | Raised e => exists tag, tag ∈ tags /\ page tag = Raised e
  end.
Proof.
  revert m. induction tags as [|tag tags IH]; intros m.
  - simpl. split_and!; [lia| |by left|];
      by intros ? ? ?%elem_of_nil || intros ? ?%elem_of_nil.
  - simpl. destruct (page tag) as [[p|]|e] eqn:Ep.
    + specialize (IH (N.max m p)).
      destruct (foldl (max_page_step page) (Ok (N.max m p)) tags) as [n|e].
      * destruct IH as (Hle & Hall & Hatt & Hok). split_and!.
        -- lia.
        -- intros tag' p' [->|Hin]%elem_of_cons Hp'; [|by eapply Hall].
           assert (p' = p) as -> by congruence. lia.
        -- destruct Hatt as [->|(tag' & Hin & Hn)].
           ++ destruct (N.max_spec m p) as [[_ ->]|[_ ->]].
              ** right. exists tag. split; [by left|done].
              ** by left.
           ++ right. exists tag'. split; [by right|done].
        -- intros tag' [->|Hin]%elem_of_cons; [by eexists|by apply Hok].
      * destruct IH as (tag' & Hin & He). exists tag'. split; [by right|done].
    + specialize (IH m).
      destruct (foldl (max_page_step page) (Ok m) tags) as [n|e].
      * destruct IH as (Hle & Hall & Hatt & Hok). split_and!; [done| | |].
        -- intros tag' p' [->|Hin]%elem_of_cons Hp'; [congruence|by eapply Hall].
        -- destruct Hatt as [->|(tag' & Hin & Hn)]; [by left|].
           right. exists tag'. split; [by right|done].
        -- intros tag' [->|Hin]%elem_of_cons; [by eexists|by apply Hok].
      * destruct IH as (tag' & Hin & He). exists tag'. split; [by right|done].
    + rewrite max_page_step_raised. exists tag. split; [by left|done].
Qed.

Lemma get_total_pages_unfold (soup : Node) :
  get_total_pages soup
  = foldl (max_page_step item_page)
          (foldl (max_page_step link_page) (Ok 1%N) (pagination_links soup))
          (pagination_items soup).
Proof.
  unfold get_total_pages, pagination_links, pagination_items.
  assert (forall (f g : Res N -> Node -> Res N) l a,
            (forall a x, f a x = g a x) -> foldl f a l = foldl g a l) as Hext.
  { intros f g l. induction l as [|x l IH]; intros a H; [done|].
    simpl. by rewrite H, IH. }
  erewrite (Hext _ (max_page_step item_page)); [f_equal; apply Hext|].
  - intros [m|e] tag; [|done]. unfold max_page_step, link_page.
    destruct (re_search match_page_at _); [|done].
    by destruct (int_of_digits _).
  - intros [m|e] tag; [|done]. unfold max_page_step, item_page. cbv zeta.
    destruct (truthy _ && forallb _ _); [|done].
    by destruct (int_of_digits _).
Qed.

(** The two loops, when the function returns or raises. *)
Lemma get_total_pages_cases (soup : Node) :
  match get_total_pages soup with
  | Ok n =>
      exists m,
        foldl (max_page_step link_page) (Ok 1%N) (pagination_links soup) = Ok m
        /\ foldl (max_page_step item_page) (Ok m) (pagination_items soup) = Ok n
  | Raised e =>
      (exists tag, tag ∈ pagination_links soup /\ link_page tag = Raised e)
      \/ (exists tag, tag ∈ pagination_items soup /\ item_page tag = Raised e)
  end.
Proof.
  rewrite get_total_pages_unfold.
  pose proof (max_fold_spec link_page (pagination_links soup) 1) as H1.
  destruct (foldl _ (Ok 1%N) (pagination_links soup)) as [m|e] eqn:E1.
  - pose proof (max_fold_spec item_page (pagination_items soup) m) as H2.
    destruct (foldl _ (Ok m) (pagination_items soup)) as [n|e] eqn:E2.
    + by exists m.
    + by right.
  - rewrite max_page_step_raised. by left.
Qed.

Lemma get_total_pages_pos (soup : Node) (n : N) :
  get_total_pages soup = Ok n -> (1 <= n)%N.
Proof.
  intros Hn. pose proof (get_total_pages_cases soup) as Hc.
  rewrite Hn in Hc. destruct Hc as (m & H1 & H2).
  pose proof (max_fold_spec link_page (pagination_links soup) 1) as S1.
  rewrite H1 in S1. destruct S1 as [Hle1 _].
  pose proof (max_fold_spec item_page (pagination_items soup) m) as S2.
  rewrite H2 in S2. destruct S2 as [Hle2 _]. lia.
Qed.

(** X1: when [get_total_pages] returns, its result is at least 1, at
    least every page number a pagination link or a pagination item shows,
    and is 1 or one of these page numbers. *)
Theorem get_total_pages_max (soup : Node) (n : N) :
  get_total_pages soup = Ok n ->
  (1 <= n)%N
  /\ (forall tag p,
        tag ∈ pagination_links soup -> link_page tag = Ok (Some p) -> (p <= n)%N)
  /\ (forall tag p,
        tag ∈ pagination_items soup -> item_page tag = Ok (Some p) -> (p <= n)%N)
  /\ (n = 1%N
      \/ (exists tag, tag ∈ pagination_links soup /\ link_page tag = Ok (Some n))
      \/ (exists tag, tag ∈ pagination_items soup /\ item_page tag = Ok (Some n))).
Proof.
  intros Hn. pose proof (get_total_pages_cases soup) as Hc.
  rewrite Hn in Hc. destruct Hc as (m & H1 & H2).
  pose proof (max_fold_spec link_page (pagination_links soup) 1) as S1.
  rewrite H1 in S1. destruct S1 as (Hle1 & Hall1 & Hatt1 & _).
  pose proof (max_fold_spec item_page (pagination_items soup) m) as S2.
  rewrite H2 in S2. destruct S2 as (Hle2 & Hall2 & Hatt2 & _).
  split_and!.
  - lia.
  - intros tag p Hin Hp. specialize (Hall1 tag p Hin Hp). lia.
  - done.
  - destruct Hatt2 as [->|Hitem]; [|by right; right].
    destruct Hatt1 as [->|Hlink]; [by left|by right; left].
Qed.

(** X2: the only exception [get_total_pages] raises is the [ValueError] of
    [int], and it raises exactly when [int] rejects a text it is given:
    the page number of a pagination link has more digits than the
    interpreter converts, or the text of a pagination item passes
    [str.isdigit] and has more digits than that or a character that is no
    decimal digit.  On every other page it returns. *)
Theorem get_total_pages_error (soup : Node) :
  (forall e, get_total_pages soup = Raised e -> e = ValueError)
  /\ ((exists e, get_total_pages soup = Raised e)
      <-> (exists tag g,
             tag ∈ pagination_links soup
             /\ re_search match_page_at (attr_or_empty tag "href") = Some g
             /\ exceeds_int_limit g = true)
          \/ (exists tag,
                tag ∈ pagination_items soup
                /\ get_text_strip tag <> []
                /\ forallb isdigit_char (get_text_strip tag) = true
                /\ (exceeds_int_limit (get_text_strip tag) = true
                    \/ ~ Forall (fun c => is_digit c = true)
                                (get_text_strip tag))))
  /\ ((exists n, get_total_pages soup = Ok n)
      \/ get_total_pages soup = Raised ValueError).
Proof.
  pose proof (get_total_pages_cases soup) as Hc.
  assert (forall e, get_total_pages soup = Raised e -> e = ValueError) as Hv.
  { intros e He. rewrite He in Hc.
    destruct Hc as [(tag & _ & Ht)|(tag & _ & Ht)].
    - by apply link_page_raised in Ht as [-> _].
    - by apply item_page_raised in Ht as [-> _]. }
  split; [exact Hv|]. split.
  - split.
    + intros [e He]. rewrite He in Hc.
      destruct Hc as [(tag & Hin & Ht)|(tag & Hin & Ht)].
      * apply link_page_raised in Ht as (_ & g & Hg & Hl).
        left. by exists tag, g.
      * apply item_page_raised in Ht as (_ & Hne & Hd & Hr).
        right. by exists tag.
    + intros Hbad.
      destruct (get_total_pages soup) as [n|e] eqn:Hn; [|by exists e].
      exfalso. destruct Hc as (m & H1 & H2).
      pose proof (max_fold_spec link_page (pagination_links soup) 1) as S1.
      rewrite H1 in S1. destruct S1 as (_ & _ & _ & Hok1).
      pose proof (max_fold_spec item_page (pagination_items soup) m) as S2.
      rewrite H2 in S2. destruct S2 as (_ & _ & _ & Hok2).
      destruct Hbad as [(tag & g & Hin & Hg & Hl)|(tag & Hin & Hne & Hd & Hr)].
      * destruct (Hok1 tag Hin) as [o Ho].
        assert (link_page tag = Raised ValueError) as Hr
          by (apply link_page_raised; split; [done|by exists g]).
        congruence.
      * destruct (Hok2 tag Hin) as [o Ho].
        assert (item_page tag = Raised ValueError) as Hr'
          by by apply item_page_raised.
        congruence.
  - destruct (get_total_pages soup) as [n|e] eqn:Hn; [left; by exists n|].
    right. by rewrite (Hv e).
Qed.

End PaginationProps.

(** On the sample page the links show 2 and 106 and the items 3: the total
    is 106. *)
Lemma get_total_pages_max_witness :
  @get_total_pages ascii_runtime sample_paged_listing = Ok 106%N
  /\ (1 <= 106)%N.
Proof.
  split; [reflexivity|].
  apply (@get_total_pages_max ascii_runtime sample_paged_listing 106 eq_refl).
Defined.

(** The item [²] passes [str.isdigit] and [int] rejects it. *)
Example get_total_pages_superscript :
  @get_total_pages superscript_runtime sample_superscript_listing
  = Raised ValueError.
Proof. reflexivity. Qed.

(** With the default limit of 4300 digits, a link to a page number of 4300
    digits is read and one of 4301 digits makes [int] raise. *)
Example get_total_pages_digit_limit :
  match @get_total_pages ascii_runtime (sample_long_link_listing 4300) with
  | Ok _ => True
  | Raised _ => False
  end
  /\ @get_total_pages ascii_runtime (sample_long_link_listing 4301)
     = Raised ValueError.
Proof. split; vm_compute; done. Qed.

(** ** Listing pages *)

Section ListingProps.
Context {R : PyRuntime}.

Lemma span_bound (p : N -> bool) (s : pystr) : (span p s <= length s)%nat.
Proof.
  induction s as [|c s IH]; simpl; [lia|]. destruct (p c); simpl; lia.
Qed.

Lemma span_all (p : N -> bool) (s : pystr) :
  Forall (fun c => p c = true) s -> span p s = length s.
Proof.
  induction 1 as [|c s Hc _ IH]; simpl; [done|]. by rewrite Hc, IH.
Qed.

Lemma span_app_keep (p : N -> bool) (h rest : pystr) :
  span p rest = 0%nat -> span p (h ++ rest) = span p h.
Proof.
  intros Hrest. induction h as [|c h IH]; simpl; [done|].
  destruct (p c); [by rewrite IH|done].
Qed.

Lemma span_head_stop (p : N -> bool) (c : N) (s : pystr) :
  p c = false -> span p (c :: s) = 0%nat.
Proof. intros H. simpl. by rewrite H. Qed.

Lemma not_slash (c : N) : c <> 47%N <-> (c =? 47)%N = false.
Proof. by rewrite N.eqb_neq. Qed.

Lemma last_segment_no_slash (s : pystr) : 47%N ∉ last_segment s.
Proof.
  unfold last_segment. rewrite elem_of_reverse. intros Hin.
  assert (Forall (fun c => negb (c =? 47)%N = true)
                 (take (span (fun c => negb (c =? 47)%N) (reverse s)) (reverse s)))
    as Hall by (by apply span_take_Forall).
  rewrite Forall_forall in Hall. specialize (Hall _ Hin). done.
Qed.

Lemma last_segment_id (seg : pystr) : 47%N ∉ seg -> last_segment seg = seg.
Proof.
  intros Hseg. unfold last_segment.
  rewrite span_all.
  - by rewrite take_ge, reverse_involutive.
  - apply Forall_reverse, Forall_forall. intros c Hc.
    apply negb_true_iff, not_slash. by intros ->.
Qed.

Lemma last_segment_app (a seg : pystr) :
  47%N ∉ seg -> last_segment (a ++ 47%N :: seg) = seg.
Proof.
  intros Hseg. unfold last_segment.
  rewrite reverse_app, reverse_cons, <- app_assoc.
  rewrite span_app_stop.
  - by rewrite take_app_length, reverse_involutive.
  - apply Forall_reverse, Forall_forall. intros c Hc.
    apply negb_true_iff, not_slash. by intros ->.
  - done.
Qed.

Lemma strip_slashes_mid (h seg : pystr) (n : nat) :
  seg <> [] -> 47%N ∉ seg ->
  strip_slashes (h ++ seg ++ replicate n 47%N)
  = drop (span (fun c => (c =? 47)%N) h) h ++ seg.
Proof.
  intros Hne Hseg. unfold strip_slashes. cbv zeta.
  set (p := fun c : N => (c =? 47)%N).
  assert (forall c, c ∈ seg -> p c = false) as Hp.
  { intros c Hc. apply not_slash. by intros ->. }
  rewrite span_app_keep.
  2:{ destruct seg as [|c seg]; [done|]. apply span_head_stop, Hp. by left. }
  rewrite drop_app_le by apply span_bound.
  set (h' := drop (span p h) h).
  rewrite !reverse_app, reverse_replicate, <- app_assoc.
  rewrite span_app_stop.
  - rewrite drop_app_length' by by rewrite length_replicate.
    by rewrite reverse_app, !reverse_involutive.
  - by apply Forall_replicate.
  - destruct (reverse seg) as [|c r] eqn:E.
    + apply (f_equal reverse) in E. rewrite reverse_involutive in E. done.
    + apply span_head_stop, Hp, elem_of_reverse. rewrite E. by left.
Qed.

Lemma slug_of_href (h0 slug : pystr) (n : nat) :
  slug <> [] -> 47%N ∉ slug ->
  last_segment (strip_slashes (h0 ++ [47%N] ++ slug ++ replicate n 47%N)) = slug.
Proof.
  intros Hne Hslug.
  rewrite (app_assoc h0), strip_slashes_mid by done.
  set (k := span _ _).
  destruct (decide (k <= length h0)%nat) as [Hle|Hgt].
  - rewrite drop_app_le by done. rewrite <- app_assoc. by apply last_segment_app.
  - rewrite drop_ge by (rewrite length_app; simpl; lia).
    by apply last_segment_id.
Qed.

Lemma replace_comma_no_comma (s : pystr) : 44%N ∉ replace_comma s.
Proof.
  unfold replace_comma. intros (c & Hc & _)%list_elem_of_fmap.
  destruct (N.eqb_spec c 44); [done|congruence].
Qed.

Lemma parse_anchor_wf (anchor : Node) (s : Stub) :
  parse_anchor anchor = Some s ->
  stub_slug s <> [] /\ (47%N ∉ stub_slug s) /\ (44%N ∉ stub_rating_listing s).
Proof.
  unfold parse_anchor. cbv zeta.
  set (slug := if truthy (attr_or_empty anchor "href") then _ else _).
  destruct (truthy slug) eqn:Et; simpl; [|done].
  intros [= <-]. simpl. split_and!.
  - by destruct slug.
  - subst slug. destruct (truthy (attr_or_empty anchor "href")); [|by apply not_elem_of_nil].
    apply last_segment_no_slash.
  - destruct (select_one anchor ".company-rating-number, .rating-number").
    + apply replace_comma_no_comma.
    + destruct (head _) as [t|] eqn:Eh; simpl; [|by apply not_elem_of_nil].
      apply head_Some_elem_of, list_elem_of_filter in Eh as [_ Hin].
      apply list_elem_of_fmap in Hin as (x & -> & _).
      apply replace_comma_no_comma.
Qed.

(** X3: every stub [parse_listing_page] returns has a slug that is not
    empty and has no slash, and a listing rating without a comma; and
    there are no more stubs than company anchors on the page. *)
Theorem parse_listing_page_wf (soup : Node) :
  Forall (fun s => stub_slug s <> [] /\ (47%N ∉ stub_slug s)
                   /\ (44%N ∉ stub_rating_listing s))
         (parse_listing_page soup)
  /\ (length (parse_listing_page soup)
      <= length (select soup "a.company-wrapper"))%nat.
Proof.
  unfold parse_listing_page. split.
  - apply Forall_forall. intros s Hs.
    apply list_elem_of_omap in Hs as (anchor & _ & Hs).
    by apply parse_anchor_wf in Hs.
  - induction (select soup "a.company-wrapper") as [|a l IH]; csimpl; [lia|].
    destruct (parse_anchor a); csimpl; lia.
Qed.

(** X4: an anchor whose [href] ends in a path segment without a slash,
    followed by any number of slashes, gives a stub whose slug is that
    segment; for the site-relative link [/slug/] the URL of the detail
    page is [BASE_URL] followed by the link. *)
Theorem anchor_slug (anchor : Node) (h0 slug : pystr) (n : nat) :
  slug <> [] -> 47%N ∉ slug ->
  attr anchor "href" = Some (h0 ++ [47%N] ++ slug ++ replicate n 47%N) ->
  exists stub,
    parse_anchor anchor = Some stub
    /\ stub_slug stub = slug
    /\ (h0 = [] -> n = 1%nat ->
        profile_url (stub_slug stub)
        = BASE_URL ++ h0 ++ [47%N] ++ slug ++ replicate n 47%N).
Proof.
  intros Hne Hslug Hhref.
  assert (attr_or_empty anchor "href" = h0 ++ [47%N] ++ slug ++ replicate n 47%N)
    as Ha by (unfold attr_or_empty; by rewrite Hhref).
  assert (truthy (h0 ++ [47%N] ++ slug ++ replicate n 47%N) = true) as Ht.
  { by destruct h0. }
  assert (truthy slug = true) as Hs by by destruct slug.
  unfold parse_anchor. cbv zeta.
  rewrite Ha, Ht, slug_of_href, Hs by done.
  simpl. eexists. split; [reflexivity|]. simpl. split; [done|].
  intros -> ->. done.
Qed.

End ListingProps.

Lemma anchor_slug_witness :
  exists stub,
    @parse_anchor ascii_runtime sample_anchor = Some stub
    /\ stub_slug stub = lit "acme"
    /\ @profile_url (stub_slug stub) = BASE_URL ++ lit "/acme/".
Proof.
  destruct (@anchor_slug ascii_runtime sample_anchor [] (lit "acme") 1)
    as (stub & Hs & Hslug & Hurl);
    [done|apply (bool_decide_unpack _); by vm_compute|reflexivity|].
  exists stub. split; [done|]. split; [done|]. by apply Hurl.
Defined.

(** ** The listing traversal on a site that answers *)

(** One step of a run: the next action is an [emit], a [log] or a [sleep]. *)
Ltac run_next :=
  first [ rewrite (bind_run _ _ _ _ _ (emit_run _ _))
        | rewrite (bind_run _ _ _ _ _ (log_run _ _ _))
        | rewrite (bind_run _ _ _ _ _ (sleep_run _ _)) ].

Section TraversalProps.
Context {R : PyRuntime}.

Lemma get_answers (url : pystr) (w : World) (pages : pystr -> Node) :
  always_answers w pages ->
  get url w
  = (Ok (Some (pages url)),
     mkWorld (net w) (S (requests w)) (events w ++ [EvRequest url])).
Proof. intros Ha. rewrite (get_cases url w). cbv zeta. by rewrite Ha. Qed.

Lemma collect_pages_answers (pl : list nat) (acc : list Stub) (w : World)
    (pages : pystr -> Node) :
  always_answers w pages ->
  exists w',
    collect_pages pl acc w
    = (Ok (acc ++ flat_map
                    (fun p => parse_listing_page (pages (page_url (N.of_nat p))))
                    pl), w')
    /\ net w' = net w
    /\ requests w' = (requests w + length pl)%nat.
Proof.
  revert acc w. induction pl as [|p pl IH]; intros acc w Ha.
  - exists w. simpl. rewrite app_nil_r. split_and!; [done|done|lia].
  - simpl. run_next.
    set (w1 := mkWorld _ _ _).
    assert (always_answers w1 pages) as Ha1 by exact Ha.
    rewrite (bind_run _ _ _ _ _ (get_answers _ _ pages Ha1)).
    run_next.
    set (w3 := mkWorld _ _ _).
    destruct (IH (acc ++ parse_listing_page (pages (page_url (N.of_nat p)))) w3)
      as (w' & Hc & Hn & Hr); [exact Ha|].
    exists w'. rewrite Hc, <- app_assoc. split_and!; [done|done|].
    rewrite Hr. subst w3 w1. simpl. lia.
Qed.

(** X5: on a site that answers every request, with a page that depends
    on the URL only, [collect_all_slugs] makes one request for each of the
    pages 1 to the total that page 1 shows, and returns the stubs of these
    pages, in the order of the pages. *)
Theorem collect_all_slugs_answers (w : World) (pages : pystr -> Node)
    (total : N) :
  always_answers w pages ->
  get_total_pages (pages (page_url 1)) = Ok total ->
  exists w',
    collect_all_slugs w
    = (Ok (flat_map
             (fun p => parse_listing_page (pages (page_url (N.of_nat p))))
             (seq 1 (N.to_nat total))), w')
    /\ requests w' = (requests w + N.to_nat total)%nat.
Proof.
  intros Ha Ht. pose proof (get_total_pages_pos _ _ Ht) as Hpos.
  unfold collect_all_slugs. run_next.
  set (w1 := mkWorld _ _ _).
  assert (always_answers w1 pages) as Ha1 by exact Ha.
  rewrite (bind_run _ _ _ _ _ (get_answers _ _ pages Ha1)).
  rewrite Ht. do 2 run_next.
  set (w3 := mkWorld _ _ _).
  destruct (collect_pages_answers (seq 2 (N.to_nat total - 1))
              (parse_listing_page (pages (page_url 1))) w3 pages)
    as (w4 & Hc & Hn & Hr); [exact Ha|].
  rewrite (bind_run _ _ _ _ _ Hc). run_next.
  eexists. split.
  - f_equal. f_equal.
    replace (N.to_nat total) with (S (N.to_nat total - 1)) at 2 by lia.
    done.
  - simpl. rewrite Hr, length_seq. subst w3 w1. simpl. lia.
Qed.

End TraversalProps.

(** On the sample site of three pages the traversal makes three requests
    and returns the companies of pages 1, 2 and 3, in this order. *)
Lemma collect_all_slugs_answers_witness :
  exists w',
    @collect_all_slugs ascii_runtime
      (start (fun _ url => Some (sample_site_page url)))
    = (Ok [mkStub (lit "p1") [] [] [] []; mkStub (lit "p2") [] [] [] [];
           mkStub (lit "p3") [] [] [] []], w')
    /\ requests w' = 3%nat.
Proof.
  destruct (@collect_all_slugs_answers ascii_runtime
              (start (fun _ url => Some (sample_site_page url)))
              sample_site_page 3)
    as (w' & Hc & Hr); [done|reflexivity|].
  exists w'. split; [|done].
  rewrite Hc. reflexivity.
Defined.

(** ** The shape of the records and of the output table *)

(** Proves that a literal key is in a list of literal keys. *)
Ltac literal_in := apply (bool_decide_unpack _); by vm_compute.

Section OutputProps.
Context {R : PyRuntime}.

Lemma extract_keys_fields (k : string) : k ∈ extract_keys -> k ∈ CSV_FIELDS.
Proof.
  unfold extract_keys. intros H.
  repeat (apply elem_of_cons in H as [->|H]; [literal_in|]).
  by apply elem_of_nil in H.
Qed.

Lemma star_keys_fields (k : string) : k ∈ star_keys.*2 -> k ∈ CSV_FIELDS.
Proof.
  unfold star_keys. simpl. intros H.
  repeat (apply elem_of_cons in H as [->|H]; [literal_in|]).
  by apply elem_of_nil in H.
Qed.

Lemma initial_record_keys (slug url : pystr) (k : string) :
  is_Some (initial_record slug url !! k) <-> k ∈ CSV_FIELDS.
Proof.
  split; [|apply initial_record_fields].
  intros Hk. destruct (decide (k ∈ CSV_FIELDS)) as [|Hnot]; [done|].
  exfalso. unfold initial_record in Hk.
  rewrite !lookup_insert_ne in Hk by (intros <-; apply Hnot; literal_in).
  rewrite not_elem_of_list_to_map_1 in Hk; [by destruct Hk|].
  by rewrite <- list_fmap_compose, list_fmap_id.
Qed.

Lemma extraction_keys soup (d : gmap string pystr) (k : string) :
  (is_Some (d !! k) <-> k ∈ CSV_FIELDS) ->
  is_Some (extract_star_fallback soup
             (extract_star_rows soup (extract_fields soup d)) !! k)
  <-> k ∈ CSV_FIELDS.
Proof.
  intros Hd. split.
  - intros Hk. destruct (decide (k ∈ CSV_FIELDS)) as [|Hnot]; [done|].
    apply Hd. revert Hk. unfold extract_star_fallback.
    rewrite star_fallback_other by (intros ?%star_keys_fields; done).
    rewrite extract_star_rows_other by (intros ?%star_keys_fields; done).
    by rewrite extract_fields_other by (intros ?%extract_keys_fields; done).
  - intros Hk.
    by apply extract_star_fallback_keeps, extract_star_rows_keeps,
      extract_fields_keeps, Hd.
Qed.

Lemma extraction_identity soup (d : gmap string pystr) (k : string) :
  k = "slug" \/ k = "profile_url" ->
  extract_star_fallback soup
    (extract_star_rows soup (extract_fields soup d)) !! k = d !! k.
Proof.
  intros Hk. unfold extract_star_fallback.
  rewrite star_fallback_other, extract_star_rows_other, extract_fields_other;
    [done|..]; destruct Hk as [-> | ->];
    unfold extract_keys, star_keys; simpl; literal_not_in.
Qed.

Lemma parse_company_page_shape (slug : pystr) (w : World) :
  exists d w',
    parse_company_page slug w = (Ok d, w')
    /\ (forall k, is_Some (d !! k) <-> k ∈ CSV_FIELDS)
    /\ d !! "slug" = Some slug
    /\ d !! "profile_url" = Some (profile_url slug)
    /\ net w' = net w
    /\ rows_written w' = rows_written w.
Proof.
  destruct (get_total (profile_url slug) w) as (r & w' & Hget & Hnet & Hrows).
  assert (initial_record slug (profile_url slug) !! "slug" = Some slug) as Hs.
  { unfold initial_record. by rewrite lookup_insert_ne, lookup_insert_eq. }
  assert (initial_record slug (profile_url slug) !! "profile_url"
          = Some (profile_url slug)) as Hp.
  { unfold initial_record. by rewrite lookup_insert_eq. }
  unfold parse_company_page. rewrite (bind_run _ _ _ _ _ Hget).
  destruct r as [soup|]; eexists _, w'; (split; [reflexivity|]); split_and!;
    try done.
  - intros k. apply extraction_keys, initial_record_keys.
  - rewrite extraction_identity by by left. done.
  - rewrite extraction_identity by by right. done.
  - apply initial_record_keys.
Qed.

(** X6: whatever the site answers, [parse_company_page] returns a record
    whose keys are exactly the fields of [CSV_FIELDS], in which [slug] is
    the slug it was given and [profile_url] is [BASE_URL/slug/]: the
    extraction never writes a key outside the schema and never overwrites
    these two. *)
Theorem parse_company_page_record (slug : pystr) (w : World) :
  exists d w',
    parse_company_page slug w = (Ok d, w')
    /\ (forall k, is_Some (d !! k) <-> k ∈ CSV_FIELDS)
    /\ d !! "slug" = Some slug
    /\ d !! "profile_url" = Some (BASE_URL ++ lit "/" ++ slug ++ lit "/").
Proof.
  destruct (parse_company_page_shape slug w) as (d & w' & H & Hk & Hs & Hp & _).
  by exists d, w'.
Qed.

Lemma backfill_keeps (d : gmap string pystr) (stub : Stub) (k : string) :
  is_Some (d !! k) -> is_Some (backfill d stub !! k).
Proof.
  intros Hd. unfold backfill.
  repeat first [done | apply insert_keeps | case_match].
Qed.

Lemma backfill_keys (d : gmap string pystr) (stub : Stub) :
  (forall k, is_Some (d !! k) <-> k ∈ CSV_FIELDS) ->
  forall k, is_Some (backfill d stub !! k) <-> k ∈ CSV_FIELDS.
Proof.
  intros Hd k. split; [|by intros ?%Hd%(backfill_keeps _ stub)].
  intros Hk.
  destruct (decide (k ∈ ["name"; "category"; "overall_rating"; "total_reviews"]))
    as [Hin|Hnot].
  - repeat (apply elem_of_cons in Hin as [->|Hin]; [literal_in|]).
    by apply elem_of_nil in Hin.
  - apply Hd. by rewrite <- (backfill_other d stub k).
Qed.

(** *** The decimal comma *)

Lemma insert_comma_free_other (d : gmap string pystr) (k : string) (v : pystr) :
  k ∉ decimal_fields -> comma_free d -> comma_free (<[k := v]> d).
Proof.
  intros Hk Hd k' Hk'. unfold getitem.
  rewrite lookup_total_insert_ne by (intros ->; done). by apply Hd.
Qed.

Lemma insert_comma_free_value (d : gmap string pystr) (k : string) (v : pystr) :
  44%N ∉ v -> comma_free d -> comma_free (<[k := v]> d).
Proof.
  intros Hv Hd k' Hk'. unfold getitem.
  destruct (decide (k = k')) as [->|Hne].
  - by rewrite lookup_total_insert_eq.
  - rewrite lookup_total_insert_ne by done. by apply Hd.
Qed.

Lemma foldl_comma_free {A} (step : gmap string pystr -> A -> gmap string pystr)
    (l : list A) (d : gmap string pystr) :
  (forall d x, comma_free d -> comma_free (step d x)) ->
  comma_free d -> comma_free (foldl step d l).
Proof.
  intros Hstep. revert d. induction l as [|x l IH]; intros d Hd; [done|].
  simpl. by apply IH, Hstep.
Qed.

Lemma pct_no_comma (s : pystr) : 44%N ∉ _pct s.
Proof.
  intros Hin. pose proof (pct_chars s) as Hc.
  rewrite Forall_forall in Hc. by destruct (Hc _ Hin) as [Hd|Hd].
Qed.

(** One step of a proof that an extraction keeps [comma_free]. *)
Ltac comma_free_step :=
  first [ assumption
        | apply insert_comma_free_value;
            [first [apply replace_comma_no_comma | apply pct_no_comma]|]
        | apply insert_comma_free_other; [unfold decimal_fields; literal_not_in|]
        | case_match ].

Lemma initial_record_comma_free (slug url : pystr) :
  comma_free (initial_record slug url).
Proof.
  intros k Hk. unfold decimal_fields in Hk. unfold getitem, initial_record.
  repeat (apply elem_of_cons in Hk as [->|Hk];
          [rewrite !lookup_total_insert_ne by done;
           apply (not_elem_of_nil (A:=N))|]).
  by apply elem_of_nil in Hk.
Qed.

Lemma extract_fields_comma_free soup (d : gmap string pystr) :
  comma_free d -> comma_free (extract_fields soup d).
Proof.
  intros Hd. unfold extract_fields.
  assert (comma_free (extract_name soup d)) as H1.
  { unfold extract_name. repeat comma_free_step. }
  assert (comma_free (extract_founded soup (extract_name soup d))) as H2.
  { unfold extract_founded. repeat comma_free_step. }
  set (d2 := extract_founded soup (extract_name soup d)) in *.
  assert (comma_free (extract_website soup d2)) as H3.
  { unfold extract_website. cbv zeta. repeat comma_free_step. }
  set (d3 := extract_website soup d2) in *.
  assert (comma_free (extract_social soup d3)) as H4.
  { unfold extract_social. cbn [foldl]. unfold social_step.
    repeat comma_free_step. }
  set (d4 := extract_social soup d3) in *.
  assert (comma_free (extract_rating soup d4)) as H5.
  { unfold extract_rating. cbv zeta. repeat comma_free_step. }
  set (d5 := extract_rating soup d4) in *.
  unfold extract_stats. cbv zeta. cbn [foldl]. unfold stat_step.
  repeat comma_free_step.
Qed.

Lemma extract_star_rows_comma_free soup (d : gmap string pystr) :
  comma_free d -> comma_free (extract_star_rows soup d).
Proof.
  unfold extract_star_rows. apply foldl_comma_free.
  intros d' row Hd'. unfold star_row_step. cbv zeta.
  repeat comma_free_step.
Qed.

Lemma extract_star_fallback_comma_free soup (d : gmap string pystr) :
  comma_free d -> comma_free (extract_star_fallback soup d).
Proof.
  unfold extract_star_fallback. apply foldl_comma_free.
  intros d' [star_n col] Hd'. unfold star_fallback_step.
  repeat comma_free_step.
Qed.

Lemma backfill_comma_free (d : gmap string pystr) (stub : Stub) :
  44%N ∉ stub_rating_listing stub -> comma_free d -> comma_free (backfill d stub).
Proof.
  intros Hs Hd. unfold backfill.
  repeat first [ assumption
               | apply insert_comma_free_value; [exact Hs|]
               | apply insert_comma_free_other;
                   [unfold decimal_fields; literal_not_in|]
               | case_match ].
Qed.

Lemma parse_company_page_shape_comma (slug : pystr) (w : World) :
  exists d w',
    parse_company_page slug w = (Ok d, w') /\ comma_free d.
Proof.
  destruct (get_total (profile_url slug) w) as (r & w' & Hget & _).
  unfold parse_company_page. rewrite (bind_run _ _ _ _ _ Hget).
  destruct r as [soup|]; eexists _, w'; (split; [reflexivity|]).
  - apply extract_star_fallback_comma_free, extract_star_rows_comma_free,
      extract_fields_comma_free, initial_record_comma_free.
  - apply initial_record_comma_free.
Qed.

(** What a written row is to the stub it was scraped for. *)
Lemma scrape_one_shape (stub : Stub) (w : World) :
  exists row w',
    scrape_one stub w = (Ok tt, w')
    /\ net w' = net w
    /\ rows_written w' = rows_written w ++ [row]
    /\ row !! "slug" = Some (stub_slug stub)
    /\ (forall k, is_Some (row !! k) <-> k ∈ CSV_FIELDS)
    /\ (44%N ∉ stub_rating_listing stub -> comma_free row).
Proof.
  unfold scrape_one. run_next.
  set (w1 := mkWorld _ _ _).
  destruct (parse_company_page_shape (stub_slug stub) w1)
    as (d & w2 & Hp & Hkeys & Hslug & _ & Hnet & Hrows).
  destruct (parse_company_page_shape_comma (stub_slug stub) w1)
    as (d' & w2' & Hp' & Hcomma).
  rewrite Hp in Hp'. injection Hp' as <- <-.
  rewrite (bind_run _ _ _ _ _ Hp). do 2 run_next.
  rewrite sleep_run. simpl.
  eexists _, _. split; [reflexivity|]. simpl. split_and!; [done| | | |].
  - rewrite !rows_written_snoc. simpl. rewrite !app_nil_r.
    f_equal. destruct w2 as [n2 r2 e2]. simpl in *.
    change (rows_written (mkWorld n2 r2 e2) = rows_written w).
    rewrite Hrows. subst w1. by rewrite rows_written_snoc, app_nil_r.
  - rewrite backfill_other; [done|]. literal_not_in.
  - by apply backfill_keys.
  - intros Hs. by apply backfill_comma_free.
Qed.

Lemma for_each_shape (stubs : list Stub) (w : World) :
  exists rows w',
    for_each stubs scrape_one w = (Ok tt, w')
    /\ rows_written w' = rows_written w ++ rows
    /\ Forall2 (fun row stub =>
                  row !! "slug" = Some (stub_slug stub)
                  /\ (forall k, is_Some (row !! k) <-> k ∈ CSV_FIELDS)
                  /\ (44%N ∉ stub_rating_listing stub -> comma_free row))
               rows stubs.
Proof.
  revert w. induction stubs as [|stub stubs IH]; intros w.
  - exists [], w. simpl. by rewrite app_nil_r.
  - destruct (scrape_one_shape stub w)
      as (row & w1 & H1 & _ & Hr1 & Hs1 & Hk1 & Hc1).
    destruct (IH w1) as (rows & w2 & H2 & Hr2 & Hs2).
    exists (row :: rows), w2. simpl.
    rewrite (bind_run _ _ _ _ _ H1). split; [done|].
    split; [|by constructor].
    by rewrite Hr2, Hr1, <- app_assoc.
Qed.

Lemma collect_pages_forall (P : Stub -> Prop) (pl : list nat) (acc : list Stub)
    (w : World) :
  (forall soup, Forall P (parse_listing_page soup)) ->
  Forall P acc ->
  exists stubs w',
    collect_pages pl acc w = (Ok stubs, w') /\ Forall P stubs.
Proof.
  intros HP. revert acc w. induction pl as [|p pl IH]; intros acc w Hacc.
  - by exists acc, w.
  - simpl. run_next.
    set (w1 := mkWorld _ _ _).
    destruct (get_total (page_url (N.of_nat p)) w1) as (r & w2 & Hg & _).
    rewrite (bind_run _ _ _ _ _ Hg). run_next.
    destruct r as [soup|]; apply IH; [|done].
    apply Forall_app. by split.
Qed.

Lemma collect_all_slugs_forall (P : Stub -> Prop) (w : World) :
  (forall soup, Forall P (parse_listing_page soup)) ->
  forall res w',
    collect_all_slugs w = (res, w') ->
    match res with
    | Ok stubs => Forall P stubs
    | Raised _ => True
    end.
Proof.
  intros HP res w'. unfold collect_all_slugs. run_next.
  set (w1 := mkWorld _ _ _).
  destruct (get_total (page_url 1) w1) as (r & w2 & Hg & _).
  rewrite (bind_run _ _ _ _ _ Hg).
  destruct r as [soup|].
  - destruct (get_total_pages soup) as [total|e].
    + do 2 run_next.
      set (w3 := mkWorld _ _ _).
      destruct (collect_pages_forall P (seq 2 (N.to_nat total - 1))
                  (parse_listing_page soup) w3 HP (HP soup))
        as (stubs & w4 & Hc & Hall).
      rewrite (bind_run _ _ _ _ _ Hc). run_next.
      by intros [= <- _].
    + unfold raise. by intros [= <- _].
  - run_next. intros [= <- _]. constructor.
Qed.

Lemma parse_listing_page_slugs (soup : Node) :
  Forall (fun s => stub_slug s <> []) (parse_listing_page soup).
Proof.
  unfold parse_listing_page. apply Forall_forall. intros s Hs.
  apply list_elem_of_omap in Hs as (anchor & _ & Hs).
  by apply parse_anchor_wf in Hs as [? _].
Qed.

Lemma main_rows_shape (w : World) :
  exists res w1 out w' rows,
    listing_outcome w = (res, w1)
    /\ main w = (out, w')
    /\ rows_written w' = rows_written w ++ rows
    /\ match res with
       | Ok stubs =>
           Forall2 (fun row stub =>
                      row !! "slug" = Some (stub_slug stub)
                      /\ (forall k, is_Some (row !! k) <-> k ∈ CSV_FIELDS)
                      /\ (44%N ∉ stub_rating_listing stub -> comma_free row))
                   rows (dedup stubs)
       | Raised e => rows = []
       end.
Proof.
  unfold listing_outcome, main. run_next. rewrite emit_run. cbn [snd].
  set (w0 := mkWorld _ _ _).
  assert (rows_written w0 = rows_written w) as Hr0.
  { subst w0. destruct w. by rewrite rows_written_snoc, app_nil_r. }
  destruct (collect_all_slugs_spec w0) as (res & w1 & Hc & Hr1 & _).
  exists res, w1.
  destruct res as [stubs|e].
  - rewrite (bind_run _ _ _ _ _ Hc).
    destruct (bool_decide (stubs = [])) eqn:Eb.
    + apply bool_decide_eq_true in Eb as ->.
      rewrite log_run.
      eexists _, _, []. split; [done|]. split; [reflexivity|].
      split; [|constructor].
      destruct w1. simpl. rewrite rows_written_snoc, !app_nil_r. simpl in *.
      congruence.
    + do 3 run_next.
      set (w2 := mkWorld _ _ _).
      assert (rows_written w2 = rows_written w) as Hr2.
      { subst w2. simpl. rewrite !rows_written_snoc, !app_nil_r.
        destruct w1. simpl in *. congruence. }
      destruct (for_each_shape (dedup stubs) w2) as (rows & w3 & Hfe & Hr3 & Hs).
      rewrite (bind_run _ _ _ _ _ Hfe), log_run.
      eexists _, _, rows. split; [done|]. split; [reflexivity|].
      split; [|done].
      destruct w3. simpl. rewrite rows_written_snoc, app_nil_r. simpl in *.
      congruence.
  - rewrite (bind_raise _ _ _ _ _ Hc).
    eexists _, _, []. split; [done|]. split; [reflexivity|].
    split; [|done]. rewrite app_nil_r. congruence.
Qed.

(** X7: in the table a run of [main] writes, no two rows have the same
    slug, no row has an empty slug, and the keys of every row are exactly
    the fields of [CSV_FIELDS]. *)
Theorem main_output_table (site : nat -> pystr -> option Node) :
  let rows := rows_written (main (start site)).2 in
  NoDup ((fun row => getitem row "slug") <$> rows)
  /\ Forall (fun row =>
               getitem row "slug" <> []
               /\ forall k, is_Some (row !! k) <-> k ∈ CSV_FIELDS)
            rows.
Proof.
  cbv zeta.
  destruct (main_rows_shape (start site)) as (res & w1 & out & w' & rows & Hl & Hm & Hr & Hres).
  rewrite Hm. cbn [snd]. rewrite Hr.
  change (rows_written (start site) ++ rows) with rows.
  destruct res as [stubs|e]; [|subst rows; split; constructor].
  pose proof (collect_all_slugs_forall
                (fun s => stub_slug s <> []) _ parse_listing_page_slugs
                _ _ Hl) as Hne.
  simpl in Hne.
  assert ((fun row => getitem row "slug") <$> rows = stub_slug <$> dedup stubs)
    as Hslugs.
  { clear -Hres. induction Hres as [|row stub rows stubs' [Hs _] _ IH]; [done|].
    rewrite !fmap_cons, IH. f_equal. unfold getitem.
    by rewrite lookup_total_alt, Hs. }
  split.
  - rewrite Hslugs. apply dedup_NoDup.
  - assert (Forall (fun s => stub_slug s <> []) (dedup stubs)) as Hdd.
    { apply Forall_forall. intros s Hs.
      destruct (dedup_first_seen stubs s Hs) as [i Hi].
      apply list_find_Some in Hi as (Hi%list_elem_of_lookup_2 & _).
      rewrite Forall_forall in Hne. by apply Hne. }
    clear -Hres Hdd.
    induction Hres as [|row stub rows stubs' (Hs & Hk & _) _ IH]; [constructor|].
    apply Forall_cons in Hdd as [Hstub Hdd].
    constructor; [|by apply IH].
    split; [|done]. unfold getitem. by rewrite lookup_total_alt, Hs.
Qed.

Lemma parse_listing_page_ratings (soup : Node) :
  Forall (fun s => 44%N ∉ stub_rating_listing s) (parse_listing_page soup).
Proof.
  unfold parse_listing_page. apply Forall_forall. intros s Hs.
  apply list_elem_of_omap in Hs as (anchor & _ & Hs).
  by apply parse_anchor_wf in Hs as (_ & _ & ?).
Qed.

(** X9: the decimal comma of the site never reaches the output table: in
    every row a run of [main] writes, the overall rating, the three
    percentages and the five star percentages hold no comma, whether the
    value comes from the detail page, from the star rows, from the
    fallback scan or from the listing page. *)
Theorem main_no_decimal_comma (site : nat -> pystr -> option Node) :
  Forall (fun row =>
            forall k,
              k ∈ [ "overall_rating"; "response_rate_pct";
                    "resolved_complaints_pct"; "customer_loyalty_pct";
                    "star5_pct"; "star4_pct"; "star3_pct"; "star2_pct";
                    "star1_pct" ] ->
              44%N ∉ getitem row k)
         (rows_written (main (start site)).2).
Proof.
  destruct (main_rows_shape (start site))
    as (res & w1 & out & w' & rows & Hl & Hm & Hr & Hres).
  rewrite Hm. cbn [snd]. rewrite Hr.
  change (rows_written (start site) ++ rows) with rows.
  destruct res as [stubs|e]; [|subst rows; constructor].
  pose proof (collect_all_slugs_forall
                (fun s => 44%N ∉ stub_rating_listing s) _
                parse_listing_page_ratings _ _ Hl) as Hne.
  simpl in Hne.
  assert (Forall (fun s => 44%N ∉ stub_rating_listing s) (dedup stubs)) as Hdd.
  { apply Forall_forall. intros s Hs.
    destruct (dedup_first_seen stubs s Hs) as [i Hi].
    apply list_find_Some in Hi as (Hi%list_elem_of_lookup_2 & _).
    rewrite Forall_forall in Hne. by apply Hne. }
  clear -Hres Hdd.
  induction Hres as [|row stub rows stubs' (_ & _ & Hc) _ IH]; [constructor|].
  apply Forall_cons in Hdd as [Hstub Hdd].
  constructor; [|by apply IH].
  by apply Hc.
Qed.

End OutputProps.

(** ** Pacing of the requests *)

Section PaceProps.
Context {R : PyRuntime}.

Lemma pace_snoc (evs : list Event) (e : Event) :
  pace (evs ++ [e]) = pace_step (pace evs) e.
Proof. unfold pace. by rewrite foldl_app. Qed.

Lemma pace_step_None (evs : list Event) : foldl pace_step None evs = None.
Proof. by induction evs. Qed.

Lemma pace_ready (evs : list Event) (ready : bool) :
  foldl pace_step (Some ready) evs = Some true ->
  ready = true
  \/ exists q, EvSleep q ∈ evs /\ (REQUEST_DELAY <= q)%Q.
Proof.
  revert ready. induction evs as [|e evs IH]; intros ready H.
  - left. simpl in H. congruence.
  - simpl in H.
    assert (forall st, st = Some ready -> foldl pace_step st evs = Some true ->
              ready = true
              \/ exists q, EvSleep q ∈ evs /\ (REQUEST_DELAY <= q)%Q) as Hsame.
    { intros st -> Hst. by apply IH. }
    destruct e as [url|q| | | | | |];
      try (destruct (Hsame _ eq_refl H) as [?|(q' & ? & ?)];
           [by left|right; exists q'; split; [by right|done]]).
    + destruct ready; [by left|]. by rewrite pace_step_None in H.
    + destruct (IH _ H) as [Hr|(q' & ? & ?)].
      * apply orb_true_iff in Hr as [?|Hq]; [by left|].
        right. exists q. split; [by left|]. by apply Qle_bool_iff.
      * right. exists q'. split; [by right|done].
Qed.

(** A trace that [pace] accepts has a long enough sleep between any two of
    its requests. *)
Lemma pace_spec (evs a b c : list Event) (u v : pystr) :
  is_Some (pace evs) ->
  evs = a ++ EvRequest u :: b ++ EvRequest v :: c ->
  exists q, EvSleep q ∈ b /\ (REQUEST_DELAY <= q)%Q.
Proof.
  intros [st Hst] ->. unfold pace in Hst.
  rewrite foldl_app in Hst. simpl in Hst.
  destruct (foldl pace_step (Some true) a) as [[]|]; simpl in Hst;
    [|by rewrite pace_step_None in Hst..].
  rewrite foldl_app in Hst. simpl in Hst.
  destruct (foldl pace_step (Some false) b) as [[]|] eqn:Eb; simpl in Hst;
    [|by rewrite pace_step_None in Hst..].
  by destruct (pace_ready _ _ Eb).
Qed.

Lemma get_pace (url : pystr) (w : World) :
  pace (events w) = Some true ->
  pace (events (get url w).2) = Some false.
Proof.
  intros H. rewrite (get_cases url w). cbv zeta.
  destruct (net w (requests w) url);
    [|destruct (net w (S (requests w)) url);
      [|destruct (net w (S (S (requests w))) url)]];
    cbn [snd events]; by rewrite !pace_snoc, H.
Qed.

Lemma parse_company_page_pace (slug : pystr) (w : World) :
  pace (events w) = Some true ->
  exists d w',
    parse_company_page slug w = (Ok d, w') /\ pace (events w') = Some false.
Proof.
  intros H. apply (get_pace (profile_url slug)) in H.
  unfold parse_company_page. cbv zeta.
  destruct (get_total (profile_url slug) w) as (r & w' & Hget & _).
  rewrite Hget in H. rewrite (bind_run _ _ _ _ _ Hget).
  destruct r; by eexists _, w'.
Qed.

Lemma scrape_one_pace (stub : Stub) (w : World) :
  pace (events w) = Some true ->
  exists w', scrape_one stub w = (Ok tt, w') /\ pace (events w') = Some true.
Proof.
  intros H. unfold scrape_one. cbv zeta. run_next.
  set (w1 := mkWorld _ _ _).
  destruct (parse_company_page_pace (stub_slug stub) w1) as (d & w2 & Hp & H2).
  { subst w1. cbn [events]. by rewrite pace_snoc, H. }
  rewrite (bind_run _ _ _ _ _ Hp). do 2 run_next. rewrite sleep_run.
  eexists. split; [reflexivity|]. cbn [events].
  by rewrite !pace_snoc, H2.
Qed.

Lemma for_each_pace (stubs : list Stub) (w : World) :
  pace (events w) = Some true ->
  exists w',
    for_each stubs scrape_one w = (Ok tt, w') /\ pace (events w') = Some true.
Proof.
  revert w. induction stubs as [|stub stubs IH]; intros w H.
  - by exists w.
  - destruct (scrape_one_pace stub w H) as (w1 & H1 & Hp1).
    destruct (IH w1 Hp1) as (w2 & H2 & Hp2).
    exists w2. simpl. by rewrite (bind_run _ _ _ _ _ H1).
Qed.

Lemma collect_pages_pace (pl : list nat) (acc : list Stub) (w : World) :
  pace (events w) = Some true ->
  exists stubs w',
    collect_pages pl acc w = (Ok stubs, w') /\ pace (events w') = Some true.
Proof.
  revert acc w. induction pl as [|p pl IH]; intros acc w H.
  - by exists acc, w.
  - simpl. run_next.
    set (w1 := mkWorld _ _ _).
    assert (pace (events w1) = Some true) as H1.
    { subst w1. cbn [events]. by rewrite pace_snoc, H. }
    apply (get_pace (page_url (N.of_nat p))) in H1.
    destruct (get_total (page_url (N.of_nat p)) w1) as (r & w2 & Hg & _).
    rewrite Hg in H1. cbn [snd] in H1. rewrite (bind_run _ _ _ _ _ Hg). run_next.
    apply IH. cbn [events]. by rewrite pace_snoc, H1.
Qed.

Lemma collect_all_slugs_pace (w : World) :
  pace (events w) = Some true ->
  match collect_all_slugs w with
  | (Ok stubs, w') =>
      pace (events w') = Some true
      \/ (stubs = [] /\ pace (events w') = Some false)
  | (Raised _, w') => pace (events w') = Some false
  end.
Proof.
  intros H. unfold collect_all_slugs. run_next.
  set (w1 := mkWorld _ _ _).
  assert (pace (events w1) = Some true) as H1.
  { subst w1. cbn [events]. by rewrite pace_snoc, H. }
  apply (get_pace (page_url 1)) in H1.
  destruct (get_total (page_url 1) w1) as (r & w2 & Hg & _).
  rewrite Hg in H1. cbn [snd] in H1. rewrite (bind_run _ _ _ _ _ Hg).
  destruct r as [soup|].
  - destruct (get_total_pages soup) as [total|e]; [|done].
    do 2 run_next.
    set (w3 := mkWorld _ _ _).
    destruct (collect_pages_pace (seq 2 (N.to_nat total - 1))
                (parse_listing_page soup) w3) as (stubs & w4 & Hc & H4).
    { subst w3. cbn [events]. by rewrite !pace_snoc, H1. }
    rewrite (bind_run _ _ _ _ _ Hc). run_next.
    left. cbn [events]. by rewrite pace_snoc, H4.
  - run_next. right. split; [done|]. cbn [events]. by rewrite pace_snoc, H1.
Qed.

Lemma main_pace (w : World) :
  pace (events w) = Some true -> is_Some (pace (events (main w).2)).
Proof.
  intros H. unfold main. run_next.
  set (w0 := mkWorld _ _ _).
  assert (pace (events w0) = Some true) as H0.
  { subst w0. cbn [events]. by rewrite pace_snoc, H. }
  apply collect_all_slugs_pace in H0.
  destruct (collect_all_slugs w0) as [[stubs|e] w1] eqn:Ec.
  - rewrite (bind_run _ _ _ _ _ Ec).
    destruct (bool_decide (stubs = [])) eqn:Eb.
    + rewrite log_run. cbn [snd events]. rewrite pace_snoc.
      destruct H0 as [-> | [_ ->]]; by eexists.
    + destruct H0 as [H1 | [-> _]]; [|by apply bool_decide_eq_false in Eb].
      do 3 run_next.
      set (w2 := mkWorld _ _ _).
      destruct (for_each_pace (dedup stubs) w2) as (w3 & Hfe & H3).
      { subst w2. cbn [events]. by rewrite !pace_snoc, H1. }
      rewrite (bind_run _ _ _ _ _ Hfe), log_run. cbn [snd events].
      rewrite pace_snoc, H3. by eexists.
  - rewrite (bind_raise _ _ _ _ _ Ec). cbn [snd]. rewrite H0. by eexists.
Qed.

(** X8: a run of [main] never sends a request without having slept at
    least [REQUEST_DELAY] seconds, in one call of [time.sleep], since the
    request before it: whatever the site answers, between any two requests
    of the run there is a sleep of [REQUEST_DELAY] or more.  This covers
    the retries of [get], the listing pages and the detail pages. *)
Theorem main_paces_requests (site : nat -> pystr -> option Node)
    (a b c : list Event) (u v : pystr) :
  events (main (start site)).2 = a ++ EvRequest u :: b ++ EvRequest v :: c ->
  exists q, EvSleep q ∈ b /\ (REQUEST_DELAY <= q)%Q.
Proof.
  apply pace_spec, main_pace. done.
Qed.

End PaceProps.

Lemma main_paces_requests_witness :
  exists q,
    EvSleep q ∈ [EvLog WARNING "Attempt %d/%d failed for %s: %s";
                 EvSleep (REQUEST_DELAY * inject_Z (Z.of_nat 1))]
    /\ (REQUEST_DELAY <= q)%Q.
Proof.
  apply (@main_paces_requests ascii_runtime (fun _ _ => None)
           [EvMakedirs; EvLog INFO "Fetching page 1 to detect total pages …"]
           [EvLog WARNING "Attempt %d/%d failed for %s: %s";
            EvSleep (REQUEST_DELAY * inject_Z (Z.of_nat 1))]
           [EvLog WARNING "Attempt %d/%d failed for %s: %s";
            EvSleep (REQUEST_DELAY * inject_Z (Z.of_nat 2));
            EvRequest (page_url 1);
            EvLog WARNING "Attempt %d/%d failed for %s: %s";
            EvLog ERROR "Giving up on %s";
            EvLog ERROR "Could not fetch listing page 1.";
            EvLog ERROR "No companies found – aborting."]
           (page_url 1) (page_url 1)).
  reflexivity.
Defined.

(** ** Sorting and the cut of the charts *)

Section SortProps.
Context {A : Type} (before : A -> A -> bool) (P : A -> Prop).
Hypothesis before_total :
  forall x y, P x -> P y -> before x y = false -> before y x = true.
Hypothesis before_trans :
  forall x y z, P x -> P y -> P z ->
    before x y = true -> before y z = true -> before x z = true.

Lemma insert_sorted_Permutation (x : A) (l : list A) :
  insert_sorted before x l ≡ₚ x :: l.
Proof.
  induction l as [|y l IH]; simpl; [done|].
  destruct (before x y); [done|]. rewrite IH. apply Permutation_swap.
Qed.

Lemma sorted_Permutation (l : list A) : sorted before l ≡ₚ l.
Proof.
  induction l as [|y l IH]; simpl; [done|].
  by rewrite insert_sorted_Permutation, IH.
Qed.

Lemma insert_sorted_StronglySorted (x : A) (l : list A) :
  P x -> Forall P l ->
  StronglySorted (fun a b => before a b = true) l ->
  StronglySorted (fun a b => before a b = true) (insert_sorted before x l).
Proof.
  intros Hx Hl Hs. induction Hs as [|y l Hs IH Hy]; simpl.
  - repeat constructor.
  - apply Forall_cons in Hl as [HPy Hl].
    destruct (before x y) eqn:E.
    + constructor; [by constructor|]. constructor; [done|].
      rewrite Forall_forall in Hy, Hl |- *. intros z Hz.
      apply (before_trans x y z); auto.
    + constructor; [by apply IH|].
      rewrite Forall_forall in Hy |- *. intros z Hz.
      apply insert_sorted_elem in Hz as [->|Hz];
        [by apply before_total|by apply Hy].
Qed.

Lemma sorted_StronglySorted (l : list A) :
  Forall P l -> StronglySorted (fun a b => before a b = true) (sorted before l).
Proof.
  induction l as [|y l IH]; intros Hl; simpl; [constructor|].
  apply Forall_cons in Hl as [Hy Hl].
  apply insert_sorted_StronglySorted; [done| |by apply IH].
  apply Forall_forall. intros z Hz%sorted_elem.
  rewrite Forall_forall in Hl. by apply Hl.
Qed.

(** The first [n] elements of the sorted list: they are in order, and no
    element that is cut off comes before one that is kept. *)
Lemma take_sorted_spec (n : nat) (l : list A) :
  Forall P l ->
  length (take n (sorted before l)) = (n `min` length l)%nat
  /\ StronglySorted (fun a b => before a b = true) (take n (sorted before l))
  /\ l ≡ₚ take n (sorted before l) ++ drop n (sorted before l)
  /\ forall x y,
       x ∈ take n (sorted before l) -> y ∈ drop n (sorted before l) ->
       before x y = true.
Proof.
  intros Hl. pose proof (sorted_StronglySorted l Hl) as Hs.
  rewrite <- (take_drop n (sorted before l)) in Hs. split_and!.
  - by rewrite length_take, sorted_length.
  - by apply StronglySorted_app_1_l in Hs.
  - by rewrite take_drop, sorted_Permutation.
  - intros x y Hx Hy. by apply (StronglySorted_app_1_elem_of _ _ _ _ _ Hs).
Qed.

End SortProps.

Lemma sorted_ext {A} (b1 b2 : A -> A -> bool) (l : list A) :
  (forall x y, b1 x y = b2 x y) -> sorted b1 l = sorted b2 l.
Proof.
  intros Hb. induction l as [|x l IH]; simpl; [done|]. rewrite IH.
  generalize (sorted b2 l). intros k.
  induction k as [|y k IHk]; simpl; [done|]. by rewrite Hb, IHk.
Qed.

Lemma StronglySorted_impl {A} (R1 R2 : A -> A -> Prop) (l : list A) :
  (forall x y, R1 x y -> R2 x y) -> StronglySorted R1 l -> StronglySorted R2 l.
Proof.
  intros HR. induction 1 as [|x l Hs IH Hx]; constructor; [done|].
  eapply Forall_impl; [exact Hx|]. auto.
Qed.

Lemma dd_update_Forall {V} (Q : pystr * V -> Prop) (dflt : V) (f : V -> V)
    (k : pystr) (d : list (pystr * V)) :
  Forall Q d -> Q (k, f dflt) -> (forall v, Q (k, v) -> Q (k, f v)) ->
  Forall Q (dd_update dflt f k d).
Proof.
  intros Hd H0 Hf. induction d as [|[k0 v] d IH]; cbn [dd_update].
  - by constructor.
  - apply Forall_cons in Hd as [Hh Hd].
    destruct (decide (k0 = k)) as [->|Hne].
    + constructor; [by apply Hf|done].
    + constructor; [done|]. by apply IH.
Qed.

Section ChartTopProps.
Context {R : PyRuntime}.

Lemma chart_01_counts_positive (rows : list Row) :
  Forall (fun x => (0 < x.2)%nat) (chart_01_counts rows).
Proof.
  induction rows as [|r rows IH] using rev_ind; [constructor|].
  rewrite chart_01_counts_snoc.
  apply dd_update_Forall; [done|simpl; lia|simpl; lia].
Qed.

(** X10: chart 1 shows the 15 largest categories (all of them when there
    are fewer), each once, with the number of its rows, in descending
    order of that number; a category it leaves out has no more rows than
    any category it shows. *)
Theorem chart_01_top (rows : list Row) :
  let data := chart_01_data rows in
  length data = (15 `min` length (chart_01_counts rows))%nat
  /\ NoDup data.*1
  /\ StronglySorted (fun x y => (y.2 <= x.2)%nat) data
  /\ (forall c n, (c, n) ∈ data -> n = length (rows_in c rows) /\ (0 < n)%nat)
  /\ (forall r,
        r ∈ rows ->
        category_key r ∈ data.*1
        \/ forall x,
             x ∈ data -> (length (rows_in (category_key r) rows) <= x.2)%nat).
Proof.
  cbv zeta. unfold chart_01_data.
  set (before := fun x y : pystr * nat => (y.2 <=? x.2)%nat).
  destruct (take_sorted_spec before (fun _ => True)) with (n := 15%nat)
    (l := chart_01_counts rows) as (Hlen & Hs & Hp & Hcut).
  { intros x y _ _ H. unfold before in *.
    apply Nat.leb_gt in H. apply Nat.leb_le. lia. }
  { intros x y z _ _ _ H1 H2. unfold before in *.
    apply Nat.leb_le in H1, H2. apply Nat.leb_le. lia. }
  { by apply Forall_true. }
  assert (forall x, x ∈ take 15 (sorted before (chart_01_counts rows)) ->
                    x ∈ chart_01_counts rows) as Hin.
  { intros x Hx. rewrite Hp. apply elem_of_app. by left. }
  split_and!.
  - done.
  - apply (sublist_NoDup _ (sorted before (chart_01_counts rows)).*1).
    + rewrite (sorted_Permutation before). apply chart_01_counts_NoDup.
    + rewrite fmap_take. apply sublist_take.
  - eapply StronglySorted_impl; [|exact Hs].
    intros x y H. by apply Nat.leb_le in H.
  - intros c n Hc. apply Hin in Hc.
    pose proof (chart_01_counts_positive rows) as Hpos.
    rewrite Forall_forall in Hpos. split; [|by apply (Hpos _ Hc)].
    apply dd_lookup_elem in Hc; [|apply chart_01_counts_NoDup].
    by rewrite <- chart_01_counts_count, Hc.
  - intros r Hr. apply chart_01_counts_present in Hr.
    rewrite Hp in Hr. apply elem_of_app in Hr as [Hr|Hr].
    + left. by apply (list_elem_of_fmap_2 fst _ _ Hr).
    + right. intros x Hx. specialize (Hcut x _ Hx Hr).
      by apply Nat.leb_le in Hcut.
Qed.

(** X11: chart 3 shows the 12 categories of the summary with the most
    reviews (all of them when there are fewer) in descending order of
    their review totals; a category it leaves out has no more reviews
    than any category it shows. *)
Theorem chart_03_top (summary : list Entry) :
  let data := chart_03_data summary in
  length data = (12 `min` length summary)%nat
  /\ StronglySorted
       (fun x y => (e_total_reviews y <= e_total_reviews x)%Z) data
  /\ exists rest,
       summary ≡ₚ data ++ rest
       /\ forall x y,
            x ∈ data -> y ∈ rest ->
            (e_total_reviews y <= e_total_reviews x)%Z.
Proof.
  cbv zeta. unfold chart_03_data.
  set (before := fun x y : Entry => (e_total_reviews y <=? e_total_reviews x)%Z).
  destruct (take_sorted_spec before (fun _ => True)) with (n := 12%nat)
    (l := summary) as (Hlen & Hs & Hp & Hcut).
  { intros x y _ _ H. unfold before in *.
    apply Z.leb_gt in H. apply Z.leb_le. lia. }
  { intros x y z _ _ _ H1 H2. unfold before in *.
    apply Z.leb_le in H1, H2. apply Z.leb_le. lia. }
  { by apply Forall_true. }
  split_and!.
  - done.
  - eapply StronglySorted_impl; [|exact Hs].
    intros x y H. by apply Z.leb_le in H.
  - exists (drop 12 (sorted before summary)). split; [done|].
    intros x y Hx Hy. specialize (Hcut x y Hx Hy). by apply Z.leb_le in Hcut.
Qed.

(** X12: charts 3 and 4 show the same categories in the same order:
    sorting by the review total with [reverse=True] and sorting by the
    negated review total give the same list, ties included, since both
    sorts are stable. *)
Theorem chart_04_same_bars (summary : list Entry) :
  chart_04_data summary = chart_03_data summary.
Proof.
  unfold chart_04_data, chart_03_data. f_equal. apply sorted_ext.
  intros x y.
  destruct (Z.leb_spec (- e_total_reviews x) (- e_total_reviews y));
    destruct (Z.leb_spec (e_total_reviews y) (e_total_reviews x)); lia.
Qed.

Lemma chart_07_rated_reviews (rows : list Row) :
  Forall (fun t => float_ge_int t.1.2 10 = true) (chart_07_rated rows).
Proof.
  unfold chart_07_rated. apply Forall_fmap, Forall_forall.
  intros r [Hok _]%list_elem_of_filter. simpl.
  unfold most_reviewed_ok in Hok. unfold float_or_zero.
  destruct (flt (r_total_reviews r)) as [v|]; [|done].
  apply andb_true_iff in Hok as [Ht Hge]. by rewrite Ht.
Qed.

(** X13: chart 7 shows the 15 companies with the most reviews among those
    with at least 10 (all of them when there are fewer), in descending
    order of their review counts; no sort key is a NaN, and a company it
    leaves out has no more reviews than any company it shows. *)
Theorem chart_07_top_spec (rows : list Row) :
  let top := chart_07_top rows in
  length top = (15 `min` length (chart_07_rated rows))%nat
  /\ Forall (fun t => float_ge_int t.1.2 10 = true) top
  /\ StronglySorted (fun x y => float_le y.1.2 x.1.2 = true) top
  /\ exists rest,
       chart_07_rated rows ≡ₚ top ++ rest
       /\ forall x y, x ∈ top -> y ∈ rest -> float_le y.1.2 x.1.2 = true.
Proof.
  cbv zeta. unfold chart_07_top.
  set (before := fun x y : option pystr * pyfloat * option pyfloat =>
                   float_le y.1.2 x.1.2).
  destruct (take_sorted_spec before (fun t => float_ge_int t.1.2 10 = true))
    with (n := 15%nat) (l := chart_07_rated rows) as (Hlen & Hs & Hp & Hcut).
  { intros [[? x] ?] [[? y] ?]. unfold before. simpl.
    destruct x as [a| | |], y as [b| | |]; simpl; try done.
    intros _ _ H. apply Qle_bool_iff.
    destruct (Qle_bool b a) eqn:E; [done|].
    apply Qlt_le_weak, Qnot_le_lt. intros Hle%Qle_bool_iff. congruence. }
  { intros [[? x] ?] [[? y] ?] [[? z] ?]. unfold before. simpl.
    destruct x as [a| | |], y as [b| | |], z as [c| | |]; simpl; try done.
    intros _ _ _ H1%Qle_bool_iff H2%Qle_bool_iff. apply Qle_bool_iff.
    by apply (Qle_trans _ b). }
  { apply chart_07_rated_reviews. }
  split_and!.
  - done.
  - pose proof (chart_07_rated_reviews rows) as Hall.
    rewrite Forall_forall in Hall |- *. intros t Ht. apply Hall.
    rewrite Hp. apply elem_of_app. by left.
  - done.
  - by exists (drop 15 (sorted before (chart_07_rated rows))).
Qed.

End ChartTopProps.

(** ** The rating buckets of chart 6 *)

Section BucketProps.
Context {R : PyRuntime}.

Lemma chart_06_buckets_snoc (rows : list Row) (r : Row) :
  chart_06_buckets (rows ++ [r])
  = <[bucket_of r := S (chart_06_buckets rows !!! bucket_of r)]>
      (chart_06_buckets rows).
Proof. unfold chart_06_buckets. by rewrite foldl_snoc. Qed.

Lemma bucket_of_label (r : Row) : bucket_of r ∈ bucket_labels.
Proof. unfold bucket_of, bucket_labels. repeat case_match; literal_in. Qed.

Lemma chart_06_keys (rows : list Row) (k : string) :
  is_Some (chart_06_buckets rows !! k) <-> k ∈ bucket_labels.
Proof.
  induction rows as [|r rows IH] using rev_ind.
  - unfold chart_06_buckets. cbn [foldl]. split.
    + intros [v Hv]. apply elem_of_list_to_map_2 in Hv.
      by apply list_elem_of_fmap in Hv as (k' & [= -> ->] & H).
    + intros Hk. destruct (list_to_map _ !! k) eqn:E; [done|].
      apply not_elem_of_list_to_map_2 in E.
      by rewrite <- list_fmap_compose, list_fmap_id in E.
  - rewrite chart_06_buckets_snoc, lookup_insert_is_Some', IH. split.
    + intros [<-|?]; [apply bucket_of_label|done].
    + by right.
Qed.

Lemma chart_06_count (rows : list Row) (k : string) :
  chart_06_buckets rows !!! k = length (filter (fun r => bucket_of r = k) rows).
Proof.
  induction rows as [|r rows IH] using rev_ind.
  - unfold chart_06_buckets. cbn [foldl]. rewrite lookup_total_alt.
    destruct (list_to_map _ !! k) as [v|] eqn:E; [|done].
    apply elem_of_list_to_map_2 in E.
    by apply list_elem_of_fmap in E as (k' & [= -> ->] & _).
  - rewrite chart_06_buckets_snoc, filter_app, length_app.
    destruct (decide (bucket_of r = k)) as [<-|Hne].
    + rewrite lookup_total_insert_eq, (filter_cons_True _ r []) by done.
      rewrite IH. simpl. lia.
    + rewrite lookup_total_insert_ne, (filter_cons_False _ r []) by done.
      rewrite IH. simpl. lia.
Qed.

Lemma chart_06_sum (rows : list Row) :
  sum_list (chart_06_values rows) = length rows.
Proof.
  unfold chart_06_values, bucket_labels.
  cbn [fmap list_fmap sum_list_with]. rewrite !chart_06_count.
  induction rows as [|r rows IH]; [done|].
  rewrite !filter_cons. pose proof (bucket_of_label r) as Hl.
  unfold bucket_labels in Hl.
  repeat (apply elem_of_cons in Hl as [Hl|Hl]);
    [..|by apply elem_of_nil in Hl];
    rewrite Hl; repeat case_decide; try done; simpl length in *;
    unfold id in *; lia.
Qed.

(** X14: chart 6 counts every row in exactly one of its six buckets: the
    dictionary keeps its six keys, the value of a bucket is the number of
    rows that fall in it, and the six values add up to the number of rows
    of the table.  The label percentages [100*val/total] are all defined
    when the table has a row, and none is when it has no row: the division
    by [total] then raises. *)
Theorem chart_06_partition (rows : list Row) :
  (forall k, is_Some (chart_06_buckets rows !! k) <-> k ∈ bucket_labels)
  /\ (forall k,
        chart_06_buckets rows !!! k
        = length (filter (fun r => bucket_of r = k) rows))
  /\ sum_list (chart_06_values rows) = length rows
  /\ (rows <> [] -> Forall is_Some (chart_06_percents rows))
  /\ (rows = [] -> Forall (fun p => p = None) (chart_06_percents rows)).
Proof.
  split_and!.
  - apply chart_06_keys.
  - apply chart_06_count.
  - apply chart_06_sum.
  - intros Hne. unfold chart_06_percents. cbv zeta. rewrite chart_06_sum.
    apply Forall_fmap, Forall_forall. intros v _. simpl.
    destruct rows; [done|]. simpl. by eexists.
  - intros ->. unfold chart_06_percents. cbv zeta. rewrite chart_06_sum.
    apply Forall_fmap, Forall_forall. by intros v _.
Qed.

End BucketProps.

(** ** The social-media shares of chart 9 *)

Section SocialProps.
Context {R : PyRuntime}.

Lemma social_counts_snoc (rows : list SocialRow) (r : SocialRow) :
  social_counts (rows ++ [r]) = social_count_step (social_counts rows) r.
Proof. unfold social_counts. by rewrite foldl_snoc. Qed.

Lemma social_counts_NoDup (rows : list SocialRow) :
  NoDup (cats_all (social_counts rows)).*1.
Proof.
  induction rows as [|r rows IH] using rev_ind; [constructor|].
  rewrite social_counts_snoc. by apply dd_update_NoDup.
Qed.

Lemma social_counts_positive (rows : list SocialRow) :
  Forall (fun x => (0 < x.2)%nat) (cats_all (social_counts rows)).
Proof.
  induction rows as [|r rows IH] using rev_ind; [constructor|].
  rewrite social_counts_snoc.
  apply dd_update_Forall; [done|simpl; lia|simpl; lia].
Qed.

Lemma filter_snoc_length {A} (P : A -> Prop) `{forall x, Decision (P x)}
    (l : list A) (x : A) :
  length (filter P (l ++ [x]))
  = (length (filter P l) + if decide (P x) then 1 else 0)%nat.
Proof.
  rewrite filter_app, length_app. f_equal.
  destruct (decide (P x)).
  - by rewrite (filter_cons_True _ x []).
  - by rewrite (filter_cons_False _ x []).
Qed.

Lemma social_counts_count (rows : list SocialRow) (c : pystr) :
  let n := social_counts rows in
  let with_profile (field : SocialRow -> option pystr) :=
    length (filter (fun r => social_key r = c /\ has_profile (field r) = true)
              rows) in
  default 0%nat (dd_lookup c (cats_all n))
  = length (filter (fun r => social_key r = c) rows)
  /\ default 0%nat (dd_lookup c (cats_facebook n)) = with_profile s_facebook
  /\ default 0%nat (dd_lookup c (cats_instagram n)) = with_profile s_instagram
  /\ default 0%nat (dd_lookup c (cats_linkedin n)) = with_profile s_linkedin.
Proof.
  cbv zeta. induction rows as [|r rows IH] using rev_ind; [done|].
  destruct IH as (Ha & Hf & Hi & Hl).
  rewrite social_counts_snoc, !filter_snoc_length.
  unfold social_count_step. cbv zeta. cbn [cats_all cats_facebook cats_instagram cats_linkedin].
  split_and!.
  - rewrite dd_lookup_update. repeat case_decide; simpl; subst; lia.
  - destruct (has_profile (s_facebook r)); rewrite ?dd_lookup_update;
      repeat case_decide; simpl; subst; try lia; naive_solver.
  - destruct (has_profile (s_instagram r)); rewrite ?dd_lookup_update;
      repeat case_decide; simpl; subst; try lia; naive_solver.
  - destruct (has_profile (s_linkedin r)); rewrite ?dd_lookup_update;
      repeat case_decide; simpl; subst; try lia; naive_solver.
Qed.

Lemma filter_and_length {A} (P Q : A -> Prop) `{forall x, Decision (P x)}
    `{forall x, Decision (Q x)} (l : list A) :
  (length (filter (fun x => P x /\ Q x) l) <= length (filter P l))%nat.
Proof.
  induction l as [|x l IH]; [done|]. rewrite !filter_cons.
  repeat case_decide; simpl; try lia; naive_solver.
Qed.

Lemma chart_09_top_cats_present (rows : list SocialRow) (c : pystr) :
  c ∈ chart_09_top_cats rows ->
  (0 < length (filter (fun r => social_key r = c) rows))%nat.
Proof.
  unfold chart_09_top_cats.
  intros ([c' n] & -> & Hin)%list_elem_of_fmap.
  apply elem_of_take in Hin as (i & Hin%list_elem_of_lookup_2 & _).
  apply sorted_elem in Hin.
  simpl. pose proof (social_counts_positive rows) as Hpos.
  rewrite Forall_forall in Hpos. specialize (Hpos _ Hin). simpl in Hpos.
  apply dd_lookup_elem in Hin; [|apply social_counts_NoDup].
  destruct (social_counts_count rows c') as [Ha _].
  rewrite Hin in Ha. simpl in Ha. lia.
Qed.

Lemma percent_share (field : SocialRow -> option pystr) (c : pystr)
    (rows : list SocialRow) :
  (0 < length (filter (fun r => social_key r = c) rows))%nat ->
  percent
    (length (filter (fun r => social_key r = c /\ has_profile (field r) = true)
               rows))
    (length (filter (fun r => social_key r = c) rows))
  = Some (profile_share field c rows)
  /\ (0 <= profile_share field c rows <= 100)%Q.
Proof.
  intros Hpos. unfold profile_share.
  pose proof (filter_and_length (fun r => social_key r = c)
                (fun r => has_profile (field r) = true) rows) as Hle.
  cbv beta in Hle.
  set (b := length (filter (fun r => social_key r = c) rows)) in *.
  set (a := length (filter _ rows)) in *.
  split.
  - unfold percent. destruct b; [lia|done].
  - assert (0 < inject_Z (Z.of_nat b))%Q as Hb.
    { unfold Qlt. simpl. lia. }
    split.
    + apply Qle_shift_div_l; [done|]. unfold Qle. simpl. lia.
    + apply Qle_shift_div_r; [done|]. unfold Qle. simpl. lia.
Qed.

(** X15: chart 9 never divides by zero: every category it shows has a row,
    so each percentage of the three series is defined; it is the share of
    the rows of the category whose column holds a link that does not
    contain [bildir], and it lies between 0 and 100.  No category is shown
    twice. *)
Theorem chart_09_shares (rows : list SocialRow) :
  let n := social_counts rows in
  let series (field : SocialRow -> option pystr) :=
    (fun c => Some (profile_share field c rows)) <$> chart_09_top_cats rows in
  NoDup (chart_09_top_cats rows)
  /\ chart_09_pct (cats_facebook n) rows = series s_facebook
  /\ chart_09_pct (cats_instagram n) rows = series s_instagram
  /\ chart_09_pct (cats_linkedin n) rows = series s_linkedin
  /\ forall c field,
       c ∈ chart_09_top_cats rows ->
       (0 <= profile_share field c rows <= 100)%Q.
Proof.
  cbv zeta. split_and!.
  - unfold chart_09_top_cats. rewrite fmap_take.
    eapply sublist_NoDup; [|apply sublist_take].
    rewrite sorted_Permutation. apply social_counts_NoDup.
  - unfold chart_09_pct. apply Forall_fmap_ext, Forall_forall.
    intros c Hc%chart_09_top_cats_present.
    destruct (social_counts_count rows c) as (-> & -> & _).
    by apply percent_share.
  - unfold chart_09_pct. apply Forall_fmap_ext, Forall_forall.
    intros c Hc%chart_09_top_cats_present.
    destruct (social_counts_count rows c) as (-> & _ & -> & _).
    by apply percent_share.
  - unfold chart_09_pct. apply Forall_fmap_ext, Forall_forall.
    intros c Hc%chart_09_top_cats_present.
    destruct (social_counts_count rows c) as (-> & _ & _ & ->).
    by apply percent_share.
  - intros c field Hc%chart_09_top_cats_present. by apply percent_share.
Qed.

End SocialProps.

(** ** The entries and the errors of the category summary *)

Section SummaryProps.
Context {R : PyRuntime}.

Lemma summarise_all_categories (min_companies : nat)
    (cats : list (pystr * list Item)) (summary : list Entry) :
  summarise_all min_companies cats = Ok summary ->
  (e_category <$> summary) `sublist_of` cats.*1.
Proof.
  revert summary. induction cats as [|[c items] cats IH]; intros summary; simpl.
  - by intros [= <-].
  - unfold mbind, Res_bind.
    destruct (summarise min_companies c items) as [o|] eqn:Es; [|done].
    destruct (summarise_all min_companies cats) as [rest|] eqn:Er; [|done].
    intros [= <-]. destruct o as [e|].
    + apply summarise_Some in Es as [<- _]. rewrite fmap_cons.
      apply sublist_skip. by apply IH.
    + apply sublist_cons. by apply IH.
Qed.

Lemma summarise_all_raised (min_companies : nat)
    (cats : list (pystr * list Item)) (err : Exn) :
  summarise_all min_companies cats = Raised err ->
  exists c items,
    (c, items) ∈ cats /\ summarise min_companies c items = Raised err.
Proof.
  induction cats as [|[c items] cats IH]; simpl; [done|].
  unfold mbind, Res_bind.
  destruct (summarise min_companies c items) as [o|err'] eqn:Es.
  - destruct (summarise_all min_companies cats) as [rest|err'] eqn:Er; [done|].
    intros [= <-]. destruct (IH eq_refl) as (c' & items' & Hin & Hs).
    exists c', items'. split; [by right|done].
  - intros [= <-]. exists c, items. split; [by left|done].
Qed.

Lemma summarise_total (min_companies : nat) (c : pystr) (items : list Item)
    (e : Entry) :
  summarise min_companies c items = Ok (Some e) ->
  int_of_float (py_sum (reviews <$> items)) = Ok (e_total_reviews e).
Proof.
  intros H. pose proof (summarise_cases min_companies c items) as Hc.
  cbv zeta in Hc.
  destruct (decide (length items < min_companies)%nat); [congruence|].
  destruct (decide (filter (fun i => is_Some (rating i)) items = []));
    [congruence|].
  destruct (int_of_float _) as [total|err].
  - destruct Hc as (e' & He' & _ & _ & _ & Ht). congruence.
  - destruct Hc as [Hc _]. congruence.
Qed.

Lemma summarise_raised (min_companies : nat) (c : pystr) (items : list Item)
    (err : Exn) :
  summarise min_companies c items = Raised err ->
  (min_companies <= length items)%nat
  /\ (exists i, i ∈ items /\ is_Some (rating i))
  /\ int_of_float (py_sum (reviews <$> items)) = Raised err.
Proof.
  intros H. pose proof (summarise_cases min_companies c items) as Hc.
  cbv zeta in Hc.
  destruct (decide (length items < min_companies)%nat); [congruence|].
  destruct (decide (filter (fun i => is_Some (rating i)) items = []))
    as [|Hne]; [congruence|].
  split; [lia|]. split.
  - destruct (filter _ items) as [|i l] eqn:Ef; [done|].
    assert (i ∈ filter (fun i => is_Some (rating i)) items) as Hi
      by (rewrite Ef; by left).
    apply list_elem_of_filter in Hi as [? ?]. by exists i.
  - destruct (int_of_float _) as [total|err'].
    + destruct Hc as (e' & He' & _). congruence.
    + destruct Hc as [Hc _]. congruence.
Qed.

Lemma group_reviews (rows : list Row) (c : pystr) :
  reviews <$> (item_of_row <$> rows_in c rows)
  = (fun r => float_or_zero (flt (r_total_reviews r))) <$> rows_in c rows.
Proof. by rewrite <- list_fmap_compose. Qed.

Lemma build_cat_stats_entry (rows : list Row) (min_companies : nat)
    (summary : list Entry) (e : Entry) :
  build_cat_stats rows min_companies = Ok summary ->
  e ∈ summary ->
  e_count e = length (rows_in (e_category e) rows)
  /\ (min_companies <= e_count e)%nat
  /\ int_of_float
       (py_sum ((fun r => float_or_zero (flt (r_total_reviews r)))
                  <$> rows_in (e_category e) rows))
     = Ok (e_total_reviews e).
Proof.
  intros Hb He.
  destruct (summarise_all_elem _ _ _ _ Hb He) as (c & items & Hin & Hs).
  pose proof (summarise_total _ _ _ _ Hs) as Ht.
  apply summarise_Some in Hs as (<- & Hn & Hlen & _).
  apply group_rows_elem_items in Hin. subst items.
  rewrite group_reviews in Ht. rewrite length_fmap in Hn, Hlen.
  split; [done|]. split; [lia|done].
Qed.

(** X16: the summary [build_cat_stats] returns has one entry per category
    at most; the [count] of an entry is the number of rows of its
    category, which is at least [min_companies]; and its [total_reviews]
    is the sum of the review counts of these rows, a count that does not
    parse or parses to zero adding 0, cut to an integer. *)
Theorem build_cat_stats_entries (rows : list Row) (min_companies : nat)
    (summary : list Entry) :
  build_cat_stats rows min_companies = Ok summary ->
  NoDup (e_category <$> summary)
  /\ forall e,
       e ∈ summary ->
       e_count e = length (rows_in (e_category e) rows)
       /\ (min_companies <= e_count e)%nat
       /\ int_of_float
            (py_sum ((fun r => float_or_zero (flt (r_total_reviews r)))
                       <$> rows_in (e_category e) rows))
          = Ok (e_total_reviews e).
Proof.
  intros Hb. split.
  - eapply sublist_NoDup; [apply (group_rows_NoDup rows)|].
    by apply (summarise_all_categories min_companies).
  - intros e He. by apply (build_cat_stats_entry rows min_companies summary).
Qed.

(** X17: [build_cat_stats] raises exactly when the sum of the review counts
    of a category that is summarised (it has [min_companies] rows or more,
    one of them with a rating that parses) is not a finite number: the
    error is the [OverflowError] or the [ValueError] of [int] on that sum.
    When it returns, the sum of every such category is finite. *)
Theorem build_cat_stats_errors (rows : list Row) (min_companies : nat) :
  let review_sum (c : pystr) :=
    py_sum ((fun r => float_or_zero (flt (r_total_reviews r)))
              <$> rows_in c rows) in
  let summarised (c : pystr) :=
    (min_companies <= length (rows_in c rows))%nat
    /\ exists r, r ∈ rows_in c rows /\ is_Some (flt (r_overall_rating r)) in
  match build_cat_stats rows min_companies with
  | Ok summary => forall c, summarised c -> exists q, review_sum c = Finite q
  | Raised err =>
      (err = OverflowError \/ err = ValueError)
      /\ exists c, summarised c /\ int_of_float (review_sum c) = Raised err
  end.
Proof.
  cbv zeta.
  destruct (build_cat_stats rows min_companies) as [summary|err] eqn:Hb.
  - intros c [Hlen Hr].
    destruct (build_cat_stats_included _ _ _ _ Hb Hlen Hr) as (e & He & <- & _).
    destruct (build_cat_stats_entry _ _ _ _ Hb He) as (_ & _ & Ht).
    destruct (py_sum _) as [q| | |]; [by exists q|done..].
  - apply summarise_all_raised in Hb as (c & items & Hin & Hs).
    apply summarise_raised in Hs as (Hlen & (i & Hi & Hri) & Ht).
    apply group_rows_elem_items in Hin. subst items.
    rewrite group_reviews in Ht. rewrite length_fmap in Hlen.
    split.
    + destruct (py_sum _) as [q| | |]; simpl in Ht; [done|..];
        injection Ht as <-; auto.
    + exists c. split; [|done]. split; [done|].
      apply list_elem_of_fmap in Hi as (r & -> & Hr). by exists r.
Qed.

Lemma best_worst_ok_alt (r : Row) :
  best_worst_ok r
  = from_option float_truthy false (flt (r_overall_rating r))
    && most_reviewed_ok r.
Proof.
  unfold best_worst_ok, most_reviewed_ok.
  destruct (flt (r_overall_rating r)); [done|].
  by destruct (flt (r_total_reviews r)).
Qed.

Lemma most_reviewed_ok_reviews (r : Row) :
  most_reviewed_ok r = true ->
  flt (r_total_reviews r) = Some (float_or_zero (flt (r_total_reviews r))).
Proof.
  unfold most_reviewed_ok, float_or_zero.
  destruct (flt (r_total_reviews r)) as [v|]; [|done].
  intros [-> _]%andb_true_iff. done.
Qed.

(** X18: the candidates of chart 8 are the candidates of chart 7 whose
    rating parses and is not zero, in the same order, each with the same
    name, rating and review count. *)
Theorem chart_08_candidates (rows : list Row) :
  chart_08_rated rows
  = (fun t => (t.1.1, t.2, Some t.1.2))
      <$> filter (fun t => from_option float_truthy false t.2 = true)
                 (chart_07_rated rows).
Proof.
  unfold chart_08_rated, chart_07_rated.
  induction rows as [|r rows IH]; [done|].
  pose proof (best_worst_ok_alt r) as Halt.
  destruct (most_reviewed_ok r) eqn:Em.
  - rewrite (filter_cons_True (fun r => most_reviewed_ok r = true)) by done.
    rewrite fmap_cons.
    destruct (from_option float_truthy false (flt (r_overall_rating r))) eqn:Er.
    + rewrite (filter_cons_True (fun r => best_worst_ok r = true)) by done.
      rewrite (filter_cons_True _ (rated_entry r)) by done.
      rewrite !fmap_cons, IH. f_equal. unfold rated_entry. simpl.
      by rewrite <- most_reviewed_ok_reviews.
    + rewrite (filter_cons_False (fun r => best_worst_ok r = true))
        by (rewrite Halt; done).
      rewrite (filter_cons_False _ (rated_entry r)); [done|].
      simpl. by rewrite Er.
  - rewrite (filter_cons_False (fun r => most_reviewed_ok r = true))
      by (rewrite Em; done).
    rewrite (filter_cons_False (fun r => best_worst_ok r = true)); [done|].
    rewrite Halt, andb_false_r. done.
Qed.

End SummaryProps.

Lemma build_cat_stats_entries_witness :
  NoDup (e_category <$> [mkEntry (lit "A") 6 (Finite (9 # 2)) 390
                           (Finite 0) (Finite 0) (Finite 0)]).
Proof.
  apply (@build_cat_stats_entries ascii_runtime sample_table 5
           [mkEntry (lit "A") 6 (Finite (9 # 2)) 390
              (Finite 0) (Finite 0) (Finite 0)]).
  vm_compute. reflexivity.
Defined.
